(** * prov-db-connector: the mapping engine of [provapi.py]

    A shallow embedding of [ProvApi] (src/provdbconnector/provapi.py): the
    record metadata extractor, the graph materializer and the document
    reconstructor, together with the parts of the [prov] library and of the
    storage adapter they call. *)

From Stdlib Require Import List String Ascii Bool Arith Lia.
From Stdlib Require Import DecimalString DecimalNat.
Import ListNotations.
Local Open Scope string_scope.
Local Open Scope list_scope.

(* ===================================================================== *)
(** ** Python values used by the engine *)
(* ===================================================================== *)

(** Python dictionaries keep insertion order; [d[k] = v] overwrites the value
    of an existing key in place and appends a new key at the end.  Keys are
    compared with the [==] of their type, given as [eqb]. *)
Section Dict.
Variables K V : Type.
Variable eqb : K -> K -> bool.

Definition dict := list (K * V).

Fixpoint dict_get (d : dict) (k : K) : option V :=
  match d with
  | [] => None
  | (k', v) :: rest => if eqb k' k then Some v else dict_get rest k
  end.

Fixpoint dict_update (d : dict) (k : K) (v : V) : dict :=
  match d with
  | [] => [(k, v)]
  | (k', v') :: rest =>
      if eqb k' k then (k', v) :: rest else (k', v') :: dict_update rest k v
  end.

(** [dict(items)] for a list of pairs. *)
Definition dict_of_items (items : list (K * V)) : dict :=
  fold_left (fun d kv => dict_update d (fst kv) (snd kv)) items [].

Definition dict_keys (d : dict) : list K := map fst d.
Definition dict_values (d : dict) : list V := map snd d.
End Dict.

Arguments dict_get {K V} eqb d k.
Arguments dict_update {K V} eqb d k v.
Arguments dict_of_items {K V} eqb items.
Arguments dict_keys {K V} d.
Arguments dict_values {K V} d.

(** Exceptions: the typed errors of [provdbconnector.exceptions], the
    adapter's [DatabaseException] family, the [prov] library's
    [ProvException] and the Python built-ins the code can raise. *)
Inductive Exn : Type :=
| InvalidArgumentTypeException
| InvalidProvRecordException
| ParseException
| DatabaseException
| ProvException
| KeyError
| IndexError
| ValueError
| AttributeError.

Inductive result (A : Type) : Type :=
| Ok (a : A)
| Raise (e : Exn).
Arguments Ok {A} a.
Arguments Raise {A} e.

Definition result_bind {A B} (r : result A) (f : A -> result B) : result B :=
  match r with
  | Ok a => f a
  | Raise e => Raise e
  end.

(* ===================================================================== *)
(** ** Qualified names and namespaces ([prov.identifier]) *)
(* ===================================================================== *)

Record Namespace : Type := mkNamespace
  { ns_prefix : string;
    ns_uri : string }.

Record QualifiedName : Type := mkQualifiedName
  { qn_namespace : Namespace;
    qn_localpart : string }.

(** [Identifier.uri] of a qualified name: namespace URI followed by the local
    part. *)
Definition qn_uri (q : QualifiedName) : string :=
  ns_uri (qn_namespace q) ++ qn_localpart q.

(** [str(q)]: [prefix:local], or the bare local part for an empty prefix. *)
Definition qn_str (q : QualifiedName) : string :=
  if String.eqb (ns_prefix (qn_namespace q)) ""
  then qn_localpart q
  else ns_prefix (qn_namespace q) ++ ":" ++ qn_localpart q.

(** [Identifier.__eq__]: two qualified names are [==] when their URIs are. *)
Definition qn_eqb (a b : QualifiedName) : bool :=
  String.eqb (qn_uri a) (qn_uri b).

Definition ns_same (a b : Namespace) : bool :=
  String.eqb (ns_prefix a) (ns_prefix b) && String.eqb (ns_uri a) (ns_uri b).

(** [a is b] for qualified names: a namespace mints one object per local part
    ([Namespace._cache]) and a manager keeps one namespace per prefix, so two
    names resolved by the same bundle are the same object exactly when their
    namespace and local part agree. *)
Definition qn_is (a b : QualifiedName) : bool :=
  ns_same (qn_namespace a) (qn_namespace b)
  && String.eqb (qn_localpart a) (qn_localpart b).

Definition PROV : Namespace := mkNamespace "prov" "http://www.w3.org/ns/prov#".
Definition XSD : Namespace := mkNamespace "xsd" "http://www.w3.org/2001/XMLSchema#".
Definition XSI : Namespace :=
  mkNamespace "xsi" "http://www.w3.org/2001/XMLSchema-instance".

Definition DEFAULT_NAMESPACES : list Namespace := [PROV; XSD; XSI].

Definition prov_qn (local : string) : QualifiedName := mkQualifiedName PROV local.

(** [prov.model.NamespaceManager]: the registered namespaces (the defaults
    above are always present), the default namespace and, for a bundle, the
    parent manager (its document's). *)
Inductive NamespaceManager : Type :=
| NsRoot (registered : list Namespace) (default : option Namespace)
| NsChild (registered : list Namespace) (default : option Namespace)
          (parent : NamespaceManager).

(** [str.split(":", 1)] when the string contains a colon. *)
Fixpoint split_colon (s : string) : option (string * string) :=
  match s with
  | EmptyString => None
  | String c rest =>
      if Ascii.eqb c ":" then Some ("", rest)
      else match split_colon rest with
           | Some (p, l) => Some (String c p, l)
           | None => None
           end
  end.

(** [s.replace(u, "")] for a non-empty [u]: the occurrences of [u] are
    removed from left to right; [skip] counts the characters of an occurrence
    still to be dropped. *)
Fixpoint remove_from (u : string) (skip : nat) (s : string) : string :=
  match s with
  | EmptyString => EmptyString
  | String c rest =>
      match skip with
      | S k => remove_from u k rest
      | O =>
          if String.prefix u s then remove_from u (String.length u - 1) rest
          else String c (remove_from u 0 rest)
      end
  end.

Definition remove_all (u s : string) : string :=
  if String.eqb u "" then s else remove_from u 0 s.

Definition find_prefix (nss : list Namespace) (p : string) : option Namespace :=
  find (fun ns => String.eqb (ns_prefix ns) p) nss.

(** The URI branch of the resolver: the first namespace whose URI starts the
    string gives the qualified name of [str_value.replace(namespace.uri, "")]. *)
Fixpoint compact_uri (nss : list Namespace) (s : string) : option QualifiedName :=
  match nss with
  | [] => None
  | ns :: rest =>
      if String.prefix (ns_uri ns) s
      then Some (mkQualifiedName ns (remove_all (ns_uri ns) s))
      else compact_uri rest s
  end.

(** The namespaces that a manager holds: the library's defaults, the
    registered ones and, under the empty prefix, the default namespace
    ([set_default_namespace] stores it as [self[""]]). *)
Definition held_namespaces (registered : list Namespace) (default : option Namespace)
  : list Namespace :=
  DEFAULT_NAMESPACES ++ registered
  ++ match default with
     | Some ns => [mkNamespace "" (ns_uri ns)]
     | None => []
     end.

(** The part of [NamespaceManager.valid_qualified_name] that looks at the
    manager itself, for a [str] that is neither empty nor a blank-node id:
    [prefix:local] is looked up among the prefixes the manager holds, then
    tried as a URI; a string without a colon goes to the default namespace. *)
Definition resolve_here (registered : list Namespace) (default : option Namespace)
                        (s : string) : option QualifiedName :=
  match split_colon s with
  | Some (p, local) =>
      match find_prefix (held_namespaces registered default) p with
      | Some ns => Some (mkQualifiedName ns local)
      | None => compact_uri (held_namespaces registered default) s
      end
  | None =>
      match default with
      | Some ns => Some (mkQualifiedName ns s)
      | None => None
      end
  end.

(** [NamespaceManager.valid_qualified_name] on a [str]: empty strings and
    blank-node ids are refused, and what the manager cannot resolve is
    delegated to its parent. *)
Fixpoint valid_qualified_name (nm : NamespaceManager) (s : string)
  : option QualifiedName :=
  if String.eqb s "" then None
  else if String.prefix "_:" s then None
  else
    match nm with
    | NsRoot registered default => resolve_here registered default s
    | NsChild registered default parent =>
        match resolve_here registered default s with
        | Some q => Some q
        | None => valid_qualified_name parent s
        end
    end.

(** A fresh [ProvDocument()] has only the default namespaces. *)
Definition empty_manager : NamespaceManager := NsRoot [] None.

(* ===================================================================== *)
(** ** Records of the provenance model ([prov.model], [prov.constants]) *)
(* ===================================================================== *)

(** Attribute values: a plain string, a qualified name, a date-time (its
    ISO-8601 text) or a literal with an explicit datatype. *)
Inductive Value : Type :=
| VStr (s : string)
| VQName (q : QualifiedName)
| VDateTime (iso : string)
| VLiteral (text : string) (datatype : QualifiedName).

(** What a record can carry as identifier: a [QualifiedName], or a [str]
    still to be resolved. *)
Inductive PyIdentifier : Type :=
| IdQName (q : QualifiedName)
| IdStr (s : string).

(** Attribute keys are qualified names in every record the library builds; the
    extractor checks it, so a key of another type is representable. *)
Inductive AttrKey : Type :=
| KQName (q : QualifiedName)
| KOther (s : string).

(** [==] on keys and on values: qualified names by URI, strings by content,
    objects of different types are never equal. *)
Definition key_eqb (a b : AttrKey) : bool :=
  match a, b with
  | KQName p, KQName q => qn_eqb p q
  | KOther s, KOther t => String.eqb s t
  | _, _ => false
  end.

Definition value_eqb (a b : Value) : bool :=
  match a, b with
  | VStr s, VStr t => String.eqb s t
  | VQName p, VQName q => qn_eqb p q
  | VDateTime s, VDateTime t => String.eqb s t
  | VLiteral s d, VLiteral t e => String.eqb s t && qn_eqb d e
  | _, _ => false
  end.

(** The subclasses of [ProvElement] and of [ProvRelation]. *)
Inductive ElementKind : Type := ProvEntity | ProvActivity | ProvAgent.

Inductive RelationKind : Type :=
| ProvGeneration | ProvUsage | ProvCommunication | ProvStart | ProvEnd
| ProvInvalidation | ProvDerivation | ProvAttribution | ProvAssociation
| ProvDelegation | ProvInfluence | ProvSpecialization | ProvAlternate
| ProvMention | ProvMembership.

(** The class of a record object: an element, a relation, the
    [ProvBundleRecord] of provapi.py, or a bare [ProvRecord]. *)
Inductive RecordClass : Type :=
| ClsElement (k : ElementKind)
| ClsRelation (k : RelationKind)
| ClsBundleRecord
| ClsRecord.

Definition PROV_ENTITY := prov_qn "Entity".
Definition PROV_ACTIVITY := prov_qn "Activity".
Definition PROV_AGENT := prov_qn "Agent".
Definition PROV_GENERATION := prov_qn "Generation".
Definition PROV_USAGE := prov_qn "Usage".
Definition PROV_COMMUNICATION := prov_qn "Communication".
Definition PROV_START := prov_qn "Start".
Definition PROV_END := prov_qn "End".
Definition PROV_INVALIDATION := prov_qn "Invalidation".
Definition PROV_DERIVATION := prov_qn "Derivation".
Definition PROV_ATTRIBUTION := prov_qn "Attribution".
Definition PROV_ASSOCIATION := prov_qn "Association".
Definition PROV_DELEGATION := prov_qn "Delegation".
Definition PROV_INFLUENCE := prov_qn "Influence".
Definition PROV_SPECIALIZATION := prov_qn "Specialization".
Definition PROV_ALTERNATE := prov_qn "Alternate".
Definition PROV_MENTION := prov_qn "Mention".
Definition PROV_MEMBERSHIP := prov_qn "Membership".
Definition PROV_BUNDLE := prov_qn "Bundle".
Definition PROV_UNKNOWN := prov_qn "Unknown".
Definition PROV_LABEL := prov_qn "label".

Definition PROV_ATTR_ENTITY := prov_qn "entity".
Definition PROV_ATTR_ACTIVITY := prov_qn "activity".
Definition PROV_ATTR_TRIGGER := prov_qn "trigger".
Definition PROV_ATTR_INFORMED := prov_qn "informed".
Definition PROV_ATTR_INFORMANT := prov_qn "informant".
Definition PROV_ATTR_STARTER := prov_qn "starter".
Definition PROV_ATTR_ENDER := prov_qn "ender".
Definition PROV_ATTR_AGENT := prov_qn "agent".
Definition PROV_ATTR_PLAN := prov_qn "plan".
Definition PROV_ATTR_DELEGATE := prov_qn "delegate".
Definition PROV_ATTR_RESPONSIBLE := prov_qn "responsible".
Definition PROV_ATTR_GENERATED_ENTITY := prov_qn "generatedEntity".
Definition PROV_ATTR_USED_ENTITY := prov_qn "usedEntity".
Definition PROV_ATTR_GENERATION := prov_qn "generation".
Definition PROV_ATTR_USAGE := prov_qn "usage".
Definition PROV_ATTR_SPECIFIC_ENTITY := prov_qn "specificEntity".
Definition PROV_ATTR_GENERAL_ENTITY := prov_qn "generalEntity".
Definition PROV_ATTR_ALTERNATE1 := prov_qn "alternate1".
Definition PROV_ATTR_ALTERNATE2 := prov_qn "alternate2".
Definition PROV_ATTR_BUNDLE := prov_qn "bundle".
Definition PROV_ATTR_INFLUENCEE := prov_qn "influencee".
Definition PROV_ATTR_INFLUENCER := prov_qn "influencer".
Definition PROV_ATTR_COLLECTION := prov_qn "collection".
Definition PROV_ATTR_TIME := prov_qn "time".
Definition PROV_ATTR_STARTTIME := prov_qn "startTime".
Definition PROV_ATTR_ENDTIME := prov_qn "endTime".

Definition PROV_ATTRIBUTE_QNAMES : list QualifiedName :=
  [ PROV_ATTR_ENTITY; PROV_ATTR_ACTIVITY; PROV_ATTR_TRIGGER; PROV_ATTR_INFORMED;
    PROV_ATTR_INFORMANT; PROV_ATTR_STARTER; PROV_ATTR_ENDER; PROV_ATTR_AGENT;
    PROV_ATTR_PLAN; PROV_ATTR_DELEGATE; PROV_ATTR_RESPONSIBLE;
    PROV_ATTR_GENERATED_ENTITY; PROV_ATTR_USED_ENTITY; PROV_ATTR_GENERATION;
    PROV_ATTR_USAGE; PROV_ATTR_SPECIFIC_ENTITY; PROV_ATTR_GENERAL_ENTITY;
    PROV_ATTR_ALTERNATE1; PROV_ATTR_ALTERNATE2; PROV_ATTR_BUNDLE;
    PROV_ATTR_INFLUENCEE; PROV_ATTR_INFLUENCER; PROV_ATTR_COLLECTION ].

Definition PROV_ATTRIBUTE_LITERALS : list QualifiedName :=
  [ PROV_ATTR_TIME; PROV_ATTR_STARTTIME; PROV_ATTR_ENDTIME ].

Definition PROV_ATTRIBUTES : list QualifiedName :=
  PROV_ATTRIBUTE_QNAMES ++ PROV_ATTRIBUTE_LITERALS.

(** [q in s] for a set of qualified names. *)
Definition qn_in (q : QualifiedName) (s : list QualifiedName) : bool :=
  existsb (qn_eqb q) s.

Definition element_type (k : ElementKind) : QualifiedName :=
  match k with
  | ProvEntity => PROV_ENTITY
  | ProvActivity => PROV_ACTIVITY
  | ProvAgent => PROV_AGENT
  end.

Definition relation_type (k : RelationKind) : QualifiedName :=
  match k with
  | ProvGeneration => PROV_GENERATION
  | ProvUsage => PROV_USAGE
  | ProvCommunication => PROV_COMMUNICATION
  | ProvStart => PROV_START
  | ProvEnd => PROV_END
  | ProvInvalidation => PROV_INVALIDATION
  | ProvDerivation => PROV_DERIVATION
  | ProvAttribution => PROV_ATTRIBUTION
  | ProvAssociation => PROV_ASSOCIATION
  | ProvDelegation => PROV_DELEGATION
  | ProvInfluence => PROV_INFLUENCE
  | ProvSpecialization => PROV_SPECIALIZATION
  | ProvAlternate => PROV_ALTERNATE
  | ProvMention => PROV_MENTION
  | ProvMembership => PROV_MEMBERSHIP
  end.

(** [FORMAL_ATTRIBUTES] of each class. *)
Definition element_formal (k : ElementKind) : list QualifiedName :=
  match k with
  | ProvActivity => [PROV_ATTR_STARTTIME; PROV_ATTR_ENDTIME]
  | _ => []
  end.

Definition relation_formal (k : RelationKind) : list QualifiedName :=
  match k with
  | ProvGeneration => [PROV_ATTR_ENTITY; PROV_ATTR_ACTIVITY; PROV_ATTR_TIME]
  | ProvUsage => [PROV_ATTR_ACTIVITY; PROV_ATTR_ENTITY; PROV_ATTR_TIME]
  | ProvCommunication => [PROV_ATTR_INFORMED; PROV_ATTR_INFORMANT]
  | ProvStart =>
      [PROV_ATTR_ACTIVITY; PROV_ATTR_TRIGGER; PROV_ATTR_STARTER; PROV_ATTR_TIME]
  | ProvEnd =>
      [PROV_ATTR_ACTIVITY; PROV_ATTR_TRIGGER; PROV_ATTR_ENDER; PROV_ATTR_TIME]
  | ProvInvalidation => [PROV_ATTR_ENTITY; PROV_ATTR_ACTIVITY; PROV_ATTR_TIME]
  | ProvDerivation =>
      [PROV_ATTR_GENERATED_ENTITY; PROV_ATTR_USED_ENTITY; PROV_ATTR_ACTIVITY;
       PROV_ATTR_GENERATION; PROV_ATTR_USAGE]
  | ProvAttribution => [PROV_ATTR_ENTITY; PROV_ATTR_AGENT]
  | ProvAssociation => [PROV_ATTR_ACTIVITY; PROV_ATTR_AGENT; PROV_ATTR_PLAN]
  | ProvDelegation =>
      [PROV_ATTR_DELEGATE; PROV_ATTR_RESPONSIBLE; PROV_ATTR_ACTIVITY]
  | ProvInfluence => [PROV_ATTR_INFLUENCEE; PROV_ATTR_INFLUENCER]
  | ProvSpecialization => [PROV_ATTR_SPECIFIC_ENTITY; PROV_ATTR_GENERAL_ENTITY]
  | ProvAlternate => [PROV_ATTR_ALTERNATE1; PROV_ATTR_ALTERNATE2]
  | ProvMention =>
      [PROV_ATTR_SPECIFIC_ENTITY; PROV_ATTR_GENERAL_ENTITY; PROV_ATTR_BUNDLE]
  | ProvMembership => [PROV_ATTR_COLLECTION; PROV_ATTR_ENTITY]
  end.

(** A record object: its class, the namespace manager of the bundle it belongs
    to ([record.bundle]), its identifier and the list [record.attributes] of
    (name, value) pairs, formal attributes included; an attribute may have
    several values. *)
Record ProvRecord : Type := mkProvRecord
  { rec_class : RecordClass;
    rec_bundle : NamespaceManager;
    rec_identifier : option PyIdentifier;
    rec_attributes : list (AttrKey * Value) }.

(** [record.get_type()]: fixed by the class; a bare [ProvRecord] has none. *)
Definition get_type (r : ProvRecord) : option QualifiedName :=
  match rec_class r with
  | ClsElement k => Some (element_type k)
  | ClsRelation k => Some (relation_type k)
  | ClsBundleRecord => Some PROV_BUNDLE
  | ClsRecord => None
  end.

Definition FORMAL_ATTRIBUTES (r : ProvRecord) : list QualifiedName :=
  match rec_class r with
  | ClsElement k => element_formal k
  | ClsRelation k => relation_formal k
  | _ => []
  end.

(** [first(self._attributes[name])]: a value of the attribute, [None] when it
    has none. *)
Definition first_value (r : ProvRecord) (name : QualifiedName) : option Value :=
  dict_get key_eqb (rec_attributes r) (KQName name).

(** [record.formal_attributes]. *)
Definition formal_attributes (r : ProvRecord)
  : list (QualifiedName * option Value) :=
  map (fun name => (name, first_value r name)) (FORMAL_ATTRIBUTES r).

(** [isinstance(r, ProvElement)] and [isinstance(r, ProvRelation)]. *)
Definition is_element (r : ProvRecord) : bool :=
  match rec_class r with ClsElement _ => true | _ => false end.

Definition is_relation (r : ProvRecord) : bool :=
  match rec_class r with ClsRelation _ => true | _ => false end.

(** [relation.get_type() is PROV_MENTION]. *)
Definition is_mention (r : ProvRecord) : bool :=
  match rec_class r with ClsRelation ProvMention => true | _ => false end.

(** A bundle: its identifier ([None] for a document), its namespaces and its
    records.  [get_records(cls)] keeps the records of a class, in order. *)
Record ProvBundle : Type := mkProvBundle
  { bundle_identifier : option QualifiedName;
    bundle_namespaces : NamespaceManager;
    bundle_records : list ProvRecord }.

Definition get_records (cls : ProvRecord -> bool) (b : ProvBundle) : list ProvRecord :=
  filter cls (bundle_records b).

(** A document is a bundle that also holds named bundles. *)
Record ProvDocument : Type := mkProvDocument
  { doc_bundle : ProvBundle;
    bundles : list ProvBundle }.

(* ===================================================================== *)
(** ** Record metadata extractor *)
(* ===================================================================== *)

(** Modelled from the spec: [encode_json_representation] of
    utils/serializer.py is not among the sources.  Section 4.2: the type tag of
    a value is none for a plain string; a qualified name, a date-time and a
    literal with a datatype each have their tag. *)
Definition encode_json_representation (v : Value) : option string :=
  match v with
  | VStr _ => None
  | VQName _ => Some "prov:QUALIFIED_NAME"
  | VDateTime _ => Some "xsd:dateTime"
  | VLiteral _ datatype => Some (qn_str datatype)
  end.

(** The metadata of a stored record: the values under [METADATA_KEY_PROV_TYPE],
    [METADATA_KEY_IDENTIFIER], [METADATA_KEY_NAMESPACES] and
    [METADATA_KEY_TYPE_MAP]. *)
Record Metadata : Type := mkMetadata
  { md_prov_type : QualifiedName;
    md_identifier : QualifiedName;
    md_namespaces : dict string string;
    md_type_map : dict string string }.

(** What a caller can pass where a record is expected. *)
Inductive PyObject : Type :=
| ObjRecord (r : ProvRecord)
| ObjNone
| ObjValue (v : Value).

(** [used_namespaces.update({str(namespace.prefix): str(namespace.uri)})]. *)
Definition use_namespace (used : dict string string) (q : QualifiedName)
  : dict string string :=
  dict_update String.eqb used (ns_prefix (qn_namespace q)) (ns_uri (qn_namespace q)).

(** Lines 394-406: the namespace of an attribute value.  A qualified name gives
    its own; a string that resolves gives the namespace of the resolved name
    (the value itself is not replaced); other values resolve to nothing. *)
Definition use_value_namespace (bundle : NamespaceManager)
           (used : dict string string) (value : Value) : dict string string :=
  match value with
  | VQName q => use_namespace used q
  | VStr s =>
      match valid_qualified_name bundle s with
      | Some qualified_name => use_namespace used qualified_name
      | None => used
      end
  | _ => used
  end.

(** Lines 384-406: the loop over [attributes.items()]. *)
Fixpoint attribute_namespaces (bundle : NamespaceManager)
         (items : list (AttrKey * Value)) (used : dict string string)
  : result (dict string string) :=
  match items with
  | [] => Ok used
  | (KQName key, value) :: rest =>
      attribute_namespaces bundle rest
        (use_value_namespace bundle (use_namespace used key) value)
  | (KOther _, _) :: _ => Raise InvalidProvRecordException
  end.

Definition key_str (k : AttrKey) : string :=
  match k with
  | KQName q => qn_str q
  | KOther s => s
  end.

Definition key_in_PROV_ATTRIBUTES (k : AttrKey) : bool :=
  match k with
  | KQName q => qn_in q PROV_ATTRIBUTES
  | KOther _ => false
  end.

(** Lines 409-414: the type map. *)
Fixpoint attribute_types (items : list (AttrKey * Value))
         (types_dict : dict string string) : dict string string :=
  match items with
  | [] => types_dict
  | (key, value) :: rest =>
      attribute_types rest
        (if key_in_PROV_ATTRIBUTES key then types_dict
         else match encode_json_representation value with
              | Some return_type =>
                  dict_update String.eqb types_dict (key_str key) return_type
              | None => types_dict
              end)
  end.

(** Lines 352-371: type and identifier.  A missing type becomes
    [prov:Unknown], a missing identifier the type; an identifier that is not a
    qualified name must resolve. *)
Definition record_type (r : ProvRecord) : option QualifiedName :=
  match get_type r with
  | Some t => Some t
  | None => valid_qualified_name (rec_bundle r) "prov:Unknown"
  end.

Definition record_identifier (r : ProvRecord) : result QualifiedName :=
  match rec_identifier r with
  | Some (IdQName q) => Ok q
  | Some (IdStr s) =>
      match valid_qualified_name (rec_bundle r) s with
      | Some qualified_name => Ok qualified_name
      | None => Raise InvalidProvRecordException
      end
  | None =>
      match record_type r with
      | Some t => Ok t
      | None => Raise InvalidProvRecordException
      end
  end.

Definition _get_metadata_and_attributes_for_record (prov_record : PyObject)
  : result (Metadata * dict AttrKey Value) :=
  match prov_record with
  | ObjRecord r =>
      let bundle := rec_bundle r in
      result_bind (record_identifier r) (fun prov_identifier =>
      match record_type r with
      | None => Raise AttributeError
      | Some prov_type =>
          let used_namespaces :=
            use_namespace (use_namespace [] prov_type) prov_identifier in
          let attributes := dict_of_items key_eqb (rec_attributes r) in
          result_bind (attribute_namespaces bundle attributes used_namespaces)
            (fun used_namespaces =>
               Ok (mkMetadata prov_type prov_identifier used_namespaces
                              (attribute_types attributes []),
                   attributes))
      end)
  | _ => Raise InvalidArgumentTypeException
  end.

(* ===================================================================== *)
(** ** The storage adapter and the effects of the engine *)
(* ===================================================================== *)

(** Ids issued by the adapter.  They are Python [str]; an id is represented by
    the number of the save call that issued it, so the guard
    [type(bundle_id) is not str] of [_create_bundle] never fires on them. *)
Definition DbId := nat.

(** One entry per successful save call, with the arguments as the engine
    passed them and the id the adapter returned. *)
Inductive Event : Type :=
| EvSaveDocument (document_id : DbId)
| EvSaveBundle (document_id : DbId) (attributes : dict AttrKey Value)
               (metadata : Metadata) (bundle_id : DbId)
| EvSaveRecord (bundle_id : DbId) (attributes : dict AttrKey Value)
               (metadata : Metadata) (record_id : DbId)
| EvSaveRelation (from_bundle_id : DbId) (from_node : option Value)
                 (to_bundle_id : DbId) (to_node : option Value)
                 (attributes : dict AttrKey Value) (metadata : Metadata)
                 (relation_id : DbId).

(** Modelled from the spec: the adapter ([db_adapters/baseadapter.py] and its
    implementations) is not among the sources.  Section 6 gives its contract:
    four save operations that return an id, and [get_document]; section 7
    lets any save fail with an error of the [DatabaseException] family.  The
    store is the sequence of saved calls; [fault] is the number of save calls
    that still succeed ([None]: all of them).  [next_uuid] feeds [uuid4()],
    modelled as a supply of pairwise distinct values. *)
Record World : Type := mkWorld
  { next_id : nat;
    fault : option nat;
    next_uuid : nat;
    store : list Event }.

(** Computations of the engine: they read and change the world and either
    return or raise; what was saved before an exception stays saved. *)
Definition M (A : Type) : Type := World -> result A * World.

Definition ret {A} (a : A) : M A := fun w => (Ok a, w).
Definition raise {A} (e : Exn) : M A := fun w => (Raise e, w).
Definition bind {A B} (c : M A) (k : A -> M B) : M B :=
  fun w => match c w with
           | (Ok a, w') => k a w'
           | (Raise e, w') => (Raise e, w')
           end.
Definition lift {A} (r : result A) : M A := fun w => (r, w).

Declare Scope prov_scope.
Delimit Scope prov_scope with prov.
Notation "x <- c ;; k" := (bind c (fun x => k))
  (at level 61, c at next level, right associativity) : prov_scope.
Notation "' pat <- c ;; k" := (bind c (fun x => match x with pat => k end))
  (at level 61, pat pattern, c at next level, right associativity) : prov_scope.
Notation "c ;;; k" := (bind c (fun _ => k))
  (at level 61, right associativity) : prov_scope.
Local Open Scope prov_scope.

(** [for x in xs: body(x)] *)
Fixpoint for_each {A} (xs : list A) (body : A -> M unit) : M unit :=
  match xs with
  | [] => ret tt
  | x :: rest => body x ;;; for_each rest body
  end.

(** A loop that updates a local variable. *)
Fixpoint for_each_acc {A S} (xs : list A) (acc : S) (body : S -> A -> M S) : M S :=
  match xs with
  | [] => ret acc
  | x :: rest => acc' <- body acc x ;; for_each_acc rest acc' body
  end.

(** A save call: it fails when the fault budget is used up, and otherwise
    appends its entry and returns a new id. *)
Definition adapter_save (entry : DbId -> Event) : M DbId :=
  fun w =>
    match fault w with
    | Some 0 => (Raise DatabaseException, w)
    | budget =>
        (Ok (next_id w),
         mkWorld (S (next_id w)) (option_map pred budget) (next_uuid w)
                 (store w ++ [entry (next_id w)]))
    end.

Definition save_document : M DbId := adapter_save EvSaveDocument.

Definition save_bundle (document_id : DbId) (attributes : dict AttrKey Value)
           (metadata : Metadata) : M DbId :=
  adapter_save (EvSaveBundle document_id attributes metadata).

Definition save_record (bundle_id : DbId) (attributes : dict AttrKey Value)
           (metadata : Metadata) : M DbId :=
  adapter_save (EvSaveRecord bundle_id attributes metadata).

Definition save_relation (from_bundle_id : DbId) (from_node : option Value)
           (to_bundle_id : DbId) (to_node : option Value)
           (attributes : dict AttrKey Value) (metadata : Metadata) : M DbId :=
  adapter_save
    (EvSaveRelation from_bundle_id from_node to_bundle_id to_node attributes metadata).

(** [uuid4()]: the next value of the supply. *)
Definition uuid4 : M nat :=
  fun w => (Ok (next_uuid w),
            mkWorld (next_id w) (fault w) (S (next_uuid w)) (store w)).

(** [str(uid)]: a text that determines the uuid. *)
Definition uuid_str (uid : nat) : string :=
  NilEmpty.string_of_uint (Nat.to_uint uid).

(* ===================================================================== *)
(** ** Graph materializer *)
(* ===================================================================== *)

Definition extract (r : ProvRecord) : M (Metadata * dict AttrKey Value) :=
  lift (_get_metadata_and_attributes_for_record (ObjRecord r)).

(** Lines 302-315. *)
Definition _create_unknown_node (bundle_id : DbId) : M (option QualifiedName) :=
  uid <- uuid4 ;;
  let doc := empty_manager in
  let identifier := valid_qualified_name doc ("prov:Unknown-" ++ uuid_str uid) in
  let record := mkProvRecord ClsRecord doc (option_map IdQName identifier) [] in
  ma <- extract record ;;
  save_record bundle_id (snd ma) (fst ma) ;;;
  ret identifier.

(** An endpoint of a relation: the value of the formal attribute, or the
    placeholder created for it when it is [None]. *)
Definition endpoint (bundle_id : DbId) (qualified_name : option Value)
  : M (option Value) :=
  match qualified_name with
  | None => q <- _create_unknown_node bundle_id ;; ret (option_map VQName q)
  | Some v => ret (Some v)
  end.

(** Lines 255-279.  Unpacking [formal_attributes[:2]] into two tuples needs
    two formal attributes. *)
Definition _create_relation (from_bundle_id to_bundle_id : DbId)
           (prov_relation : ProvRecord) : M DbId :=
  match firstn 2 (formal_attributes prov_relation) with
  | [from_tuple; to_tuple] =>
      from_qualified_name <- endpoint from_bundle_id (snd from_tuple) ;;
      to_qualified_name <- endpoint to_bundle_id (snd to_tuple) ;;
      ma <- extract prov_relation ;;
      save_relation from_bundle_id from_qualified_name
                    to_bundle_id to_qualified_name (snd ma) (fst ma)
  | _ => raise ValueError
  end.

(** Lines 232-253; both arguments have the checked types. *)
Definition _create_bundle (bundle_id : DbId) (prov_bundle : ProvBundle) : M unit :=
  for_each (get_records is_element prov_bundle) (fun record =>
    ma <- extract record ;;
    save_record bundle_id (snd ma) (fst ma) ;;;
    ret tt) ;;;
  for_each (get_records is_relation prov_bundle) (fun relation =>
    if is_mention relation then ret tt
    else _create_relation bundle_id bundle_id relation ;;; ret tt).

(** [ProvAssociation(bundle=prov_bundle, identifier=None,
    attributes={PROV_LABEL: "belongsToBundle"})]. *)
Definition belong_relation (prov_bundle : ProvBundle) : ProvRecord :=
  mkProvRecord (ClsRelation ProvAssociation) (bundle_namespaces prov_bundle) None
               [(KQName PROV_LABEL, VStr "belongsToBundle")].

(** Lines 281-300. *)
Definition _create_bundle_association (document_id bundle_id : DbId)
           (bundle_identifier : option QualifiedName) (prov_bundle : ProvBundle)
  : M unit :=
  belong <- extract (belong_relation prov_bundle) ;;
  let to_qualified_name := option_map VQName bundle_identifier in
  for_each (get_records is_element prov_bundle) (fun record =>
    ma <- extract record ;;
    let from_qualified_name := md_identifier (fst ma) in
    save_relation bundle_id (Some (VQName from_qualified_name))
                  document_id to_qualified_name (snd belong) (fst belong) ;;;
    ret tt).

(** Keys of [bundle_id_map] and the objects it is indexed with: [None] or a
    value, compared with [==]. *)
Definition object_eqb (a b : option Value) : bool :=
  match a, b with
  | None, None => true
  | Some x, Some y => value_eqb x y
  | _, _ => false
  end.

Definition BundleIdMap := dict (option Value) DbId.

(** [bundle_id_map[key]] *)
Definition bundle_id_map_get (bundle_id_map : BundleIdMap) (key : option Value)
  : M DbId :=
  match dict_get object_eqb bundle_id_map key with
  | Some bundle_id => ret bundle_id
  | None => raise KeyError
  end.

(** Lines 317-334. *)
Definition _create_bundle_links (prov_bundle : ProvBundle)
           (bundle_id_map : BundleIdMap) : M unit :=
  from_bundle_id <-
    bundle_id_map_get bundle_id_map
      (option_map VQName (bundle_identifier prov_bundle)) ;;
  for_each (get_records is_relation prov_bundle) (fun mention =>
    if negb (is_mention mention) then ret tt
    else
      match nth_error (formal_attributes mention) 2 with
      | None => raise IndexError
      | Some (_, to_bundle) =>
          to_bundle_id <- bundle_id_map_get bundle_id_map to_bundle ;;
          _create_relation from_bundle_id to_bundle_id mention ;;;
          ret tt
      end).

Definition PROV_API_BUNDLE_IDENTIFIER_PREFIX : string := "prov:bundle:{}".

(** [str(identifier)] as [format] computes it. *)
Definition format_identifier (identifier : option QualifiedName) : string :=
  match identifier with
  | Some q => qn_str q
  | None => "None"
  end.

(** [PROV_API_BUNDLE_IDENTIFIER_PREFIX.format(identifier)] *)
Definition format_bundle_identifier (identifier : option QualifiedName) : string :=
  "prov:bundle:" ++ format_identifier identifier.

(** [ProvBundleRecord(bundle, identifier=custom_bundle_identifier,
    attributes={"prov:bundle_name": bundle.identifier})]: the constructor
    resolves the attribute name and drops an attribute whose value is
    [None]. *)
Definition bundle_record (bundle : ProvBundle)
           (custom_bundle_identifier : option QualifiedName) : ProvRecord :=
  mkProvRecord ClsBundleRecord (bundle_namespaces bundle)
    (option_map IdQName custom_bundle_identifier)
    match bundle_identifier bundle with
    | Some name => [(KQName (prov_qn "bundle_name"), VQName name)]
    | None => []
    end.

(** Lines 146-157: what the first loop of [create_document] does for one
    bundle. *)
Definition create_one_bundle (doc_id : DbId) (bundle_id_map : BundleIdMap)
           (bundle : ProvBundle) : M BundleIdMap :=
  let custom_bundle_identifier :=
    valid_qualified_name (bundle_namespaces bundle)
      (format_bundle_identifier (bundle_identifier bundle)) in
  ma <- extract (bundle_record bundle custom_bundle_identifier) ;;
  bundle_id <- save_bundle doc_id (snd ma) (fst ma) ;;
  let bundle_id_map :=
    dict_update object_eqb bundle_id_map
                (option_map VQName (bundle_identifier bundle)) bundle_id in
  _create_bundle bundle_id bundle ;;;
  _create_bundle_association doc_id bundle_id custom_bundle_identifier bundle ;;;
  ret bundle_id_map.

(** Lines 139-162: [create_document] once the content is a document. *)
Definition materialize (prov_document : ProvDocument) : M DbId :=
  doc_id <- save_document ;;
  _create_bundle doc_id (doc_bundle prov_document) ;;;
  bundle_id_map <-
    for_each_acc (bundles prov_document) [] (create_one_bundle doc_id) ;;
  for_each (bundles prov_document) (fun bundle =>
    _create_bundle_links bundle bundle_id_map) ;;;
  ret doc_id.

(** What a caller can pass as content: a document, a text, or something
    else. *)
Inductive Content : Type :=
| ContentDocument (d : ProvDocument)
| ContentText (text : string)
| ContentOther.

Section EntryPoints.
(** The text-format collaborator (section 6): [parse(text)] gives a document
    or fails with [ParseException]. *)
Variable parse : string -> option ProvDocument.

(** Modelled from the spec: [form_string] of utils/converter.py is not among
    the sources.  A document is returned as it is (comment at line 133), a
    text is parsed, and anything else is a parse error. *)
Definition form_string (content : Content) : result ProvDocument :=
  match content with
  | ContentDocument d => Ok d
  | ContentText text =>
      match parse text with
      | Some d => Ok d
      | None => Raise ParseException
      end
  | ContentOther => Raise ParseException
  end.

(** Lines 126-162. *)
Definition create_document (content : Content) : M DbId :=
  match form_string content with
  | Raise ParseException => raise InvalidArgumentTypeException
  | Raise e => raise e
  | Ok prov_document => materialize prov_document
  end.

(** Lines 61-68, 79-86 and 97-104: the three text variants have the same
    body. *)
Definition create_document_from_text (content : Content) : M DbId :=
  prov_document <- lift (form_string content) ;;
  create_document (ContentDocument prov_document).

Definition create_document_from_json := create_document_from_text.
Definition create_document_from_xml := create_document_from_text.
Definition create_document_from_provn := create_document_from_text.

(** Lines 115-123. *)
Definition create_document_from_prov (content : Content) : M DbId :=
  match content with
  | ContentDocument _ => create_document content
  | _ => raise InvalidArgumentTypeException
  end.
End EntryPoints.

(* ===================================================================== *)
(** ** What the adapter gives back *)
(* ===================================================================== *)

(** The type map of a raw record: a dict, a JSON text, or something else. *)
Inductive RawTypeMap : Type :=
| TypeMapDict (d : dict string string)
| TypeMapStr (text : string)
| TypeMapOther.

(** A raw record or relation (section 6): its metadata, with type and
    identifier as [prefix:local] texts, and its attributes, keyed by the text
    of the attribute name. *)
Record RawRecord : Type := mkRawRecord
  { raw_prov_type : string;
    raw_identifier : string;
    raw_namespaces : dict string string;
    raw_type_map : RawTypeMap;
    raw_attributes : dict string string }.

Record RawBundle : Type := mkRawBundle
  { raw_bundle_record : RawRecord;
    raw_bundle_records : list RawRecord }.

Record RawDocument : Type := mkRawDocument
  { raw_document_records : list RawRecord;
    raw_bundles : list RawBundle }.

(** Modelled from the spec: how the adapter stores a value (section 4.2, the
    serializable value of the type codec): the text of the value, its type
    being kept in the type map. *)
Definition value_text (v : Value) : string :=
  match v with
  | VStr s => s
  | VQName q => qn_str q
  | VDateTime iso => iso
  | VLiteral text _ => text
  end.

(** Modelled from the spec: the raw form of a saved record (section 6). *)
Definition stored_record (attributes : dict AttrKey Value) (metadata : Metadata)
  : RawRecord :=
  mkRawRecord (qn_str (md_prov_type metadata)) (qn_str (md_identifier metadata))
              (md_namespaces metadata) (TypeMapDict (md_type_map metadata))
              (dict_of_items String.eqb
                 (map (fun kv => (key_str (fst kv), value_text (snd kv))) attributes)).

(** The records and relations of a container, in the order they were saved; a
    relation is listed with the container of its source. *)
Fixpoint container_records (events : list Event) (container : DbId) : list RawRecord :=
  match events with
  | [] => []
  | EvSaveRecord bundle_id attributes metadata _ :: rest =>
      if Nat.eqb bundle_id container
      then stored_record attributes metadata :: container_records rest container
      else container_records rest container
  | EvSaveRelation from_bundle_id _ _ _ attributes metadata _ :: rest =>
      if Nat.eqb from_bundle_id container
      then stored_record attributes metadata :: container_records rest container
      else container_records rest container
  | _ :: rest => container_records rest container
  end.

Fixpoint document_bundles (all events : list Event) (document_id : DbId)
  : list RawBundle :=
  match events with
  | [] => []
  | EvSaveBundle doc attributes metadata bundle_id :: rest =>
      if Nat.eqb doc document_id
      then mkRawBundle (stored_record attributes metadata)
                       (container_records all bundle_id)
           :: document_bundles all rest document_id
      else document_bundles all rest document_id
  | _ :: rest => document_bundles all rest document_id
  end.

Definition is_document (document_id : DbId) (e : Event) : bool :=
  match e with
  | EvSaveDocument d => Nat.eqb d document_id
  | _ => false
  end.

(** Modelled from the spec: [get_document] of the adapter (section 6) returns
    the records of the document and, for each of its bundles, the bundle
    record and the records of the bundle; an unknown id is a database
    error. *)
Definition get_document (document_id : DbId) : M RawDocument :=
  fun w =>
    if existsb (is_document document_id) (store w)
    then (Ok (mkRawDocument (container_records (store w) document_id)
                            (document_bundles (store w) (store w) document_id)), w)
    else (Raise DatabaseException, w).

(* ===================================================================== *)
(** ** Document reconstructor *)
(* ===================================================================== *)

Definition PROV_REC_CLS : list (QualifiedName * RecordClass) :=
  [ (PROV_ENTITY, ClsElement ProvEntity);
    (PROV_ACTIVITY, ClsElement ProvActivity);
    (PROV_GENERATION, ClsRelation ProvGeneration);
    (PROV_USAGE, ClsRelation ProvUsage);
    (PROV_COMMUNICATION, ClsRelation ProvCommunication);
    (PROV_START, ClsRelation ProvStart);
    (PROV_END, ClsRelation ProvEnd);
    (PROV_INVALIDATION, ClsRelation ProvInvalidation);
    (PROV_DERIVATION, ClsRelation ProvDerivation);
    (PROV_AGENT, ClsElement ProvAgent);
    (PROV_ATTRIBUTION, ClsRelation ProvAttribution);
    (PROV_ASSOCIATION, ClsRelation ProvAssociation);
    (PROV_DELEGATION, ClsRelation ProvDelegation);
    (PROV_INFLUENCE, ClsRelation ProvInfluence);
    (PROV_SPECIALIZATION, ClsRelation ProvSpecialization);
    (PROV_ALTERNATE, ClsRelation ProvAlternate);
    (PROV_MENTION, ClsRelation ProvMention);
    (PROV_MEMBERSHIP, ClsRelation ProvMembership) ].

(** Registering a namespace: the empty prefix is the default namespace; a
    prefix that is already known is kept. *)
Definition register (registered : list Namespace) (default : option Namespace)
           (prefix uri : string) : list Namespace * option Namespace :=
  if String.eqb prefix "" then (registered, Some (mkNamespace "" uri))
  else match find_prefix (DEFAULT_NAMESPACES ++ registered) prefix with
       | Some _ => (registered, default)
       | None => (registered ++ [mkNamespace prefix uri], default)
       end.

Definition add_namespace (nm : NamespaceManager) (prefix_uri : string * string)
  : NamespaceManager :=
  match nm with
  | NsRoot registered default =>
      let (r, d) := register registered default (fst prefix_uri) (snd prefix_uri) in
      NsRoot r d
  | NsChild registered default parent =>
      let (r, d) := register registered default (fst prefix_uri) (snd prefix_uri) in
      NsChild r d parent
  end.

(** Modelled from the spec: [add_namespaces_to_bundle] of utils/serializer.py
    is not among the sources.  Section 4.5: all namespaces of the stored
    metadata are registered in the bundle again. *)
Definition add_namespaces_to_bundle (prov_bundle : ProvBundle)
           (namespaces : dict string string) : ProvBundle :=
  mkProvBundle (bundle_identifier prov_bundle)
               (fold_left add_namespace namespaces (bundle_namespaces prov_bundle))
               (bundle_records prov_bundle).

(** Modelled from the spec: the decoder of the type codec (section 4.2).  No
    tag means a plain string; the tags of [encode_json_representation] give
    back a qualified name, a date-time or a literal with its datatype. *)
Definition decode_json_representation (bundle : NamespaceManager)
           (text : string) (tag : option string) : result Value :=
  match tag with
  | None => Ok (VStr text)
  | Some t =>
      if String.eqb t "prov:QUALIFIED_NAME" then
        match valid_qualified_name bundle text with
        | Some q => Ok (VQName q)
        | None => Raise InvalidProvRecordException
        end
      else if String.eqb t "xsd:dateTime" then Ok (VDateTime text)
      else match valid_qualified_name bundle t with
           | Some datatype => Ok (VLiteral text datatype)
           | None => Raise InvalidProvRecordException
           end
  end.

(** The value of one stored attribute: the attributes reserved by the record
    kinds are qualified names or times, the others go through the codec. *)
Definition restore_attribute (bundle : NamespaceManager)
           (type_map : dict string string) (kv : string * string)
  : result (AttrKey * Value) :=
  match valid_qualified_name bundle (fst kv) with
  | None => Raise InvalidProvRecordException
  | Some attr =>
      if qn_in attr PROV_ATTRIBUTE_QNAMES then
        match valid_qualified_name bundle (snd kv) with
        | Some q => Ok (KQName attr, VQName q)
        | None => Raise InvalidProvRecordException
        end
      else if qn_in attr PROV_ATTRIBUTE_LITERALS then
        Ok (KQName attr, VDateTime (snd kv))
      else
        result_bind
          (decode_json_representation bundle (snd kv)
             (dict_get String.eqb type_map (fst kv)))
          (fun v => Ok (KQName attr, v))
  end.

Fixpoint restore_attributes (bundle : NamespaceManager)
         (type_map : dict string string) (attributes : list (string * string))
  : result (list (AttrKey * Value)) :=
  match attributes with
  | [] => Ok []
  | kv :: rest =>
      result_bind (restore_attribute bundle type_map kv) (fun a =>
      result_bind (restore_attributes bundle type_map rest) (fun l =>
      Ok (a :: l)))
  end.

(** Modelled from the spec: [create_prov_record] of utils/serializer.py is
    not among the sources.  Section 4.5: the record is rebuilt in the bundle
    from its resolved type, its identifier (resolved per section 4.1, absent
    for an anonymous record) and its attributes, their value types restored
    from the type map.  A type that is no record type is refused. *)
Definition create_prov_record (prov_bundle : ProvBundle)
           (prov_type : option QualifiedName) (prov_id : option string)
           (attributes : dict string string) (type_map : dict string string)
  : result ProvBundle :=
  let ns := bundle_namespaces prov_bundle in
  match prov_type with
  | None => Raise InvalidArgumentTypeException
  | Some t =>
      match dict_get qn_eqb PROV_REC_CLS t with
      | None => Raise InvalidArgumentTypeException
      | Some cls =>
          result_bind
            match prov_id with
            | None => Ok None
            | Some text =>
                match valid_qualified_name ns text with
                | Some q => Ok (Some (IdQName q))
                | None => Raise InvalidProvRecordException
                end
            end (fun identifier =>
          result_bind (restore_attributes ns type_map attributes) (fun attrs =>
          Ok (mkProvBundle (bundle_identifier prov_bundle) ns
                (bundle_records prov_bundle
                 ++ [mkProvRecord cls ns identifier attrs]))))
      end
  end.

(** [a is b] and [a == b] when either side can be [None]. *)
Definition option_is (a b : option QualifiedName) : bool :=
  match a, b with
  | Some x, Some y => qn_is x y
  | None, None => true
  | _, _ => false
  end.

Definition option_eqb (a b : option QualifiedName) : bool :=
  match a, b with
  | Some x, Some y => qn_eqb x y
  | None, None => true
  | _, _ => false
  end.

(** [s[n:]] *)
Definition drop_chars (n : nat) (s : string) : string :=
  String.substring n (String.length s - n) s.

(** Records hold a reference to their bundle, so they see the namespaces the
    bundle has in the end. *)
Definition attach (b : ProvBundle) : ProvBundle :=
  mkProvBundle (bundle_identifier b) (bundle_namespaces b)
    (map (fun r => mkProvRecord (rec_class r) (bundle_namespaces b)
                                (rec_identifier r) (rec_attributes r))
         (bundle_records b)).

Section Reconstructor.
(** [json.load] on the text of a type map: the dict it holds, or nothing
    when the text is not JSON (a [ValueError]). *)
Variable json_load : string -> option (dict string string).

(** Lines 219-227. *)
Definition load_type_map (type_map : RawTypeMap) : result (dict string string) :=
  match type_map with
  | TypeMapStr text =>
      match json_load text with
      | Some d => Ok d
      | None => Raise ValueError
      end
  | TypeMapDict d => Ok d
  | TypeMapOther => Raise InvalidArgumentTypeException
  end.

(** Line 209: [prov_label is not None and prov_label == "belongsToBundle"]. *)
Definition is_membership_label (prov_label : option string) : bool :=
  match prov_label with
  | Some label => String.eqb label "belongsToBundle"
  | None => false
  end.

(** Lines 190-230: the bundle with the record added, or the bundle as it
    was when the record is skipped. *)
Definition _parse_record (prov_bundle : ProvBundle) (raw_record : RawRecord)
  : result ProvBundle :=
  let ns := bundle_namespaces prov_bundle in
  let prov_type := valid_qualified_name ns (raw_prov_type raw_record) in
  if option_is prov_type (valid_qualified_name ns "prov:Unknown")
  then Ok prov_bundle
  else
    let prov_label :=
      dict_get String.eqb (raw_attributes raw_record) (qn_str PROV_LABEL) in
    if is_membership_label prov_label then Ok prov_bundle
    else
      let prov_id := raw_identifier raw_record in
      let prov_id_qualified := valid_qualified_name ns prov_id in
      let prov_id :=
        if option_eqb prov_id_qualified prov_type then None else Some prov_id in
      result_bind (load_type_map (raw_type_map raw_record)) (fun type_map =>
      let prov_bundle :=
        add_namespaces_to_bundle prov_bundle (raw_namespaces raw_record) in
      create_prov_record prov_bundle prov_type prov_id
                         (raw_attributes raw_record) type_map).

(** [for record in records: self._parse_record(prov_bundle, record)] *)
Fixpoint parse_records (prov_bundle : ProvBundle) (records : list RawRecord)
  : result ProvBundle :=
  match records with
  | [] => Ok prov_bundle
  | record :: rest =>
      result_bind (_parse_record prov_bundle record) (fun b =>
      parse_records b rest)
  end.

(** [prov_document.bundle(identifier=identifier)] of the library: the
    identifier must resolve in the document and name no bundle yet; the new
    bundle's namespaces have the document's as parent. *)
Definition new_bundle (document : ProvBundle) (existing : list ProvBundle)
           (identifier : string) : result ProvBundle :=
  match valid_qualified_name (bundle_namespaces document) identifier with
  | None => Raise ProvException
  | Some valid_id =>
      if existsb (fun b => option_eqb (bundle_identifier b) (Some valid_id)) existing
      then Raise ProvException
      else Ok (mkProvBundle (Some valid_id)
                            (NsChild [] None (bundle_namespaces document)) [])
  end.

(** Lines 180-187. *)
Fixpoint parse_bundles (document : ProvBundle) (done : list ProvBundle)
         (raw : list RawBundle) : result (list ProvBundle) :=
  match raw with
  | [] => Ok done
  | bundle :: rest =>
      let prefixed_identifier := raw_identifier (raw_bundle_record bundle) in
      let identifier :=
        drop_chars (String.length PROV_API_BUNDLE_IDENTIFIER_PREFIX - 2)
                   prefixed_identifier in
      result_bind (new_bundle document done identifier) (fun prov_bundle =>
      result_bind (parse_records prov_bundle (raw_bundle_records bundle))
        (fun prov_bundle =>
      parse_bundles document (done ++ [attach prov_bundle]) rest))
  end.

(** Lines 175-188: the document rebuilt from what the adapter returned. *)
Definition reconstruct (raw_doc : RawDocument) : result ProvDocument :=
  let prov_document := mkProvBundle None empty_manager [] in
  result_bind (parse_records prov_document (raw_document_records raw_doc))
    (fun prov_document =>
  result_bind (parse_bundles prov_document [] (raw_bundles raw_doc))
    (fun prov_bundles =>
  Ok (mkProvDocument (attach prov_document) prov_bundles))).

(** Lines 164-188; [None] stands for an id that is not a [str]. *)
Definition get_document_as_prov (document_id : option DbId) : M ProvDocument :=
  match document_id with
  | None => raise InvalidArgumentTypeException
  | Some id =>
      raw_doc <- get_document id ;;
      lift (reconstruct raw_doc)
  end.

(** Lines 70-77, 88-95 and 106-113, with the serializer of the format. *)
Definition get_document_as_text (to_text : ProvDocument -> string)
           (document_id : option DbId) : M string :=
  prov_document <- get_document_as_prov document_id ;;
  ret (to_text prov_document).
End Reconstructor.

(* ===================================================================== *)
(** ** Properties of the engine: vocabulary *)
(* ===================================================================== *)

(** An attribute key that is not a qualified name. *)
Definition other_key (k : AttrKey) : Prop :=
  match k with KOther _ => True | KQName _ => False end.

(** Some attribute key of the list is not a qualified name. *)
Definition has_other_key (items : list (AttrKey * Value)) : Prop :=
  Exists (fun kv => other_key (fst kv)) items.

(** The identifier of the record is a text that its bundle cannot resolve. *)
Definition identifier_unresolvable (r : ProvRecord) : Prop :=
  exists s, rec_identifier r = Some (IdStr s)
            /\ valid_qualified_name (rec_bundle r) s = None.

(** No two keys of a dictionary are equal. *)
Inductive dict_ok (K V : Type) (eqb : K -> K -> bool) : list (K * V) -> Prop :=
| dict_ok_nil : dict_ok K V eqb []
| dict_ok_cons (k : K) (v : V) (d : list (K * V)) :
    (forall (k' : K) (v' : V), In (k', v') d -> eqb k k' = false) ->
    dict_ok K V eqb d -> dict_ok K V eqb ((k, v) :: d).
Arguments dict_ok {K V} eqb d.

(** The qualified names whose namespaces the loop over the attributes
    registers, in order. *)
Fixpoint names_used (bundle : NamespaceManager) (items : list (AttrKey * Value))
  : list QualifiedName :=
  match items with
  | [] => []
  | (KQName key, VQName q) :: rest => key :: q :: names_used bundle rest
  | (KQName key, VStr s) :: rest =>
      match valid_qualified_name bundle s with
      | Some q => key :: q :: names_used bundle rest
      | None => key :: names_used bundle rest
      end
  | (KQName key, _) :: rest => key :: names_used bundle rest
  | (KOther _, _) :: rest => names_used bundle rest
  end.

(** The qualified names whose namespaces extraction registers for a record:
    its type, its identifier, then those of its attributes. *)
Definition record_names (r : ProvRecord) (metadata : Metadata) : list QualifiedName :=
  md_prov_type metadata :: md_identifier metadata
  :: names_used (rec_bundle r) (dict_of_items key_eqb (rec_attributes r)).

(** The identifier and the metadata of the placeholder made from a uuid. *)
Definition placeholder_identifier (uid : nat) : QualifiedName :=
  prov_qn ("Unknown-" ++ uuid_str uid).

Definition placeholder_metadata (uid : nat) : Metadata :=
  mkMetadata PROV_UNKNOWN (placeholder_identifier uid)
             [("prov", "http://www.w3.org/ns/prov#")] [].

(** A raw record typed [prov:Unknown], as a placeholder is stored. *)
Definition is_placeholder_raw (raw : RawRecord) : bool :=
  String.eqb (raw_prov_type raw) "prov:Unknown".

(** A raw record whose [prov:label] is the membership label. *)
Definition is_membership_raw (raw : RawRecord) : bool :=
  is_membership_label (dict_get String.eqb (raw_attributes raw) "prov:label").

(** A raw document without the records that satisfy [p]. *)
Definition drop_raw (p : RawRecord -> bool) (raw_doc : RawDocument) : RawDocument :=
  mkRawDocument
    (filter (fun r => negb (p r)) (raw_document_records raw_doc))
    (map (fun b => mkRawBundle (raw_bundle_record b)
                               (filter (fun r => negb (p r)) (raw_bundle_records b)))
         (raw_bundles raw_doc)).

(** All records of a document, those of its bundles included. *)
Definition all_records (d : ProvDocument) : list ProvRecord :=
  bundle_records (doc_bundle d) ++ flat_map bundle_records (bundles d).

(** The membership edge that [_create_bundle_association] saves carries these
    attributes. *)
Definition belong_attributes : dict AttrKey Value :=
  [(KQName PROV_LABEL, VStr "belongsToBundle")].

(** No record of the bundle is a bare [ProvRecord]. *)
Definition classed (b : ProvBundle) : Prop :=
  Forall (fun r => rec_class r <> ClsRecord) (bundle_records b).

(** [new] is what has been saved since the store was [base] and the next id
    [n0]: every save appends one entry and issues one id. *)
Definition logged (base : list Event) (n0 : nat) (w : World) (new : list Event) : Prop :=
  store w = base ++ new /\ next_id w = n0 + List.length new.

(** From a state where the entries saved so far satisfy [P], the computation
    ends in a state where they satisfy [Q] (with the value returned) or, when
    it raises, [X]. *)
Definition triple {A} (base : list Event) (n0 : nat)
           (P : list Event -> Prop) (c : M A)
           (Q : A -> list Event -> Prop) (X : list Event -> Prop) : Prop :=
  forall w new r w',
    logged base n0 w new -> P new -> c w = (r, w') ->
    exists new',
      logged base n0 w' new'
      /\ match r with
         | Ok a => Q a new'
         | Raise _ => X new'
         end.

(** Kinds of entries of the store. *)
Definition element_node_in (c : DbId) (e : Event) : Prop :=
  match e with
  | EvSaveRecord b _ m _ => b = c /\ exists k, md_prov_type m = element_type k
  | _ => False
  end.

Definition edge_touching (c : DbId) (e : Event) : Prop :=
  match e with
  | EvSaveRelation fb _ tb _ _ _ _ => fb = c \/ tb = c
  | _ => False
  end.

Definition mention_edge (e : Event) : Prop :=
  match e with
  | EvSaveRelation _ _ _ _ _ m _ => md_prov_type m = PROV_MENTION
  | _ => False
  end.

Definition placeholder_node (e : Event) : Prop :=
  match e with
  | EvSaveRecord _ _ m _ => md_prov_type m = PROV_UNKNOWN
  | _ => False
  end.

Definition bundle_issued (c : DbId) (e : Event) : Prop :=
  match e with
  | EvSaveBundle _ _ _ b => b = c
  | _ => False
  end.

(** The entries each part of the materializer can save. *)
Definition placeholder_in (c : DbId) (e : Event) : Prop :=
  exists uid rid, e = EvSaveRecord c [] (placeholder_metadata uid) rid.

Definition relation_event (fb tb : DbId) (r : ProvRecord) (e : Event) : Prop :=
  exists fq tq attributes metadata rid,
    e = EvSaveRelation fb fq tb tq attributes metadata rid
    /\ _get_metadata_and_attributes_for_record (ObjRecord r) = Ok (metadata, attributes).

Definition node_event (c : DbId) (b : ProvBundle) (e : Event) : Prop :=
  exists r attributes metadata rid,
    In r (bundle_records b) /\ is_element r = true
    /\ _get_metadata_and_attributes_for_record (ObjRecord r) = Ok (metadata, attributes)
    /\ e = EvSaveRecord c attributes metadata rid.

Definition relation_phase_event (c : DbId) (b : ProvBundle) (e : Event) : Prop :=
  placeholder_in c e
  \/ exists r, In r (bundle_records b) /\ is_relation r = true /\ is_mention r = false
               /\ relation_event c c r e.

Definition membership_event (c doc : DbId) (identifier : option QualifiedName)
           (b : ProvBundle) (e : Event) : Prop :=
  exists r attributes metadata belong_metadata rid,
    In r (bundle_records b) /\ is_element r = true
    /\ _get_metadata_and_attributes_for_record (ObjRecord r) = Ok (metadata, attributes)
    /\ _get_metadata_and_attributes_for_record (ObjRecord (belong_relation b))
       = Ok (belong_metadata, belong_attributes)
    /\ e = EvSaveRelation c (Some (VQName (md_identifier metadata)))
                          doc (option_map VQName identifier)
                          belong_attributes belong_metadata rid.

Definition link_event (bundle_id_map : BundleIdMap) (b : ProvBundle) (e : Event) : Prop :=
  exists fb tb,
    In fb (dict_values bundle_id_map) /\ In tb (dict_values bundle_id_map)
    /\ (placeholder_in fb e \/ placeholder_in tb e
        \/ exists m, In m (bundle_records b) /\ is_mention m = true
                     /\ relation_event fb tb m e).

(** An invariant of the saved entries that saving an allowed entry keeps. *)
Definition stable (allowed : Event -> Prop) (I : list Event -> Prop) : Prop :=
  forall new e, I new -> allowed e -> I (new ++ [e]).

(** Ordering of the saved entries.  No element node of a container is saved
    after an edge that touches the container. *)
Definition nodes_before_edges (new : list Event) : Prop :=
  forall l1 e l2 n l3 c,
    new = l1 ++ e :: l2 ++ n :: l3 ->
    edge_touching c e -> element_node_in c n -> False.

Definition untouched (c : DbId) (new : list Event) : Prop :=
  forall e, In e new -> ~ edge_touching c e.

Definition edges_below (bound : nat) (new : list Event) : Prop :=
  forall e c, In e new -> edge_touching c e -> c < bound.

Definition no_mention (new : list Event) : Prop :=
  Forall (fun e => ~ mention_edge e) new.

(** What has been saved for a record, a bundle, a document. *)
Definition node_saved (c : DbId) (r : ProvRecord) (new : list Event) : Prop :=
  exists metadata attributes rid,
    _get_metadata_and_attributes_for_record (ObjRecord r) = Ok (metadata, attributes)
    /\ In (EvSaveRecord c attributes metadata rid) new.

Definition relation_saved (fb tb : DbId) (r : ProvRecord) (new : list Event) : Prop :=
  exists fq tq metadata attributes rid,
    _get_metadata_and_attributes_for_record (ObjRecord r) = Ok (metadata, attributes)
    /\ In (EvSaveRelation fb fq tb tq attributes metadata rid) new.

Definition bundle_saved (c : DbId) (b : ProvBundle) (new : list Event) : Prop :=
  (forall r, In r (bundle_records b) -> is_element r = true -> node_saved c r new)
  /\ (forall r, In r (bundle_records b) -> is_relation r = true -> is_mention r = false ->
                relation_saved c c r new).

Definition member_saved (c doc : DbId) (b : ProvBundle) (r : ProvRecord)
           (new : list Event) : Prop :=
  exists metadata attributes tq belong_metadata rid,
    _get_metadata_and_attributes_for_record (ObjRecord r) = Ok (metadata, attributes)
    /\ In (EvSaveRelation c (Some (VQName (md_identifier metadata))) doc tq
                          belong_attributes belong_metadata rid) new.

Definition members_saved (c doc : DbId) (b : ProvBundle) (new : list Event) : Prop :=
  forall r, In r (bundle_records b) -> is_element r = true -> member_saved c doc b r new.

(** The identifier under which a bundle is saved as a node of its document. *)
Definition custom_bundle_identifier (b : ProvBundle) : option QualifiedName :=
  valid_qualified_name (bundle_namespaces b)
                       (format_bundle_identifier (bundle_identifier b)).

(** [c] is the container that was issued for bundle [b] of document [doc]. *)
Definition container_of (doc : DbId) (b : ProvBundle) (c : DbId) (new : list Event)
  : Prop :=
  exists attributes metadata,
    _get_metadata_and_attributes_for_record
      (ObjRecord (bundle_record b (custom_bundle_identifier b)))
    = Ok (metadata, attributes)
    /\ In (EvSaveBundle doc attributes metadata c) new.

Definition bundle_done (doc : DbId) (b : ProvBundle) (c : DbId) (new : list Event)
  : Prop :=
  container_of doc b c new /\ bundle_saved c b new /\ members_saved c doc b new.

(** Pass 1 is complete: the document, its records, and every bundle with its
    records, relations other than mentions, and membership edges. *)
Definition pass1_complete (d : ProvDocument) (new : list Event) : Prop :=
  exists doc,
    In (EvSaveDocument doc) new
    /\ bundle_saved doc (doc_bundle d) new
    /\ forall b, In b (bundles d) -> exists c, bundle_done doc b c new.

(** An entry of pass 2: a mention edge or a placeholder for one of its
    endpoints. *)
Definition pass2_event (e : Event) : Prop := mention_edge e \/ placeholder_node e.

(** The key of a bundle in [bundle_id_map]. *)
Definition bundle_key (b : ProvBundle) : option Value :=
  option_map VQName (bundle_identifier b).

(** A fact about the saved entries that further saves keep. *)
Definition monotone (I : list Event -> Prop) : Prop :=
  forall new e, I new -> I (new ++ [e]).

(** The mention [m] of bundle [b] has been saved between the containers that
    [bundle_id_map] gives for [b] and for the bundle the mention names. *)
Definition mention_saved (bundle_id_map : BundleIdMap) (b : ProvBundle)
           (m : ProvRecord) (new : list Event) : Prop :=
  exists fb tb name to_bundle,
    dict_get object_eqb bundle_id_map (bundle_key b) = Some fb
    /\ nth_error (formal_attributes m) 2 = Some (name, to_bundle)
    /\ dict_get object_eqb bundle_id_map to_bundle = Some tb
    /\ relation_saved fb tb m new.

(** A computation keeps every monotone fact, whatever it saves. *)
Definition keeps {A} (base : list Event) (n0 : nat) (c : M A) : Prop :=
  forall I, monotone I -> triple base n0 I c (fun _ => I) (fun _ => True).

(** Every mention edge comes after a complete pass 1 and is followed by
    entries of pass 2 only. *)
Definition mentions_after_pass1 (d : ProvDocument) (new : list Event) : Prop :=
  forall l1 e l2,
    new = l1 ++ e :: l2 -> mention_edge e ->
    pass1_complete d l1 /\ Forall pass2_event l2.

(** Every mention edge lies between containers that [save_bundle] issued
    before it. *)
Definition mentions_scoped (new : list Event) : Prop :=
  forall l1 fb fq tb tq attributes metadata rid l2,
    new = l1 ++ EvSaveRelation fb fq tb tq attributes metadata rid :: l2 ->
    md_prov_type metadata = PROV_MENTION ->
    Exists (bundle_issued fb) l1 /\ Exists (bundle_issued tb) l1.

(** Every mention held in a bundle of the document has been saved, from the
    container of the bundle that holds it to the container of the bundle it
    names. *)
Definition mentions_saved (d : ProvDocument) (doc : DbId) (new : list Event) : Prop :=
  forall b m,
    In b (bundles d) -> In m (bundle_records b) -> is_mention m = true ->
    exists b1 b2 fb tb name to_bundle,
      nth_error (formal_attributes m) 2 = Some (name, to_bundle)
      /\ In b1 (bundles d) /\ object_eqb (bundle_key b1) (bundle_key b) = true
      /\ In b2 (bundles d) /\ object_eqb (bundle_key b2) to_bundle = true
      /\ container_of doc b1 fb new
      /\ container_of doc b2 tb new
      /\ relation_saved fb tb m new.

(** Every mention edge is the edge of a mention that a bundle of the
    document holds. *)
Definition mention_held (d : ProvDocument) (e : Event) : Prop :=
  mention_edge e ->
  exists b m fb tb,
    In b (bundles d) /\ In m (bundle_records b) /\ is_mention m = true
    /\ relation_event fb tb m e.

Definition mentions_held (d : ProvDocument) (new : list Event) : Prop :=
  Forall (mention_held d) new.

(** The invariant of pass 1. *)
Definition pass1_order (n0 : nat) (new : list Event) : Prop :=
  nodes_before_edges new
  /\ edges_below (n0 + List.length new) new
  /\ no_mention new.

(** What pass 1 has established once the bundles [done] are processed. *)
Definition pass1_frame (n0 : nat) (d : ProvDocument) (doc : DbId)
           (done : list ProvBundle) (bundle_id_map : BundleIdMap)
           (new : list Event) : Prop :=
  doc < n0 + List.length new
  /\ In (EvSaveDocument doc) new
  /\ bundle_saved doc (doc_bundle d) new
  /\ (forall b, In b done -> exists c, bundle_done doc b c new)
  /\ (forall k c, In (k, c) bundle_id_map ->
                  c < n0 + List.length new
                  /\ Exists (bundle_issued c) new
                  /\ exists b, In b done /\ object_eqb (bundle_key b) k = true
                               /\ bundle_done doc b c new).

(** An entry of pass 2 between containers of [bundle_id_map]. *)
Definition pass2_in (containers : list DbId) (e : Event) : Prop :=
  placeholder_node e
  \/ exists fb fq tb tq attributes metadata rid,
      e = EvSaveRelation fb fq tb tq attributes metadata rid
      /\ md_prov_type metadata = PROV_MENTION
      /\ In fb containers /\ In tb containers.

(** The state during pass 2: a complete pass 1 followed by entries of
    pass 2. *)
Definition pass2_state (n0 : nat) (d : ProvDocument) (doc : DbId)
           (bundle_id_map : BundleIdMap) (new : list Event) : Prop :=
  exists p1 p2,
    new = p1 ++ p2
    /\ pass1_order n0 p1
    /\ pass1_frame n0 d doc (bundles d) bundle_id_map p1
    /\ Forall (pass2_in (dict_values bundle_id_map)) p2
    /\ nodes_before_edges new
    /\ mentions_held d new.

(** The uuid behind the identifier of a saved record. *)
Definition placeholder_uid (uid : nat) (e : Event) : Prop :=
  match e with
  | EvSaveRecord _ _ m _ => md_identifier m = placeholder_identifier uid
  | _ => False
  end.

(** Every record of type [prov:Unknown] among the entries was made from a
    uuid drawn before [u], and a later one from a later uuid. *)
Definition placeholders_fresh (u : nat) (l : list Event) : Prop :=
  (forall e, In e l -> placeholder_node e ->
             exists uid, placeholder_uid uid e /\ uid < u)
  /\ (forall l1 e l2 e' l3 uid uid',
         l = l1 ++ e :: l2 ++ e' :: l3 ->
         placeholder_node e -> placeholder_node e' ->
         placeholder_uid uid e -> placeholder_uid uid' e' -> uid < uid').

Definition fresh_world (w : World) : Prop :=
  placeholders_fresh (next_uuid w) (store w).

(** A computation keeps a fact about the world, whatever its outcome. *)
Definition preserves {A} (I : World -> Prop) (c : M A) : Prop :=
  forall w r w', c w = (r, w') -> I w -> I w'.

(* ===================================================================== *)
(** ** Sample documents *)
(* ===================================================================== *)

Definition EX : Namespace := mkNamespace "ex" "http://example.org/".
Definition ex (local : string) : QualifiedName := mkQualifiedName EX local.

(** The namespaces of a document that declares [ex], and of its bundles. *)
Definition sample_document_ns : NamespaceManager := NsRoot [EX] None.
Definition sample_bundle_ns : NamespaceManager := NsChild [] None sample_document_ns.

Definition entity (ns : NamespaceManager) (local : string)
           (attributes : list (AttrKey * Value)) : ProvRecord :=
  mkProvRecord (ClsElement ProvEntity) ns (Some (IdQName (ex local))) attributes.

(** [mentionOf(specific, general, bundle)], without identifier. *)
Definition mentionOf (ns : NamespaceManager) (specific general bundle : string)
  : ProvRecord :=
  mkProvRecord (ClsRelation ProvMention) ns None
    [ (KQName PROV_ATTR_SPECIFIC_ENTITY, VQName (ex specific));
      (KQName PROV_ATTR_GENERAL_ENTITY, VQName (ex general));
      (KQName PROV_ATTR_BUNDLE, VQName (ex bundle)) ].

(** [wasGeneratedBy(entity, -)]: a generation whose activity is not given. *)
Definition generation_without_activity (ns : NamespaceManager) (e : string)
  : ProvRecord :=
  mkProvRecord (ClsRelation ProvGeneration) ns None
    [ (KQName PROV_ATTR_ENTITY, VQName (ex e)) ].

(** [wasAttributedTo(-, -)] with a string attribute. *)
Definition attribution_without_endpoints (ns : NamespaceManager) : ProvRecord :=
  mkProvRecord (ClsRelation ProvAttribution) ns None
    [ (KQName (ex "role"), VStr "ex:author") ].

(** A new adapter: nothing saved, no fault. *)
Definition empty_world : World := mkWorld 0 None 0 [].

(** A document with the entity [ex:e1] and a mention of it at top level, and
    the bundle [ex:b1] with the entity [ex:e2]. *)
Definition document_top_level_mention : ProvDocument :=
  mkProvDocument
    (mkProvBundle None sample_document_ns
       [ entity sample_document_ns "e1" [];
         mentionOf sample_document_ns "e1" "e2" "b1" ])
    [ mkProvBundle (Some (ex "b1")) sample_bundle_ns
        [ entity sample_bundle_ns "e2" [] ] ].

(** A document whose bundle [ex:b1] holds a mention that names the bundle
    [ex:b2] of the same document. *)
Definition document_bundle_mention : ProvDocument :=
  mkProvDocument
    (mkProvBundle None sample_document_ns [ entity sample_document_ns "e0" [] ])
    [ mkProvBundle (Some (ex "b1")) sample_bundle_ns
        [ entity sample_bundle_ns "e1" [];
          mentionOf sample_bundle_ns "e1" "e2" "b2" ];
      mkProvBundle (Some (ex "b2")) sample_bundle_ns
        [ entity sample_bundle_ns "e2" [] ] ].

(** The same mention when the document has no bundle [ex:b2]. *)
Definition document_missing_bundle : ProvDocument :=
  mkProvDocument
    (mkProvBundle None sample_document_ns [ entity sample_document_ns "e0" [] ])
    [ mkProvBundle (Some (ex "b1")) sample_bundle_ns
        [ entity sample_bundle_ns "e1" [];
          mentionOf sample_bundle_ns "e1" "e2" "b2" ] ].

(** A document whose only entity has an attribute, other than its label,
    with the text of the membership label. *)
Definition document_note : ProvDocument :=
  mkProvDocument
    (mkProvBundle None sample_document_ns
       [ entity sample_document_ns "e0" [ (KQName (ex "note"), VStr "belongsToBundle") ] ])
    [].

(** A document whose only entity has two values under one attribute. *)
Definition document_two_values : ProvDocument :=
  mkProvDocument
    (mkProvBundle None sample_document_ns
       [ entity sample_document_ns "e0"
           [ (KQName (ex "tag"), VStr "a"); (KQName (ex "tag"), VStr "b") ] ])
    [].

(** A text-format collaborator that parses nothing, and a JSON reader that
    reads nothing. *)
Definition parse_nothing : string -> option ProvDocument := fun _ => None.
Definition json_nothing : string -> option (dict string string) := fun _ => None.

(** A document with nothing at top level and the bundle [ex:b1] holding one
    entity. *)
Definition document_only_bundle : ProvDocument :=
  mkProvDocument
    (mkProvBundle None sample_document_ns [])
    [ mkProvBundle (Some (ex "b1")) sample_bundle_ns
        [ entity sample_bundle_ns "e1" [] ] ].

(** An entity with two values under [ex:tag], and one with a date. *)
Definition entity_two_values : ProvRecord :=
  entity sample_document_ns "e0"
         [ (KQName (ex "tag"), VStr "a"); (KQName (ex "tag"), VStr "b") ].

Definition entity_dated : ProvRecord :=
  entity sample_document_ns "e0"
         [ (KQName (ex "when"), VDateTime "2020-01-01T00:00:00");
           (KQName (ex "tag"), VStr "b") ].

Definition entity_metadata (type_map : dict string string) : Metadata :=
  mkMetadata PROV_ENTITY (ex "e0")
             [("prov", "http://www.w3.org/ns/prov#"); ("ex", "http://example.org/")]
             type_map.

(** [wasAttributedTo(-, -)] with an attribute key that is no qualified
    name. *)
Definition attribution_bad_key : ProvRecord :=
  mkProvRecord (ClsRelation ProvAttribution) sample_document_ns None
    [ (KOther "role", VStr "author") ].

(** A bundle with two entities and a relation between them. *)
Definition bundle_two_entities : ProvBundle :=
  mkProvBundle (Some (ex "b1")) sample_bundle_ns
    [ entity sample_bundle_ns "e1" [];
      mkProvRecord (ClsRelation ProvSpecialization) sample_bundle_ns None
        [ (KQName PROV_ATTR_SPECIFIC_ENTITY, VQName (ex "e1"));
          (KQName PROV_ATTR_GENERAL_ENTITY, VQName (ex "e2")) ];
      entity sample_bundle_ns "e2" [] ].

(** What the adapter returns for [document_only_bundle]. *)
Definition raw_only_bundle : RawDocument :=
  mkRawDocument []
    [ mkRawBundle
        (mkRawRecord "prov:Bundle" "prov:bundle:ex:b1"
           [("prov", "http://www.w3.org/ns/prov#"); ("ex", "http://example.org/")]
           (TypeMapDict [("prov:bundle_name", "prov:QUALIFIED_NAME")])
           [("prov:bundle_name", "ex:b1")])
        [ mkRawRecord "prov:Entity" "ex:e1"
            [("prov", "http://www.w3.org/ns/prov#"); ("ex", "http://example.org/")]
            (TypeMapDict []) [];
          mkRawRecord "prov:Association" "prov:Association"
            [("prov", "http://www.w3.org/ns/prov#")]
            (TypeMapDict []) [("prov:label", "belongsToBundle")] ] ].

(** What [_create_relation] saves for an endpoint: nothing when it is given,
    a placeholder in the container when it is absent; [node] is what the
    edge is tied to. *)
Definition endpoint_entries (c : DbId) (q node : option Value) (l : list Event) : Prop :=
  match q with
  | Some v => node = Some v /\ l = []
  | None =>
      exists uid pid,
        node = Some (VQName (placeholder_identifier uid))
        /\ l = [EvSaveRecord c [] (placeholder_metadata uid) pid]
  end.

(** What [_create_relation] saves for the relation [r]: the placeholders of
    its absent endpoints, then the edge. *)
Definition relation_block (fb tb : DbId) (r : ProvRecord) (block : list Event) : Prop :=
  exists from_tuple to_tuple before after from_node to_node attributes metadata rid,
    firstn 2 (formal_attributes r) = [from_tuple; to_tuple]
    /\ _get_metadata_and_attributes_for_record (ObjRecord r) = Ok (metadata, attributes)
    /\ endpoint_entries fb (snd from_tuple) from_node before
    /\ endpoint_entries tb (snd to_tuple) to_node after
    /\ block = before ++ after
               ++ [EvSaveRelation fb from_node tb to_node attributes metadata rid].

(** The block of the relation [r] is among the entries. *)
Definition relation_written (r : ProvRecord) (new : list Event) : Prop :=
  exists fb tb l1 block l2,
    new = l1 ++ block ++ l2 /\ relation_block fb tb r block.

(** [mentionOf(specific, -, bundle)]: a mention whose general entity is not
    given. *)
Definition mention_open (ns : NamespaceManager) (specific bundle : string)
  : ProvRecord :=
  mkProvRecord (ClsRelation ProvMention) ns None
    [ (KQName PROV_ATTR_SPECIFIC_ENTITY, VQName (ex specific));
      (KQName PROV_ATTR_BUNDLE, VQName (ex bundle)) ].

(** The document holds such a mention itself; and the same mention held in a
    bundle. *)
Definition document_top_level_open_mention : ProvDocument :=
  mkProvDocument
    (mkProvBundle None sample_document_ns
       [ entity sample_document_ns "e1" [];
         mention_open sample_document_ns "e1" "b1" ])
    [ mkProvBundle (Some (ex "b1")) sample_bundle_ns
        [ entity sample_bundle_ns "e2" [] ] ].

Definition document_bundle_open_mention : ProvDocument :=
  mkProvDocument
    (mkProvBundle None sample_document_ns [ entity sample_document_ns "e1" [] ])
    [ mkProvBundle (Some (ex "b1")) sample_bundle_ns
        [ entity sample_bundle_ns "e2" [];
          mention_open sample_bundle_ns "e1" "b1" ] ].

(* ===================================================================== *)
(** ** Further vocabulary *)
(* ===================================================================== *)

(** The value of the last pair of [items] whose key equals [k]. *)
Fixpoint last_value {K V} (eqb : K -> K -> bool) (items : list (K * V)) (k : K)
  : option V :=
  match items with
  | [] => None
  | (k', v) :: rest =>
      match last_value eqb rest k with
      | Some v' => Some v'
      | None => if eqb k' k then Some v else None
      end
  end.

(** Prefix and URI of the namespaces of a list of names. *)
Definition namespace_items (names : list QualifiedName) : list (string * string) :=
  map (fun q => (ns_prefix (qn_namespace q), ns_uri (qn_namespace q))) names.

(** The entries that the attributes contribute to the type map, in order. *)
Definition typed_items (items : list (AttrKey * Value)) : list (string * string) :=
  flat_map (fun kv =>
              if key_in_PROV_ATTRIBUTES (fst kv) then []
              else match encode_json_representation (snd kv) with
                   | Some return_type => [(key_str (fst kv), return_type)]
                   | None => []
                   end) items.

(** Extraction accepts the record. *)
Definition extractable (r : ProvRecord) : Prop :=
  exists ma, _get_metadata_and_attributes_for_record (ObjRecord r) = Ok ma.

(** The records that [create_document] extracts: the elements and the
    relations other than mentions of the document itself, the elements and
    all relations of its bundles. *)
Definition written (d : ProvDocument) (r : ProvRecord) : Prop :=
  (In r (bundle_records (doc_bundle d))
   /\ (is_element r = true \/ (is_relation r = true /\ is_mention r = false)))
  \/ (exists b, In b (bundles d) /\ In r (bundle_records b)
                /\ (is_element r = true \/ is_relation r = true)).

(** The bundle that the mention [m] names is a bundle of the document. *)
Definition names_bundle (d : ProvDocument) (m : ProvRecord) : Prop :=
  exists b, In b (bundles d)
            /\ object_eqb (bundle_key b) (first_value m PROV_ATTR_BUNDLE) = true.

(** Every mention held in a bundle names a bundle of the document. *)
Definition mentions_resolved (d : ProvDocument) : Prop :=
  forall b m, In b (bundles d) -> In m (bundle_records b) -> is_mention m = true ->
              names_bundle d m.

(** Whatever the computation does: an adapter that has not failed stays so;
    a value returned satisfies [Q]; an exception raised satisfies [S], and is
    a [DatabaseException] only when the adapter can fail. *)
Definition outcome {A} (c : M A) (Q : A -> Prop) (S : Exn -> Prop) : Prop :=
  forall w r w',
    c w = (r, w') ->
    (fault w = None -> fault w' = None)
    /\ match r with
       | Ok a => Q a
       | Raise e => S e /\ (e = DatabaseException -> fault w <> None)
       end.

(** The exceptions of a materialization, with what causes them. *)
Definition materialize_error (d : ProvDocument) (e : Exn) : Prop :=
  (e = InvalidProvRecordException /\ exists r, written d r /\ ~ extractable r)
  \/ e = DatabaseException
  \/ (e = KeyError
      /\ exists b m, In b (bundles d) /\ In m (bundle_records b)
                     /\ is_mention m = true /\ ~ names_bundle d m).

(** The containers that an entry refers to, and the container it creates. *)
Definition containers (e : Event) : list DbId :=
  match e with
  | EvSaveDocument _ => []
  | EvSaveBundle document_id _ _ _ => [document_id]
  | EvSaveRecord bundle_id _ _ _ => [bundle_id]
  | EvSaveRelation from_bundle_id _ to_bundle_id _ _ _ _ => [from_bundle_id; to_bundle_id]
  end.

Definition issues (c : DbId) (e : Event) : Prop :=
  match e with
  | EvSaveDocument document_id => document_id = c
  | EvSaveBundle _ _ _ bundle_id => bundle_id = c
  | _ => False
  end.

(** Every entry refers only to containers that earlier entries created. *)
Definition well_scoped (new : list Event) : Prop :=
  forall l1 e l2 c,
    new = l1 ++ e :: l2 -> In c (containers e) -> Exists (issues c) l1.

(** The membership edge of the element [r]. *)
Definition membership_edge (document_id bundle_id : DbId)
           (bundle_identifier : option QualifiedName) (belong_metadata : Metadata)
           (r : ProvRecord) (e : Event) : Prop :=
  exists metadata attributes rid,
    _get_metadata_and_attributes_for_record (ObjRecord r) = Ok (metadata, attributes)
    /\ e = EvSaveRelation bundle_id (Some (VQName (md_identifier metadata)))
                          document_id (option_map VQName bundle_identifier)
                          belong_attributes belong_metadata rid.

(** What the first loop of [create_document] has established once the
    bundles [done] are processed: their records are extractable, and
    [bundle_id_map] has a container for each of them and for nothing else. *)
Definition bundles_done (done : list ProvBundle) (bundle_id_map : BundleIdMap) : Prop :=
  (forall b, In b done ->
             forall r, In r (bundle_records b) ->
                       is_element r = true
                       \/ (is_relation r = true /\ is_mention r = false) ->
                       extractable r)
  /\ (forall b, In b done ->
                exists c, dict_get object_eqb bundle_id_map (bundle_key b) = Some c)
  /\ (forall k c, In (k, c) bundle_id_map ->
                  exists b, In b done /\ object_eqb (bundle_key b) k = true).

(** The entry that saves the element [r] in the container [c]. *)
Definition element_entry (c : DbId) (r : ProvRecord) (e : Event) : Prop :=
  exists metadata attributes rid,
    _get_metadata_and_attributes_for_record (ObjRecord r) = Ok (metadata, attributes)
    /\ e = EvSaveRecord c attributes metadata rid.

(** What [_create_bundle] saves for the bundle [b] in the container [c]: one
    record per element, then placeholders and relations of the container. *)
Definition bundle_entries (c : DbId) (b : ProvBundle) (l : list Event) : Prop :=
  exists nodes rest,
    l = nodes ++ rest
    /\ Forall2 (element_entry c) (get_records is_element b) nodes
    /\ Forall (relation_phase_event c b) rest.

(** What the first loop of [create_document] saves for one bundle: the
    bundle itself, what [_create_bundle] saves in its container, and one
    membership edge per element. *)
Definition bundle_block (doc : DbId) (b : ProvBundle) (block : list Event) : Prop :=
  exists c attributes metadata body belong_metadata edges,
    block = EvSaveBundle doc attributes metadata c :: body ++ edges
    /\ _get_metadata_and_attributes_for_record
         (ObjRecord (bundle_record b (custom_bundle_identifier b)))
       = Ok (metadata, attributes)
    /\ bundle_entries c b body
    /\ Forall2 (membership_edge doc c (custom_bundle_identifier b) belong_metadata)
               (get_records is_element b) edges.

(** An entry of the second loop: a placeholder, or the edge of a mention
    held in a bundle of the document. *)
Definition link_entry (d : ProvDocument) (e : Event) : Prop :=
  placeholder_node e
  \/ exists b m fb tb,
      In b (bundles d) /\ In m (bundle_records b) /\ is_mention m = true
      /\ relation_event fb tb m e.


(** What one turn of the relation loop of [_create_bundle] saves in the
    container [c]: nothing for a mention, the block of the relation
    otherwise. *)
Definition relation_step (c : DbId) (r : ProvRecord) (block : list Event) : Prop :=
  if is_mention r then block = [] else relation_block c c r block.

(** All that [_create_bundle] saves for the bundle [b] in the container [c]:
    one record per element, then one block per relation, in their order. *)
Definition container_layout (c : DbId) (b : ProvBundle) (l : list Event) : Prop :=
  exists nodes blocks,
    l = nodes ++ List.concat blocks
    /\ Forall2 (element_entry c) (get_records is_element b) nodes
    /\ Forall2 (relation_step c) (get_records is_relation b) blocks.

(** All that the first loop of [create_document] saves for the bundle [b]:
    the bundle with the id [c], what [_create_bundle] saves in [c], and one
    membership edge per element. *)
Definition bundle_layout (doc : DbId) (b : ProvBundle) (c : DbId) (block : list Event)
  : Prop :=
  exists attributes metadata body belong_metadata edges,
    block = EvSaveBundle doc attributes metadata c :: body ++ edges
    /\ _get_metadata_and_attributes_for_record
         (ObjRecord (bundle_record b (custom_bundle_identifier b)))
       = Ok (metadata, attributes)
    /\ container_layout c b body
    /\ md_prov_type belong_metadata = PROV_ASSOCIATION
    /\ Forall2 (membership_edge doc c (custom_bundle_identifier b) belong_metadata)
               (get_records is_element b) edges.

(** [bundle_id_map] after the first loop has given the bundles [bs] the ids
    [ids], starting from [map]. *)
Definition issued_map (map : BundleIdMap) (bs : list ProvBundle) (ids : list DbId)
  : BundleIdMap :=
  fold_left (fun m bc => dict_update object_eqb m (bundle_key (fst bc)) (snd bc))
            (combine bs ids) map.

(** What one turn of the loop of [_create_bundle_links] saves: nothing for a
    relation that is no mention; for a mention the block of its edge, from
    the container [fb] to the container that the map has for the bundle it
    names. *)
Definition link_step (map : BundleIdMap) (fb : DbId) (m : ProvRecord)
           (block : list Event) : Prop :=
  if is_mention m then
    exists name to_bundle tb,
      nth_error (formal_attributes m) 2 = Some (name, to_bundle)
      /\ dict_get object_eqb map to_bundle = Some tb
      /\ relation_block fb tb m block
  else block = [].

(** All that [_create_bundle_links] saves for the bundle [b]. *)
Definition links_layout (map : BundleIdMap) (b : ProvBundle) (l : list Event) : Prop :=
  exists fb blocks,
    dict_get object_eqb map (bundle_key b) = Some fb
    /\ l = List.concat blocks
    /\ Forall2 (link_step map fb) (get_records is_relation b) blocks.

(* ===================================================================== *)
(** ** Dictionaries *)
(* ===================================================================== *)

Section DictFacts.
Variables K V : Type.
Variable eqb : K -> K -> bool.
Hypothesis eqb_refl : forall k, eqb k k = true.
Hypothesis eqb_sym : forall a b, eqb a b = eqb b a.
Hypothesis eqb_trans : forall a b c, eqb a b = true -> eqb b c = true -> eqb a c = true.

Lemma dict_update_in (d : list (K * V)) k v k' v' :
  In (k', v') (dict_update eqb d k v) ->
  In (k', v') d \/ (v' = v /\ eqb k' k = true).
Proof.
  induction d as [|[k0 v0] d IH]; simpl.
  - intros [H|[]]. inversion H; subst. right. split; auto.
  - destruct (eqb k0 k) eqn:E; simpl.
    + intros [H|H]; [|auto]. inversion H; subst. right. split; auto.
    + intros [H|H]; [auto|]. destruct (IH H); auto.
Qed.

Lemma dict_update_ok (d : list (K * V)) k v :
  dict_ok eqb d -> dict_ok eqb (dict_update eqb d k v).
Proof.
  induction 1 as [|k0 v0 d Hk Hd IH]; simpl.
  - constructor; [intros ? ? []|constructor].
  - destruct (eqb k0 k) eqn:E.
    + constructor; assumption.
    + constructor; [|exact IH].
      intros k' v' Hin. destruct (dict_update_in _ _ _ _ _ Hin) as [H|[_ H]].
      * eapply Hk; eauto.
      * destruct (eqb k0 k') eqn:E'; [|reflexivity].
        rewrite (eqb_trans _ _ _ E' H) in E. discriminate.
Qed.

Lemma dict_of_items_ok (items : list (K * V)) : dict_ok eqb (dict_of_items eqb items).
Proof.
  unfold dict_of_items.
  assert (G : forall acc, dict_ok eqb acc ->
              dict_ok eqb (fold_left (fun d kv => dict_update eqb d (fst kv) (snd kv))
                                     items acc)).
  { induction items as [|[k v] items IH]; simpl; intros acc H; [exact H|].
    apply IH. apply dict_update_ok. exact H. }
  apply G. constructor.
Qed.

Lemma dict_get_in (d : list (K * V)) k v :
  dict_ok eqb d -> In (k, v) d -> dict_get eqb d k = Some v.
Proof.
  induction 1 as [|k0 v0 d Hk Hd IH]; simpl; [intros []|].
  intros [H|H].
  - inversion H; subst. rewrite eqb_refl. reflexivity.
  - rewrite (Hk _ _ H). auto.
Qed.


Lemma dict_get_update_other (d : list (K * V)) k v k' :
  eqb k k' = false -> dict_get eqb (dict_update eqb d k v) k' = dict_get eqb d k'.
Proof.
  intros N. induction d as [|[k0 v0] d IH]; simpl.
  - rewrite N. reflexivity.
  - destruct (eqb k0 k) eqn:E; simpl.
    + destruct (eqb k0 k') eqn:E'; [|reflexivity].
      rewrite eqb_sym in E. rewrite (eqb_trans _ _ _ E E') in N. discriminate.
    + destruct (eqb k0 k'); auto.
Qed.
End DictFacts.

Lemma key_eqb_refl k : key_eqb k k = true.
Proof. destruct k; simpl; [unfold qn_eqb|]; apply String.eqb_refl. Qed.

Lemma key_eqb_sym a b : key_eqb a b = key_eqb b a.
Proof. destruct a, b; simpl; auto; [unfold qn_eqb|]; apply String.eqb_sym. Qed.

Lemma key_eqb_trans a b c :
  key_eqb a b = true -> key_eqb b c = true -> key_eqb a c = true.
Proof.
  destruct a, b, c; simpl; try discriminate; unfold qn_eqb;
    rewrite !String.eqb_eq; congruence.
Qed.

Lemma string_eqb_trans (a b c : string) :
  String.eqb a b = true -> String.eqb b c = true -> String.eqb a c = true.
Proof. rewrite !String.eqb_eq. congruence. Qed.

(* ===================================================================== *)
(** ** The resolver and the extractor *)
(* ===================================================================== *)

(** Every manager resolves a name of the prov namespace. *)
Lemma valid_prov nm l : valid_qualified_name nm ("prov:" ++ l) = Some (prov_qn l).
Proof. destruct nm; reflexivity. Qed.

Lemma valid_prov_unknown nm :
  valid_qualified_name nm "prov:Unknown" = Some PROV_UNKNOWN.
Proof. exact (valid_prov nm "Unknown"). Qed.

Lemma record_type_some r : exists t, record_type r = Some t.
Proof.
  unfold record_type. destruct (get_type r); eauto.
  exists PROV_UNKNOWN. apply (valid_prov (rec_bundle r) "Unknown").
Qed.

Lemma dict_update_other d k v :
  has_other_key (dict_update key_eqb d k v) <-> has_other_key d \/ other_key k.
Proof.
  unfold has_other_key. induction d as [|[k' v'] d IH]; simpl.
  - rewrite Exists_cons, Exists_nil. simpl. tauto.
  - destruct (key_eqb k' k) eqn:E.
    + rewrite !Exists_cons. simpl.
      assert (other_key k -> other_key k').
      { destruct k', k; simpl in *; try discriminate; auto. }
      tauto.
    + rewrite !Exists_cons, IH. simpl. tauto.
Qed.

Lemma dict_of_items_other items :
  has_other_key (dict_of_items key_eqb items) <-> has_other_key items.
Proof.
  unfold dict_of_items.
  assert (G : forall acc,
             has_other_key (fold_left (fun d kv => dict_update key_eqb d (fst kv) (snd kv))
                                      items acc)
             <-> has_other_key acc \/ has_other_key items).
  { induction items as [|[k v] items IH]; intros acc; simpl.
    - unfold has_other_key at 3. rewrite Exists_nil. tauto.
    - rewrite IH, dict_update_other. unfold has_other_key at 4.
      rewrite Exists_cons. simpl. tauto. }
  rewrite G. unfold has_other_key at 1. rewrite Exists_nil. tauto.
Qed.

Lemma attribute_namespaces_ok bundle items used :
  ~ has_other_key items ->
  exists used', attribute_namespaces bundle items used = Ok used'.
Proof.
  revert used. induction items as [|[k v] items IH]; intros used H; simpl.
  - eauto.
  - destruct k as [q|s].
    + apply IH. intros C. apply H. apply Exists_cons_tl. exact C.
    + exfalso. apply H. apply Exists_cons_hd. exact I.
Qed.

Lemma attribute_namespaces_raise bundle items used :
  has_other_key items ->
  attribute_namespaces bundle items used = Raise InvalidProvRecordException.
Proof.
  revert used. induction items as [|[k v] items IH]; intros used H; simpl.
  - inversion H.
  - destruct k as [q|s]; [|reflexivity].
    apply IH. inversion H; subst; [contradiction|assumption].
Qed.

Lemma has_other_key_dec items : {has_other_key items} + {~ has_other_key items}.
Proof.
  apply Exists_dec. intros [k v]. destruct k; simpl; [right; tauto | left; exact I].
Qed.

Lemma record_identifier_raise r e :
  record_identifier r = Raise e ->
  e = InvalidProvRecordException /\ identifier_unresolvable r.
Proof.
  unfold record_identifier, identifier_unresolvable.
  destruct (rec_identifier r) as [[q|s]|] eqn:E.
  - discriminate.
  - destruct (valid_qualified_name (rec_bundle r) s) eqn:V; [discriminate|].
    intros H; inversion H. split; eauto.
  - destruct (record_type_some r) as [t ->]. discriminate.
Qed.

Lemma record_identifier_unresolvable r :
  identifier_unresolvable r -> record_identifier r = Raise InvalidProvRecordException.
Proof.
  intros [s [E V]]. unfold record_identifier. rewrite E, V. reflexivity.
Qed.

(** The two outcomes of extraction on a record. *)
Lemma extract_cases r :
  ((identifier_unresolvable r \/ has_other_key (rec_attributes r))
   /\ _get_metadata_and_attributes_for_record (ObjRecord r)
      = Raise InvalidProvRecordException)
  \/ (~ (identifier_unresolvable r \/ has_other_key (rec_attributes r))
      /\ exists ma, _get_metadata_and_attributes_for_record (ObjRecord r) = Ok ma).
Proof.
  unfold _get_metadata_and_attributes_for_record.
  destruct (record_identifier r) as [q|e] eqn:I; simpl.
  - destruct (record_type_some r) as [t ->].
    destruct (has_other_key_dec (rec_attributes r)) as [B|B].
    + left. split; [auto|].
      rewrite attribute_namespaces_raise by (apply dict_of_items_other; exact B).
      reflexivity.
    + right. split.
      * intros [U|U]; [|contradiction].
        rewrite (record_identifier_unresolvable r U) in I. discriminate.
      * destruct (attribute_namespaces_ok (rec_bundle r)
                    (dict_of_items key_eqb (rec_attributes r))
                    (use_namespace (use_namespace [] t) q)) as [u ->].
        { rewrite dict_of_items_other. exact B. }
        simpl. eauto.
  - destruct (record_identifier_raise _ _ I) as [-> U]. left. split; auto.
Qed.

Lemma attribute_namespaces_fold bundle items used used' :
  attribute_namespaces bundle items used = Ok used' ->
  used' = fold_left use_namespace (names_used bundle items) used.
Proof.
  revert used. induction items as [|[k v] items IH]; simpl; intros used H.
  - congruence.
  - destruct k as [key|s]; [|discriminate].
    destruct v as [s|q|t|t dt]; simpl in *;
      try (apply IH in H; exact H).
    destruct (valid_qualified_name bundle s); apply IH in H; exact H.
Qed.

(** What a successful extraction returns. *)
Lemma extract_inv r metadata attributes :
  _get_metadata_and_attributes_for_record (ObjRecord r) = Ok (metadata, attributes) ->
  record_type r = Some (md_prov_type metadata)
  /\ record_identifier r = Ok (md_identifier metadata)
  /\ attributes = dict_of_items key_eqb (rec_attributes r)
  /\ md_namespaces metadata = fold_left use_namespace (record_names r metadata) []
  /\ md_type_map metadata = attribute_types attributes [].
Proof.
  unfold _get_metadata_and_attributes_for_record.
  destruct (record_identifier r) as [q|e]; simpl; [|discriminate].
  destruct (record_type r) as [t|]; [|discriminate].
  destruct (attribute_namespaces _ _ _) as [u|e] eqn:A; simpl; [|discriminate].
  intros H. inversion H; subst; clear H. simpl.
  repeat split; auto.
  apply attribute_namespaces_fold in A. exact A.
Qed.







(** C6.  Metadata extraction raises [InvalidArgumentTypeException] exactly
    when its argument is not a record; on a record it raises
    [InvalidProvRecordException] exactly when the identifier is a text that
    cannot be resolved or some attribute key is not a qualified name, and
    returns otherwise; the identifier not:a:resolvable:value, in a document
    without a matching namespace, raises [InvalidProvRecordException]. *)
Theorem extract_errors :
  (forall x, _get_metadata_and_attributes_for_record x = Raise InvalidArgumentTypeException
             <-> (forall r, x <> ObjRecord r))
  /\ (forall r, _get_metadata_and_attributes_for_record (ObjRecord r)
                = Raise InvalidProvRecordException
                <-> identifier_unresolvable r \/ has_other_key (rec_attributes r))
  /\ (forall r, ~ (identifier_unresolvable r \/ has_other_key (rec_attributes r)) ->
                exists ma, _get_metadata_and_attributes_for_record (ObjRecord r) = Ok ma)
  /\ (forall cls attributes,
        _get_metadata_and_attributes_for_record
          (ObjRecord (mkProvRecord cls empty_manager
                                   (Some (IdStr "not:a:resolvable:value")) attributes))
        = Raise InvalidProvRecordException).
Proof.
  assert (R : forall r, _get_metadata_and_attributes_for_record (ObjRecord r)
                        = Raise InvalidProvRecordException
                        <-> identifier_unresolvable r \/ has_other_key (rec_attributes r)).
  { intros r. destruct (extract_cases r) as [[C E]|[C [ma E]]]; rewrite E.
    - tauto.
    - split; [discriminate|tauto]. }
  split; [|split; [exact R|split]].
  - intros x. destruct x as [r| |v].
    + split.
      * intros H. exfalso.
        destruct (extract_cases r) as [[_ E]|[_ [ma E]]]; rewrite E in H; discriminate H.
      * intros H. exfalso. apply (H r). reflexivity.
    + simpl. split; [discriminate|reflexivity].
    + simpl. split; [discriminate|reflexivity].
  - intros r H. destruct (extract_cases r) as [[C _]|[_ E]]; [contradiction|exact E].
  - intros cls attributes. apply R. left.
    exists "not:a:resolvable:value". split; reflexivity.
Qed.


(* ===================================================================== *)
(** ** Running the effects *)
(* ===================================================================== *)

Lemma bind_ok {A B} (c : M A) (k : A -> M B) w b w' :
  bind c k w = (Ok b, w') ->
  exists a w1, c w = (Ok a, w1) /\ k a w1 = (Ok b, w').
Proof.
  unfold bind. destruct (c w) as [[a|e] w1]; [eauto|discriminate].
Qed.

Lemma bind_run {A B} (c : M A) (k : A -> M B) w r w' :
  bind c k w = (r, w') ->
  (exists a w1, c w = (Ok a, w1) /\ k a w1 = (r, w'))
  \/ (exists e, c w = (Raise e, w') /\ r = Raise e).
Proof.
  unfold bind. destruct (c w) as [[a|e] w1]; intros H.
  - left. eauto.
  - right. inversion H; subst. eauto.
Qed.

Lemma adapter_save_ok entry w id w' :
  adapter_save entry w = (Ok id, w') ->
  id = next_id w
  /\ store w' = store w ++ [entry id]
  /\ next_id w' = S (next_id w)
  /\ next_uuid w' = next_uuid w.
Proof.
  unfold adapter_save. destruct (fault w) as [[|n]|]; intros H; inversion H; subst;
    simpl; auto.
Qed.

Lemma adapter_save_raise entry w e w' :
  adapter_save entry w = (Raise e, w') -> e = DatabaseException /\ w' = w.
Proof.
  unfold adapter_save. destruct (fault w) as [[|n]|]; intros H; inversion H; auto.
Qed.

Lemma extract_ok r ma w w' :
  extract r w = (Ok ma, w') ->
  w' = w /\ _get_metadata_and_attributes_for_record (ObjRecord r) = Ok ma.
Proof. unfold extract, lift. intros H. inversion H. auto. Qed.

Lemma uuid_str_inj m n : uuid_str m = uuid_str n -> m = n.
Proof.
  unfold uuid_str. intros H.
  apply Unsigned.to_uint_inj.
  assert (E : NilEmpty.uint_of_string (NilEmpty.string_of_uint (Nat.to_uint m))
              = NilEmpty.uint_of_string (NilEmpty.string_of_uint (Nat.to_uint n)))
    by (rewrite H; reflexivity).
  rewrite !NilEmpty.usu in E. congruence.
Qed.

Lemma placeholder_identifier_inj m n :
  placeholder_identifier m = placeholder_identifier n -> m = n.
Proof.
  unfold placeholder_identifier, prov_qn. intros H.
  apply uuid_str_inj. inversion H. reflexivity.
Qed.

Lemma append_inj_l (a x y : string) : (a ++ x = a ++ y)%string -> x = y.
Proof.
  induction a as [|c a IH]; simpl; intros H; [exact H|].
  inversion H. auto.
Qed.

Lemma placeholder_identifier_eqb m n :
  qn_eqb (placeholder_identifier m) (placeholder_identifier n) = true -> m = n.
Proof.
  unfold qn_eqb. intros H. apply String.eqb_eq in H.
  apply uuid_str_inj. unfold qn_uri, placeholder_identifier, prov_qn in H.
  cbn [qn_namespace qn_localpart] in H.
  apply append_inj_l in H. apply append_inj_l in H. exact H.
Qed.

(** What one call of the placeholder synthesizer does. *)
Lemma create_unknown_node_run bundle_id w :
  _create_unknown_node bundle_id w =
  match fault w with
  | Some 0 =>
      (Raise DatabaseException,
       mkWorld (next_id w) (fault w) (S (next_uuid w)) (store w))
  | budget =>
      (Ok (Some (placeholder_identifier (next_uuid w))),
       mkWorld (S (next_id w)) (option_map pred budget) (S (next_uuid w))
               (store w ++ [EvSaveRecord bundle_id [] (placeholder_metadata (next_uuid w))
                                         (next_id w)]))
  end.
Proof.
  unfold _create_unknown_node, bind, uuid4, extract, lift, save_record, adapter_save, ret.
  destruct w as [i f u s]. simpl.
  destruct f as [[|n]|]; reflexivity.
Qed.

Lemma endpoint_ok bundle_id q w v w' :
  endpoint bundle_id q w = (Ok v, w') ->
  (exists x, q = Some x /\ v = q /\ w' = w)
  \/ (q = None
      /\ v = Some (VQName (placeholder_identifier (next_uuid w)))
      /\ store w' = store w ++ [EvSaveRecord bundle_id [] (placeholder_metadata (next_uuid w))
                                             (next_id w)]
      /\ next_id w' = S (next_id w)
      /\ next_uuid w' = S (next_uuid w)).
Proof.
  destruct q as [x|]; simpl.
  - unfold ret. intros H. inversion H. left. eauto.
  - unfold bind. rewrite create_unknown_node_run.
    destruct (fault w) as [[|n]|]; unfold ret; intros H; inversion H; subst; simpl;
      right; auto.
Qed.

(** A successful [_create_relation]: the endpoints are settled in turn, then
    the relation is saved. *)
Lemma create_relation_ok from_bundle_id to_bundle_id r from_tuple to_tuple w rid w' :
  firstn 2 (formal_attributes r) = [from_tuple; to_tuple] ->
  _create_relation from_bundle_id to_bundle_id r w = (Ok rid, w') ->
  exists w1 w2 from_node to_node metadata attributes,
    endpoint from_bundle_id (snd from_tuple) w = (Ok from_node, w1)
    /\ endpoint to_bundle_id (snd to_tuple) w1 = (Ok to_node, w2)
    /\ _get_metadata_and_attributes_for_record (ObjRecord r) = Ok (metadata, attributes)
    /\ rid = next_id w2
    /\ store w' = store w2 ++ [EvSaveRelation from_bundle_id from_node to_bundle_id to_node
                                              attributes metadata rid]
    /\ next_id w' = S (next_id w2)
    /\ next_uuid w' = next_uuid w2.
Proof.
  intros F. unfold _create_relation. rewrite F. intros H.
  apply bind_ok in H. destruct H as (fq & w1 & E1 & H).
  apply bind_ok in H. destruct H as (tq & w2 & E2 & H).
  apply bind_ok in H. destruct H as ([metadata attributes] & w3 & E3 & H).
  apply extract_ok in E3. destruct E3 as [-> E3].
  apply adapter_save_ok in H. simpl in H. destruct H as (-> & S1 & S2 & S3).
  exists w1, w2, fq, tq, metadata, attributes. auto 10.
Qed.

(** With an adapter that does not fail, the endpoints are settled and a
    relation that extraction accepts is saved. *)
Lemma endpoint_succeeds bundle_id q w :
  fault w = None ->
  exists v w', endpoint bundle_id q w = (Ok v, w') /\ fault w' = None.
Proof.
  intros F. destruct q as [x|]; simpl.
  - unfold ret. eauto.
  - unfold bind. rewrite create_unknown_node_run, F. simpl. unfold ret. eauto.
Qed.

Lemma create_relation_succeeds from_bundle_id to_bundle_id r from_tuple to_tuple
      metadata attributes w :
  firstn 2 (formal_attributes r) = [from_tuple; to_tuple] ->
  _get_metadata_and_attributes_for_record (ObjRecord r) = Ok (metadata, attributes) ->
  fault w = None ->
  exists rid w', _create_relation from_bundle_id to_bundle_id r w = (Ok rid, w').
Proof.
  intros F E N. unfold _create_relation. rewrite F. unfold bind.
  destruct (endpoint_succeeds from_bundle_id (snd from_tuple) w N) as (fq & w1 & -> & N1).
  destruct (endpoint_succeeds to_bundle_id (snd to_tuple) w1 N1) as (tq & w2 & -> & N2).
  unfold extract, lift. rewrite E. simpl.
  unfold save_relation, adapter_save. rewrite N2. eauto.
Qed.

(* ===================================================================== *)
(** ** The reconstructor *)
(* ===================================================================== *)

Lemma dict_get_some_in {K V} (eqb : K -> K -> bool) (d : list (K * V)) k v :
  dict_get eqb d k = Some v -> exists k', In (k', v) d /\ eqb k' k = true.
Proof.
  induction d as [|[k0 v0] d IH]; simpl; [discriminate|].
  destruct (eqb k0 k) eqn:E.
  - intros H. inversion H; subst. eauto.
  - intros H. destruct (IH H) as [k' [I' E']]. eauto.
Qed.

(** The classes the library builds records of. *)
Lemma PROV_REC_CLS_class t cls :
  dict_get qn_eqb PROV_REC_CLS t = Some cls ->
  (exists k, cls = ClsElement k) \/ (exists k, cls = ClsRelation k).
Proof.
  intros H. apply dict_get_some_in in H. destruct H as [k' [H _]].
  unfold PROV_REC_CLS in H. simpl in H.
  repeat (destruct H as [H|H]; [inversion H; eauto|]). contradiction.
Qed.

Lemma PROV_REC_CLS_relation k :
  dict_get qn_eqb PROV_REC_CLS (relation_type k) = Some (ClsRelation k).
Proof. destruct k; reflexivity. Qed.

Lemma PROV_REC_CLS_element k :
  dict_get qn_eqb PROV_REC_CLS (element_type k) = Some (ClsElement k).
Proof. destruct k; reflexivity. Qed.

Lemma record_type_unknown r :
  record_type r = Some PROV_UNKNOWN -> rec_class r = ClsRecord.
Proof.
  unfold record_type, get_type.
  destruct (rec_class r) as [k|k| |]; [destruct k|destruct k| |]; try discriminate; auto.
Qed.

(** What [create_prov_record] adds to the bundle. *)
Lemma create_prov_record_ok b prov_type prov_id attributes type_map b' :
  create_prov_record b prov_type prov_id attributes type_map = Ok b' ->
  exists t r,
    prov_type = Some t
    /\ dict_get qn_eqb PROV_REC_CLS t = Some (rec_class r)
    /\ bundle_records b' = bundle_records b ++ [r]
    /\ bundle_identifier b' = bundle_identifier b
    /\ bundle_namespaces b' = bundle_namespaces b
    /\ (prov_id = None -> rec_identifier r = None)
    /\ (forall text, prov_id = Some text ->
          exists q, valid_qualified_name (bundle_namespaces b) text = Some q
                    /\ rec_identifier r = Some (IdQName q)).
Proof.
  unfold create_prov_record.
  destruct prov_type as [t|]; [|discriminate].
  destruct (dict_get qn_eqb PROV_REC_CLS t) as [cls|] eqn:C; [|discriminate].
  destruct prov_id as [text|].
  - destruct (valid_qualified_name (bundle_namespaces b) text) as [q|] eqn:V;
      simpl; [|discriminate].
    destruct (restore_attributes _ _ _) as [attrs|e]; simpl; [|discriminate].
    intros H. inversion H; subst; clear H. simpl.
    exists t. eexists. repeat split; simpl; eauto.
    + discriminate.
    + intros text' E. inversion E; subst. eauto.
  - simpl. destruct (restore_attributes _ _ _) as [attrs|e]; simpl; [|discriminate].
    intros H. inversion H; subst; clear H. simpl.
    exists t. eexists. repeat split; simpl; eauto.
    intros text' E. discriminate.
Qed.

Section ReconstructorFacts.
Variable json_load : string -> option (dict string string).

Lemma parse_record_placeholder b raw :
  is_placeholder_raw raw = true -> _parse_record json_load b raw = Ok b.
Proof.
  unfold is_placeholder_raw, _parse_record. intros H.
  apply String.eqb_eq in H. rewrite H.
  rewrite (valid_prov_unknown (bundle_namespaces b)). reflexivity.
Qed.

Lemma parse_record_membership b raw :
  is_membership_raw raw = true -> _parse_record json_load b raw = Ok b.
Proof.
  unfold is_membership_raw, _parse_record. intros H.
  destruct (option_is _ _); [reflexivity|].
  change (qn_str PROV_LABEL) with "prov:label". rewrite H. reflexivity.
Qed.

(** A record is skipped on its type or on its label; otherwise it adds one
    record of the class of its type, without identifier when the stored
    identifier equals the type. *)
Lemma parse_record_ok b raw b' :
  _parse_record json_load b raw = Ok b' ->
  ((option_is (valid_qualified_name (bundle_namespaces b) (raw_prov_type raw))
              (valid_qualified_name (bundle_namespaces b) "prov:Unknown") = true
    \/ is_membership_raw raw = true)
   /\ b' = b)
  \/ (option_is (valid_qualified_name (bundle_namespaces b) (raw_prov_type raw))
                (valid_qualified_name (bundle_namespaces b) "prov:Unknown") = false
      /\ is_membership_raw raw = false
      /\ exists t r,
          valid_qualified_name (bundle_namespaces b) (raw_prov_type raw) = Some t
          /\ dict_get qn_eqb PROV_REC_CLS t = Some (rec_class r)
          /\ bundle_records b' = bundle_records b ++ [r]
          /\ bundle_identifier b' = bundle_identifier b
          /\ (option_eqb (valid_qualified_name (bundle_namespaces b)
                                               (raw_identifier raw))
                         (Some t) = true ->
              rec_identifier r = None)).
Proof.
  unfold _parse_record, is_membership_raw.
  change (qn_str PROV_LABEL) with "prov:label".
  destruct (option_is _ _); [intros H; inversion H; auto|].
  destruct (is_membership_label _); [intros H; inversion H; auto|].
  destruct (load_type_map json_load (raw_type_map raw)) as [tm|e]; simpl; [|discriminate].
  intros H. right. split; [reflexivity|]. split; [reflexivity|].
  apply create_prov_record_ok in H.
  destruct H as (t & r & T & C & R & I & N & A & _).
  exists t, r. simpl in *. repeat split; auto.
  intros E. apply A. rewrite T, E. reflexivity.
Qed.

Section Drop.
Variable p : RawRecord -> bool.
Hypothesis skipped : forall b raw, p raw = true -> _parse_record json_load b raw = Ok b.

Lemma parse_records_drop records b :
  parse_records json_load b records
  = parse_records json_load b (filter (fun r => negb (p r)) records).
Proof.
  revert b. induction records as [|raw records IH]; intros b; simpl; [reflexivity|].
  destruct (p raw) eqn:E; simpl.
  - rewrite (skipped b raw E). simpl. apply IH.
  - destruct (_parse_record json_load b raw); simpl; auto.
Qed.

Lemma parse_bundles_drop document raw done :
  parse_bundles json_load document done raw
  = parse_bundles json_load document done
      (map (fun b => mkRawBundle (raw_bundle_record b)
                                 (filter (fun r => negb (p r)) (raw_bundle_records b)))
           raw).
Proof.
  revert done. induction raw as [|rb raw IH]; intros done; simpl; [reflexivity|].
  destruct (new_bundle _ _ _) as [nb|e]; simpl; [|reflexivity].
  rewrite <- parse_records_drop.
  destruct (parse_records json_load nb (raw_bundle_records rb)); simpl; auto.
Qed.

Lemma reconstruct_drop raw_doc :
  reconstruct json_load raw_doc = reconstruct json_load (drop_raw p raw_doc).
Proof.
  unfold reconstruct, drop_raw. simpl.
  rewrite <- parse_records_drop.
  destruct (parse_records json_load _ (raw_document_records raw_doc)); simpl; auto.
  rewrite <- parse_bundles_drop. reflexivity.
Qed.
End Drop.

Lemma parse_record_classed b raw b' :
  classed b -> _parse_record json_load b raw = Ok b' -> classed b'.
Proof.
  intros C H. apply parse_record_ok in H.
  destruct H as [[_ ->]|(_ & _ & t & r & _ & K & R & _)]; [exact C|].
  unfold classed. rewrite R. apply Forall_app. split; [exact C|].
  constructor; [|constructor].
  destruct (PROV_REC_CLS_class _ _ K) as [[k E]|[k E]]; rewrite E; discriminate.
Qed.

Lemma parse_records_classed records b b' :
  classed b -> parse_records json_load b records = Ok b' -> classed b'.
Proof.
  revert b. induction records as [|raw records IH]; intros b C; simpl.
  - intros H. inversion H; subst. exact C.
  - destruct (_parse_record json_load b raw) as [b1|e] eqn:E; simpl; [|discriminate].
    apply IH. eapply parse_record_classed; eauto.
Qed.

Lemma attach_classed b : classed b -> classed (attach b).
Proof.
  unfold classed, attach. simpl. intros C.
  apply Forall_map. simpl. exact C.
Qed.

Lemma parse_bundles_classed document raw done result :
  Forall classed done ->
  parse_bundles json_load document done raw = Ok result ->
  Forall classed result.
Proof.
  revert done. induction raw as [|rb raw IH]; intros done D; simpl.
  - intros H. inversion H; subst. exact D.
  - unfold new_bundle.
    destruct (valid_qualified_name _ _) as [valid_id|]; simpl; [|discriminate].
    destruct (existsb _ done); simpl; [discriminate|].
    destruct (parse_records json_load _ (raw_bundle_records rb)) as [nb|e] eqn:E;
      simpl; [|discriminate].
    apply IH. apply Forall_app. split; [exact D|].
    constructor; [|constructor].
    apply attach_classed. eapply parse_records_classed; [|exact E].
    constructor.
Qed.

Lemma reconstruct_classed raw_doc doc r :
  reconstruct json_load raw_doc = Ok doc ->
  In r (all_records doc) -> rec_class r <> ClsRecord.
Proof.
  unfold reconstruct.
  destruct (parse_records json_load _ (raw_document_records raw_doc)) as [root|e] eqn:R;
    simpl; [|discriminate].
  destruct (parse_bundles json_load root [] (raw_bundles raw_doc)) as [bs|e] eqn:B;
    simpl; [|discriminate].
  intros H. inversion H; subst; clear H. unfold all_records. simpl.
  assert (CR : classed (attach root)).
  { apply attach_classed. eapply parse_records_classed; [|exact R]. constructor. }
  assert (CB : Forall classed bs).
  { eapply parse_bundles_classed; [|exact B]. constructor. }
  rewrite in_app_iff, in_flat_map. intros [I|[b [Ib I]]].
  - unfold classed in CR. rewrite Forall_forall in CR. apply CR. exact I.
  - rewrite Forall_forall in CB. specialize (CB b Ib).
    unfold classed in CB. rewrite Forall_forall in CB. apply CB. exact I.
Qed.
End ReconstructorFacts.
(* ===================================================================== *)
(** ** Placeholders are never shared *)
(* ===================================================================== *)

Lemma snoc_split {A} (l1 : list A) x l2 new e :
  new ++ [e] = l1 ++ x :: l2 ->
  (l2 = [] /\ x = e /\ l1 = new)
  \/ (exists l2', l2 = l2' ++ [e] /\ new = l1 ++ x :: l2').
Proof.
  intros H. induction l2 as [|a l2' _] using rev_ind.
  - left. apply app_inj_tail in H. destruct H; auto.
  - right. exists l2'.
    assert (H' : new ++ [e] = (l1 ++ x :: l2') ++ [a]).
    { rewrite H, <- app_assoc. reflexivity. }
    apply app_inj_tail in H'. destruct H' as [-> ->]. auto.
Qed.

Lemma element_not_unknown k : element_type k <> PROV_UNKNOWN.
Proof. destruct k; discriminate. Qed.

Lemma placeholder_uid_inj uid uid' e :
  placeholder_uid uid e -> placeholder_uid uid' e -> uid = uid'.
Proof.
  destruct e; simpl; try contradiction.
  intros H H'. apply placeholder_identifier_inj. congruence.
Qed.

Lemma placeholders_fresh_mono u u' l :
  placeholders_fresh u l -> u <= u' -> placeholders_fresh u' l.
Proof.
  intros [B Sd] Le. split; [|exact Sd].
  intros e I P. destruct (B e I P) as (uid & U & Lt). exists uid. split; [exact U|lia].
Qed.

Lemma placeholders_fresh_snoc u u' l e :
  placeholders_fresh u l -> u <= u' ->
  (placeholder_node e -> exists uid, placeholder_uid uid e /\ u <= uid < u') ->
  placeholders_fresh u' (l ++ [e]).
Proof.
  intros [B Sd] Le N. split.
  - intros x I P. apply in_app_iff in I. destruct I as [I|[<-|[]]].
    + destruct (B x I P) as (uid & U & Lt). exists uid. split; [exact U|lia].
    + destruct (N P) as (uid & U & Lt). exists uid. split; [exact U|lia].
  - intros l1 x l2 y l3 uid uid' E Px Py Ux Uy.
    apply snoc_split in E. destruct E as [(E1 & _ & _)|(l' & E1 & E2)].
    + destruct l2; discriminate.
    + change (l2 ++ y :: l3 = l' ++ [e]) in E1. symmetry in E1.
      apply snoc_split in E1. destruct E1 as [(-> & -> & ->)|(l3' & -> & ->)].
      * destruct (N Py) as (uid0 & U0 & Lt).
        rewrite (placeholder_uid_inj _ _ _ Uy U0).
        destruct (B x) as (uid1 & U1 & Lt1); [rewrite E2; apply in_elt|exact Px|].
        rewrite (placeholder_uid_inj _ _ _ Ux U1). lia.
      * apply (Sd l1 x l2 y l3'); auto.
Qed.

Lemma preserves_ret {A} (I : World -> Prop) (a : A) : preserves I (ret a).
Proof. intros w r w' H. inversion H; subst. auto. Qed.

Lemma preserves_raise {A} (I : World -> Prop) e : preserves I (@raise A e).
Proof. intros w r w' H. inversion H; subst. auto. Qed.

Lemma preserves_bind {A B} (I : World -> Prop) (c : M A) (k : A -> M B) :
  preserves I c -> (forall a, preserves I (k a)) -> preserves I (bind c k).
Proof.
  intros Pc Pk w r w' H i. apply bind_run in H.
  destruct H as [(a & w1 & C & K)|(e & C & _)].
  - apply (Pk a w1 r w' K). apply (Pc w _ w1 C i).
  - apply (Pc w _ w' C i).
Qed.

Lemma preserves_extract {A} (I : World -> Prop) r (k : Metadata * dict AttrKey Value -> M A) :
  (forall ma, _get_metadata_and_attributes_for_record (ObjRecord r) = Ok ma ->
              preserves I (k ma)) ->
  preserves I (bind (extract r) k).
Proof.
  intros Pk w x w' H i. unfold bind, extract, lift in H.
  destruct (_get_metadata_and_attributes_for_record (ObjRecord r)) as [ma|e] eqn:E.
  - apply (Pk ma eq_refl w x w' H i).
  - inversion H; subst. exact i.
Qed.

Lemma preserves_for_each {A} (I : World -> Prop) (xs : list A) (body : A -> M unit) :
  (forall x, In x xs -> preserves I (body x)) -> preserves I (for_each xs body).
Proof.
  induction xs as [|x xs IH]; intros H; simpl.
  - apply preserves_ret.
  - apply preserves_bind; [apply H; left; reflexivity|].
    intros u. apply IH. intros y Iy. apply H. right. exact Iy.
Qed.

Lemma preserves_for_each_acc {A Sv} (I : World -> Prop) (xs : list A) (acc : Sv)
      (body : Sv -> A -> M Sv) :
  (forall a x, preserves I (body a x)) -> preserves I (for_each_acc xs acc body).
Proof.
  intros H. revert acc. induction xs as [|x xs IH]; intros acc; simpl.
  - apply preserves_ret.
  - apply preserves_bind; [apply H|]. intros acc'. apply IH.
Qed.

Lemma preserves_map_get (I : World -> Prop) bundle_id_map key :
  preserves I (bundle_id_map_get bundle_id_map key).
Proof.
  unfold bundle_id_map_get. destruct (dict_get _ _ _);
    [apply preserves_ret|apply preserves_raise].
Qed.

(** A save of anything but a record typed [prov:Unknown]. *)
Lemma preserves_save entry :
  (forall id, ~ placeholder_node (entry id)) ->
  preserves fresh_world (adapter_save entry).
Proof.
  intros N w r w' H F. unfold adapter_save in H. unfold fresh_world in *.
  destruct (fault w) as [[|n]|]; inversion H; subst; simpl; auto;
    (eapply placeholders_fresh_snoc; [exact F|lia|]);
    intros P; destruct (N _ P).
Qed.

Lemma preserves_unknown_node bundle_id :
  preserves fresh_world (_create_unknown_node bundle_id).
Proof.
  intros w r w' H F. rewrite create_unknown_node_run in H. unfold fresh_world in *.
  destruct (fault w) as [[|n]|]; inversion H; subst; simpl;
    try (eapply placeholders_fresh_mono; [exact F|lia]);
    (eapply placeholders_fresh_snoc; [exact F|apply Nat.le_succ_diag_r|]);
    intros _; exists (next_uuid w); (split; [reflexivity|lia]).
Qed.

Lemma extract_element_type r metadata attributes :
  is_element r = true ->
  _get_metadata_and_attributes_for_record (ObjRecord r) = Ok (metadata, attributes) ->
  md_prov_type metadata <> PROV_UNKNOWN.
Proof.
  intros El E. destruct (extract_inv _ _ _ E) as (T & _).
  unfold record_type, get_type, is_element in *.
  destruct (rec_class r) as [k| | |]; try discriminate.
  inversion T as [T']. apply element_not_unknown.
Qed.

Lemma preserves_endpoint bundle_id q : preserves fresh_world (endpoint bundle_id q).
Proof.
  destruct q as [v|]; simpl; [apply preserves_ret|].
  apply preserves_bind; [apply preserves_unknown_node|].
  intros a. apply preserves_ret.
Qed.

Lemma preserves_create_relation fb tb r : preserves fresh_world (_create_relation fb tb r).
Proof.
  unfold _create_relation.
  destruct (firstn 2 (formal_attributes r)) as [|a [|b [|c l]]];
    try apply preserves_raise.
  apply preserves_bind; [apply preserves_endpoint|]. intros fq.
  apply preserves_bind; [apply preserves_endpoint|]. intros tq.
  apply preserves_extract. intros ma _.
  apply preserves_save. intros id P. exact P.
Qed.

Lemma preserves_create_bundle c b : preserves fresh_world (_create_bundle c b).
Proof.
  unfold _create_bundle. apply preserves_bind.
  - apply preserves_for_each. intros x Ix.
    apply filter_In in Ix. destruct Ix as [_ El].
    apply preserves_extract. intros [metadata attributes] E.
    apply preserves_bind; [|intros u; apply preserves_ret].
    apply preserves_save. intros id P. simpl in P.
    apply (extract_element_type _ _ _ El E). exact P.
  - intros u. apply preserves_for_each. intros x _.
    destruct (is_mention x); [apply preserves_ret|].
    apply preserves_bind; [apply preserves_create_relation|].
    intros a. apply preserves_ret.
Qed.

Lemma preserves_create_bundle_association doc c identifier b :
  preserves fresh_world (_create_bundle_association doc c identifier b).
Proof.
  unfold _create_bundle_association.
  apply preserves_extract. intros belong _.
  apply preserves_for_each. intros x _.
  apply preserves_extract. intros ma _.
  apply preserves_bind; [|intros u; apply preserves_ret].
  apply preserves_save. intros id P. exact P.
Qed.

Lemma preserves_create_bundle_links b bundle_id_map :
  preserves fresh_world (_create_bundle_links b bundle_id_map).
Proof.
  unfold _create_bundle_links.
  apply preserves_bind; [apply preserves_map_get|]. intros fb.
  apply preserves_for_each. intros m _.
  destruct (negb (is_mention m)); [apply preserves_ret|].
  destruct (nth_error (formal_attributes m) 2) as [[name to_bundle]|];
    [|apply preserves_raise].
  apply preserves_bind; [apply preserves_map_get|]. intros tb.
  apply preserves_bind; [apply preserves_create_relation|].
  intros a. apply preserves_ret.
Qed.

Lemma preserves_materialize d : preserves fresh_world (materialize d).
Proof.
  unfold materialize.
  apply preserves_bind; [apply preserves_save; intros id P; exact P|]. intros doc.
  apply preserves_bind; [apply preserves_create_bundle|]. intros u.
  apply preserves_bind.
  - apply preserves_for_each_acc. intros map b. unfold create_one_bundle.
    apply preserves_extract. intros ma _.
    apply preserves_bind; [apply preserves_save; intros id P; exact P|]. intros c.
    apply preserves_bind; [apply preserves_create_bundle|]. intros u1.
    apply preserves_bind; [apply preserves_create_bundle_association|]. intros u2.
    apply preserves_ret.
  - intros map. apply preserves_bind.
    + apply preserves_for_each. intros b _. apply preserves_create_bundle_links.
    + intros u3. apply preserves_ret.
Qed.


(* ===================================================================== *)
(** ** Placeholders and anonymous relations *)
(* ===================================================================== *)

Lemma placeholder_stored uid :
  is_placeholder_raw (stored_record [] (placeholder_metadata uid)) = true.
Proof. reflexivity. Qed.

(** C10.  A call of the placeholder synthesizer either fails in the adapter,
    saving nothing, or saves exactly one record, typed [prov:Unknown], whose
    identifier is made from the uuid it drew, and returns that identifier;
    each call draws a new uuid and different uuids give different
    identifiers, so a relation without both endpoints gets two placeholder
    nodes with distinct identifiers; and when the records typed [prov:Unknown]
    of the store were made from uuids drawn earlier, in their order, no two
    of those that a materialization leaves in the store have the same
    identifier. *)
Theorem placeholder_per_missing_endpoint :
  (forall bundle_id w,
      (fst (_create_unknown_node bundle_id w) = Raise DatabaseException
       /\ store (snd (_create_unknown_node bundle_id w)) = store w)
      \/ (fst (_create_unknown_node bundle_id w)
          = Ok (Some (placeholder_identifier (next_uuid w)))
          /\ store (snd (_create_unknown_node bundle_id w))
             = store w ++ [EvSaveRecord bundle_id [] (placeholder_metadata (next_uuid w))
                                        (next_id w)]))
  /\ (forall bundle_id w,
         next_uuid (snd (_create_unknown_node bundle_id w)) = S (next_uuid w))
  /\ (forall uid,
         qn_str (placeholder_identifier uid) = ("prov:Unknown-" ++ uuid_str uid)%string
         /\ md_identifier (placeholder_metadata uid) = placeholder_identifier uid
         /\ md_prov_type (placeholder_metadata uid) = PROV_UNKNOWN)
  /\ (forall m n, m <> n ->
         placeholder_identifier m <> placeholder_identifier n
         /\ qn_eqb (placeholder_identifier m) (placeholder_identifier n) = false)
  /\ (forall from_bundle_id to_bundle_id r from_name to_name metadata attributes w,
         firstn 2 (formal_attributes r) = [(from_name, None); (to_name, None)] ->
         _get_metadata_and_attributes_for_record (ObjRecord r)
         = Ok (metadata, attributes) ->
         fault w = None ->
         exists rid w',
           _create_relation from_bundle_id to_bundle_id r w = (Ok rid, w')
           /\ store w'
           = store w
             ++ [EvSaveRecord from_bundle_id [] (placeholder_metadata (next_uuid w))
                              (next_id w);
                 EvSaveRecord to_bundle_id [] (placeholder_metadata (S (next_uuid w)))
                              (S (next_id w));
                 EvSaveRelation
                   from_bundle_id (Some (VQName (placeholder_identifier (next_uuid w))))
                   to_bundle_id (Some (VQName (placeholder_identifier (S (next_uuid w)))))
                   attributes metadata rid]
           /\ placeholder_identifier (next_uuid w)
              <> placeholder_identifier (S (next_uuid w)))
  /\ (forall d w l1 c a m rid l2 c' a' m' rid' l3,
         fresh_world w ->
         store (snd (materialize d w))
         = l1 ++ EvSaveRecord c a m rid :: l2 ++ EvSaveRecord c' a' m' rid' :: l3 ->
         md_prov_type m = PROV_UNKNOWN ->
         md_prov_type m' = PROV_UNKNOWN ->
         qn_eqb (md_identifier m) (md_identifier m') = false).
Proof.
  split; [|split; [|split; [|split; [|split]]]].
  - intros bundle_id w. rewrite create_unknown_node_run.
    destruct (fault w) as [[|n]|]; simpl; auto.
  - intros bundle_id w. rewrite create_unknown_node_run.
    destruct (fault w) as [[|n]|]; reflexivity.
  - intros uid. repeat split.
  - intros m n D. split.
    + intros E. apply D. apply placeholder_identifier_inj. exact E.
    + destruct (qn_eqb _ _) eqn:E; [|reflexivity].
      exfalso. apply D. apply placeholder_identifier_eqb. exact E.
  - intros fb tb r fname tname metadata attributes w F E N.
    destruct (create_relation_succeeds fb tb r _ _ _ _ w F E N) as (rid & w' & H).
    exists rid, w'. split; [exact H|].
    destruct (create_relation_ok _ _ _ _ _ _ _ _ F H)
      as (w1 & w2 & fq & tq & metadata' & attributes' & E1 & E2 & E' & R & S1 & _).
    rewrite E in E'. inversion E'; subst metadata' attributes'.
    apply endpoint_ok in E1. destruct E1 as [(x & X & _)|(_ & -> & S2 & I2 & U2)];
      [discriminate|].
    apply endpoint_ok in E2. destruct E2 as [(x & X & _)|(_ & -> & S3 & I3 & U3)];
      [discriminate|].
    split.
    + rewrite S1, S3, S2, U2, I2. rewrite <- !app_assoc. reflexivity.
    + intros C. apply placeholder_identifier_inj in C. lia.
  - intros d w l1 c a m rid l2 c' a' m' rid' l3 F E T T'.
    destruct (materialize d w) as [r w'] eqn:R. simpl in E.
    destruct (preserves_materialize d w r w' R F) as [B Sd].
    destruct (B (EvSaveRecord c a m rid)) as (uid & U & _);
      [rewrite E; apply in_elt|exact T|].
    destruct (B (EvSaveRecord c' a' m' rid')) as (uid' & U' & _);
      [rewrite E, app_comm_cons, app_assoc; apply in_elt|exact T'|].
    assert (Lt : uid < uid') by (apply (Sd _ _ _ _ _ _ _ E T T' U U')).
    simpl in U, U'. rewrite U, U'.
    destruct (qn_eqb _ _) eqn:Q; [|reflexivity].
    apply placeholder_identifier_eqb in Q. lia.
Qed.

(** One call of [_create_relation].  For a relation that extraction accepts
    and whose "to" endpoint is [None], the call (with an adapter that does not
    fail) returns after saving, just before the relation itself, exactly one
    placeholder node for that endpoint (and nothing else when the "from"
    endpoint is present); the placeholder's type is [prov:Unknown], the
    reconstructor skips its stored record, and no record of a reconstructed
    document has that type. *)
Lemma create_relation_unknown_to
        json_load from_bundle_id to_bundle_id r from_tuple to_name metadata attributes w :
  firstn 2 (formal_attributes r) = [from_tuple; (to_name, None)] ->
  _get_metadata_and_attributes_for_record (ObjRecord r) = Ok (metadata, attributes) ->
  fault w = None ->
  exists rid w' before uid pid from_node,
    _create_relation from_bundle_id to_bundle_id r w = (Ok rid, w')
    /\ store w'
       = store w ++ before
         ++ [EvSaveRecord to_bundle_id [] (placeholder_metadata uid) pid;
             EvSaveRelation from_bundle_id from_node
                            to_bundle_id (Some (VQName (placeholder_identifier uid)))
                            attributes metadata rid]
    /\ (snd from_tuple <> None -> before = [] /\ from_node = snd from_tuple)
    /\ (snd from_tuple = None ->
        exists uid0 pid0,
          uid0 <> uid
          /\ before = [EvSaveRecord from_bundle_id [] (placeholder_metadata uid0) pid0])
    /\ md_prov_type (placeholder_metadata uid) = PROV_UNKNOWN
    /\ (forall b,
          _parse_record json_load b (stored_record [] (placeholder_metadata uid)) = Ok b)
    /\ (forall raw_doc,
          reconstruct json_load raw_doc
          = reconstruct json_load (drop_raw is_placeholder_raw raw_doc))
    /\ (forall raw_doc doc x,
          reconstruct json_load raw_doc = Ok doc ->
          In x (all_records doc) -> record_type x <> Some PROV_UNKNOWN).
Proof.
  intros F E N.
  destruct (create_relation_succeeds from_bundle_id to_bundle_id r _ _ _ _ w F E N)
    as (rid & w' & H).
  exists rid, w'.
  destruct (create_relation_ok _ _ _ _ _ _ _ _ F H)
    as (w1 & w2 & fq & tq & metadata' & attributes' & E1 & E2 & E' & R & S1 & _).
  rewrite E in E'. inversion E'; subst metadata' attributes'.
  apply endpoint_ok in E2. destruct E2 as [(x & X & _)|(_ & -> & S2 & I2 & U2)];
    [discriminate|].
  apply endpoint_ok in E1.
  assert (G : forall before,
             store w1 = store w ++ before ->
             store w' = store w ++ before
                        ++ [EvSaveRecord to_bundle_id [] (placeholder_metadata (next_uuid w1))
                                         (next_id w1);
                            EvSaveRelation
                              from_bundle_id fq to_bundle_id
                              (Some (VQName (placeholder_identifier (next_uuid w1))))
                              attributes metadata rid]).
  { intros before B. rewrite S1, S2, B. rewrite <- !app_assoc. reflexivity. }
  assert (Skip : (forall b,
                     _parse_record json_load b
                                   (stored_record [] (placeholder_metadata (next_uuid w1)))
                     = Ok b)
                 /\ (forall raw_doc,
                        reconstruct json_load raw_doc
                        = reconstruct json_load (drop_raw is_placeholder_raw raw_doc))
                 /\ (forall raw_doc doc x,
                        reconstruct json_load raw_doc = Ok doc ->
                        In x (all_records doc) -> record_type x <> Some PROV_UNKNOWN)).
  { split; [|split].
    - intros b. apply parse_record_placeholder. apply placeholder_stored.
    - intros raw_doc. apply reconstruct_drop. intros b raw.
      apply parse_record_placeholder.
    - intros raw_doc doc y D I C.
      apply (reconstruct_classed json_load raw_doc doc y D I).
      apply record_type_unknown. exact C. }
  destruct E1 as [(x & X & -> & ->)|(Nf & -> & S3 & I3 & U3)].
  - exists [], (next_uuid w), (next_id w), (snd from_tuple).
    split; [exact H|].
    split; [apply (G []); rewrite app_nil_r; reflexivity|].
    split; [auto|]. split; [intros C; rewrite C in X; discriminate|].
    split; [reflexivity|exact Skip].
  - exists [EvSaveRecord from_bundle_id [] (placeholder_metadata (next_uuid w)) (next_id w)],
      (next_uuid w1), (next_id w1),
      (Some (VQName (placeholder_identifier (next_uuid w)))).
    split; [exact H|].
    split; [apply G; exact S3|].
    split; [intros C; contradiction|].
    split; [intros _; exists (next_uuid w), (next_id w); split; [lia|reflexivity]|].
    split; [reflexivity|exact Skip].
Qed.

Lemma relation_not_unknown k : qn_is (relation_type k) PROV_UNKNOWN = false.
Proof. destruct k; reflexivity. Qed.

Lemma relation_type_str k :
  qn_str (relation_type k) = ("prov:" ++ qn_localpart (relation_type k))%string.
Proof. destruct k; reflexivity. Qed.

Lemma relation_type_prov k :
  prov_qn (qn_localpart (relation_type k)) = relation_type k.
Proof. destruct k; reflexivity. Qed.

(** C5.  For a relation without identifier, extraction stores the relation's
    type as identifier; a raw record whose identifier equals its type, when
    it is rebuilt, gets no identifier and the class of its type; so an
    anonymous relation that was stored comes back anonymous and of the same
    kind. *)
Theorem anonymous_relation_convention json_load :
  (forall r k metadata attributes,
      rec_class r = ClsRelation k ->
      rec_identifier r = None ->
      _get_metadata_and_attributes_for_record (ObjRecord r) = Ok (metadata, attributes) ->
      md_prov_type metadata = relation_type k
      /\ md_identifier metadata = relation_type k)
  /\ (forall b raw b',
         option_eqb (valid_qualified_name (bundle_namespaces b) (raw_identifier raw))
                    (valid_qualified_name (bundle_namespaces b) (raw_prov_type raw)) = true ->
         _parse_record json_load b raw = Ok b' ->
         b' = b
         \/ exists t x,
             valid_qualified_name (bundle_namespaces b) (raw_prov_type raw) = Some t
             /\ dict_get qn_eqb PROV_REC_CLS t = Some (rec_class x)
             /\ bundle_records b' = bundle_records b ++ [x]
             /\ rec_identifier x = None)
  /\ (forall r k metadata attributes b b',
         rec_class r = ClsRelation k ->
         rec_identifier r = None ->
         _get_metadata_and_attributes_for_record (ObjRecord r) = Ok (metadata, attributes) ->
         is_membership_raw (stored_record attributes metadata) = false ->
         _parse_record json_load b (stored_record attributes metadata) = Ok b' ->
         exists x,
           bundle_records b' = bundle_records b ++ [x]
           /\ rec_class x = ClsRelation k
           /\ rec_identifier x = None).
Proof.
  assert (A : forall r k metadata attributes,
             rec_class r = ClsRelation k ->
             rec_identifier r = None ->
             _get_metadata_and_attributes_for_record (ObjRecord r) = Ok (metadata, attributes) ->
             md_prov_type metadata = relation_type k
             /\ md_identifier metadata = relation_type k).
  { intros r k metadata attributes C N E.
    destruct (extract_inv _ _ _ E) as (T & I & _).
    unfold record_identifier in I. rewrite N in I.
    unfold record_type, get_type in T, I. rewrite C in T, I.
    inversion T. inversion I. auto. }
  split; [exact A|split].
  - intros b raw b' E H. apply parse_record_ok in H.
    destruct H as [[_ ->]|(_ & _ & t & x & T & C & R & _ & N)]; [auto|].
    right. exists t, x. repeat split; auto.
    apply N. rewrite <- T. exact E.
  - intros r k metadata attributes b b' C N E L H.
    destruct (A _ _ _ _ C N E) as [T I].
    assert (V : valid_qualified_name (bundle_namespaces b)
                  (raw_prov_type (stored_record attributes metadata))
                = Some (relation_type k)).
    { unfold stored_record. simpl. rewrite T, relation_type_str, valid_prov.
      rewrite relation_type_prov. reflexivity. }
    assert (W : raw_identifier (stored_record attributes metadata)
                = raw_prov_type (stored_record attributes metadata)).
    { unfold stored_record. simpl. rewrite T, I. reflexivity. }
    apply parse_record_ok in H.
    destruct H as [[[U|U] _]|(_ & _ & t & x & T' & K & R & _ & X)].
    + exfalso. rewrite V, valid_prov_unknown in U.
      change (option_is (Some (relation_type k)) (Some PROV_UNKNOWN))
        with (qn_is (relation_type k) PROV_UNKNOWN) in U.
      rewrite relation_not_unknown in U. discriminate.
    + rewrite L in U. discriminate.
    + rewrite V in T'. inversion T'; subst t.
      rewrite PROV_REC_CLS_relation in K. inversion K.
      exists x. repeat split; auto.
      apply X. rewrite W, V. apply String.eqb_refl.
Qed.

(* ===================================================================== *)
(** ** Reasoning about what a computation saves *)
(* ===================================================================== *)

Section Triples.
(** The store and the next id when the computation of interest starts. *)
Variable base : list Event.
Variable n0 : nat.

Lemma logged_unique w new new' : logged base n0 w new -> logged base n0 w new' -> new = new'.
Proof.
  intros [H _] [H' _]. rewrite H in H'. apply app_inv_head in H'. exact H'.
Qed.

Lemma triple_ret {A} (a : A) (P : list Event -> Prop) Q X :
  (forall new, P new -> Q a new) -> triple base n0 P (ret a) Q X.
Proof.
  intros H w new r w' L p E. unfold ret in E. inversion E; subst.
  exists new. auto.
Qed.

Lemma triple_raise {A} e (P : list Event -> Prop) (Q : A -> list Event -> Prop) X :
  (forall new, P new -> X new) -> triple base n0 P (raise e) Q X.
Proof.
  intros H w new r w' L p E. unfold raise in E. inversion E; subst.
  exists new. auto.
Qed.

Lemma triple_lift {A} (r : result A) (P : list Event -> Prop) Q X :
  (forall a new, r = Ok a -> P new -> Q a new) ->
  (forall e new, r = Raise e -> P new -> X new) ->
  triple base n0 P (lift r) Q X.
Proof.
  intros H1 H2 w new r' w' L p E. unfold lift in E. inversion E; subst.
  exists new. split; [exact L|]. destruct r'; eauto.
Qed.

Lemma triple_bind {A B} (c : M A) (k : A -> M B) P Q R X :
  triple base n0 P c Q X ->
  (forall a, triple base n0 (Q a) (k a) R X) ->
  triple base n0 P (bind c k) R X.
Proof.
  intros Hc Hk w new r w' L p E.
  apply bind_run in E. destruct E as [(a & w1 & E1 & E2)|(e & E1 & ->)].
  - destruct (Hc _ _ _ _ L p E1) as (new1 & L1 & q).
    exact (Hk a _ _ _ _ L1 q E2).
  - exact (Hc _ _ _ _ L p E1).
Qed.

Lemma triple_conseq {A} (c : M A) (P P' : list Event -> Prop)
      (Q Q' : A -> list Event -> Prop) (X X' : list Event -> Prop) :
  triple base n0 P c Q X ->
  (forall new, P' new -> P new) ->
  (forall a new, Q a new -> Q' a new) ->
  (forall new, X new -> X' new) ->
  triple base n0 P' c Q' X'.
Proof.
  intros H HP HQ HX w new r w' L p E.
  destruct (H _ _ _ _ L (HP _ p) E) as (new' & L' & q).
  exists new'. split; [exact L'|]. destruct r; auto.
Qed.

Lemma triple_conj {A} (c : M A) P1 P2 (Q1 Q2 : A -> list Event -> Prop) X1 X2 :
  triple base n0 P1 c Q1 X1 ->
  triple base n0 P2 c Q2 X2 ->
  triple base n0 (fun new => P1 new /\ P2 new) c
         (fun a new => Q1 a new /\ Q2 a new) (fun new => X1 new /\ X2 new).
Proof.
  intros H1 H2 w new r w' L [p1 p2] E.
  destruct (H1 _ _ _ _ L p1 E) as (new1 & L1 & q1).
  destruct (H2 _ _ _ _ L p2 E) as (new2 & L2 & q2).
  assert (new1 = new2) by (eapply logged_unique; eauto). subst new2.
  exists new1. split; [exact L1|]. destruct r; auto.
Qed.

(** A save call appends its entry, numbered by its position. *)
Lemma triple_save entry (P : list Event -> Prop) Q X :
  (forall new, P new ->
               Q (n0 + List.length new) (new ++ [entry (n0 + List.length new)])) ->
  (forall new, P new -> X new) ->
  triple base n0 P (adapter_save entry) Q X.
Proof.
  intros HQ HX w new r w' [L1 L2] p E. destruct r as [id|e].
  - apply adapter_save_ok in E. destruct E as (-> & S1 & S2 & _).
    exists (new ++ [entry (next_id w)]). split.
    + split.
      * rewrite S1, L1, app_assoc. reflexivity.
      * rewrite S2, L2, List.length_app. simpl. lia.
    + rewrite L2. apply HQ. exact p.
  - apply adapter_save_raise in E. destruct E as [_ ->].
    exists new. split; [split; assumption|auto].
Qed.

Lemma triple_uuid4 (P : list Event -> Prop) Q X :
  (forall uid new, P new -> Q uid new) -> triple base n0 P uuid4 Q X.
Proof.
  intros H w new r w' [L1 L2] p E. unfold uuid4 in E. inversion E; subst.
  exists new. simpl. split; [split; assumption|auto].
Qed.

(** A loop keeps an invariant that may mention the items already done. *)
Lemma triple_for_each {A} (body : A -> M unit) (I : list A -> list Event -> Prop) X :
  forall xs done,
    (forall pre x post, done ++ xs = pre ++ x :: post -> List.length done <= List.length pre ->
                        triple base n0 (I pre) (body x) (fun _ => I (pre ++ [x])) X) ->
    triple base n0 (I done) (for_each xs body) (fun _ => I (done ++ xs)) X.
Proof.
  induction xs as [|x xs IH]; intros done H; simpl.
  - apply triple_ret. intros new p. rewrite app_nil_r. exact p.
  - eapply triple_bind.
    + apply (H done x xs); [reflexivity|lia].
    + intros u. eapply triple_conseq.
      * apply (IH (done ++ [x])). intros pre y post E Len.
        apply (H pre y post).
        -- rewrite <- E, <- app_assoc. reflexivity.
        -- rewrite List.length_app in Len. simpl in Len. lia.
      * auto.
      * intros a new q. rewrite <- app_assoc in q. exact q.
      * auto.
Qed.

Lemma triple_for_each_acc {A S} (body : S -> A -> M S)
      (I : list A -> S -> list Event -> Prop) X :
  forall xs done acc,
    (forall pre x post s, done ++ xs = pre ++ x :: post -> List.length done <= List.length pre ->
                          triple base n0 (I pre s) (body s x)
                                 (fun s' => I (pre ++ [x]) s') X) ->
    triple base n0 (I done acc) (for_each_acc xs acc body)
           (fun s => I (done ++ xs) s) X.
Proof.
  induction xs as [|x xs IH]; intros done acc H; simpl.
  - apply triple_ret. intros new p. rewrite app_nil_r. exact p.
  - eapply triple_bind.
    + apply (H done x xs acc); [reflexivity|lia].
    + intros acc'. eapply triple_conseq.
      * apply (IH (done ++ [x]) acc'). intros pre y post s E Len.
        apply (H pre y post s).
        -- rewrite <- E, <- app_assoc. reflexivity.
        -- rewrite List.length_app in Len. simpl in Len. lia.
      * auto.
      * intros a new q. rewrite <- app_assoc in q. exact q.
      * auto.
Qed.

(** The simple case: an invariant that does not depend on the items. *)
Lemma triple_for_each_inv {A} (body : A -> M unit) (I : list Event -> Prop) xs :
  (forall x, In x xs -> triple base n0 I (body x) (fun _ => I) I) ->
  triple base n0 I (for_each xs body) (fun _ => I) I.
Proof.
  intros H.
  apply (triple_for_each body (fun _ => I) I xs []).
  intros pre x post E _. apply H. simpl in E. rewrite E.
  apply in_elt.
Qed.
End Triples.

(* ===================================================================== *)
(** ** What each part of the materializer saves *)
(* ===================================================================== *)

Section Footprints.
Variable base : list Event.
Variable n0 : nat.

Lemma unknown_node_stable c I :
  stable (placeholder_in c) I ->
  triple base n0 I (_create_unknown_node c) (fun _ => I) I.
Proof.
  intros S w new r w' [L1 L2] p E.
  rewrite create_unknown_node_run in E.
  destruct (fault w) as [[|n]|]; inversion E; subst; clear E; simpl.
  - exists new. split; [split; assumption|exact p].
  - exists (new ++ [EvSaveRecord c [] (placeholder_metadata (next_uuid w)) (next_id w)]).
    split; [split; simpl|].
    + rewrite L1, app_assoc. reflexivity.
    + rewrite L2, List.length_app. simpl. lia.
    + apply S; [exact p|]. unfold placeholder_in. eauto.
  - exists (new ++ [EvSaveRecord c [] (placeholder_metadata (next_uuid w)) (next_id w)]).
    split; [split; simpl|].
    + rewrite L1, app_assoc. reflexivity.
    + rewrite L2, List.length_app. simpl. lia.
    + apply S; [exact p|]. unfold placeholder_in. eauto.
Qed.

Lemma endpoint_stable c q I :
  stable (placeholder_in c) I ->
  triple base n0 I (endpoint c q) (fun _ => I) I.
Proof.
  intros S. destruct q as [v|]; simpl.
  - apply triple_ret. auto.
  - apply triple_bind with (Q := fun _ : option QualifiedName => I);
      [apply unknown_node_stable; exact S|].
    intros x. apply triple_ret. auto.
Qed.

Lemma extract_triple_gen {A} r (k : Metadata * dict AttrKey Value -> M A)
      (I : list Event -> Prop) Q X :
  (forall new, I new -> X new) ->
  (forall metadata attributes,
      _get_metadata_and_attributes_for_record (ObjRecord r) = Ok (metadata, attributes) ->
      triple base n0 I (k (metadata, attributes)) Q X) ->
  triple base n0 I (bind (extract r) k) Q X.
Proof.
  intros IX H w new res w' L p E.
  unfold bind, extract, lift in E.
  destruct (_get_metadata_and_attributes_for_record (ObjRecord r)) as [[m a]|e] eqn:Y.
  - exact (H m a eq_refl _ _ _ _ L p E).
  - inversion E; subst. exists new. auto.
Qed.

Lemma extract_triple {A} r (k : Metadata * dict AttrKey Value -> M A) I Q :
  (forall metadata attributes,
      _get_metadata_and_attributes_for_record (ObjRecord r) = Ok (metadata, attributes) ->
      triple base n0 I (k (metadata, attributes)) Q I) ->
  triple base n0 I (bind (extract r) k) Q I.
Proof. apply extract_triple_gen. auto. Qed.

Lemma create_relation_stable fb tb r I :
  stable (fun e => placeholder_in fb e \/ placeholder_in tb e \/ relation_event fb tb r e) I ->
  triple base n0 I (_create_relation fb tb r) (fun _ => I) I.
Proof.
  intros S. unfold _create_relation.
  destruct (firstn 2 (formal_attributes r)) as [|ft [|tt [|x l]]];
    try (apply triple_raise; auto).
  apply triple_bind with (Q := fun _ : option Value => I).
  { apply endpoint_stable. intros new e p a. apply S; auto. }
  intros fq. apply triple_bind with (Q := fun _ : option Value => I).
  { apply endpoint_stable. intros new e p a. apply S; auto. }
  intros tq. apply extract_triple. intros metadata attributes E. simpl.
  apply triple_save; [|auto].
  intros new p. apply S; [exact p|]. right. right.
  unfold relation_event. eauto 10.
Qed.

Lemma create_bundle_stable c b J K :
  stable (node_event c b) J ->
  stable (relation_phase_event c b) K ->
  (forall new, J new -> K new) ->
  triple base n0 J (_create_bundle c b) (fun _ => K) K.
Proof.
  intros SJ SK JK. unfold _create_bundle.
  apply triple_bind with (Q := fun _ : unit => J).
  - apply triple_conseq with (P := J) (Q := fun _ : unit => J) (X := J); auto.
    apply triple_for_each_inv. intros r Ir.
    apply filter_In in Ir. destruct Ir as [Ir Er].
    apply extract_triple. intros metadata attributes E. simpl.
    apply triple_bind with (Q := fun _ : DbId => J);
      [|intros u; apply triple_ret; intros new p; exact p].
    apply triple_save; [|auto].
    intros new p. apply SJ; [exact p|]. unfold node_event. eauto 10.
  - intros u. apply triple_conseq with (P := K) (Q := fun _ : unit => K) (X := K); auto.
    apply triple_for_each_inv. intros r Ir.
    apply filter_In in Ir. destruct Ir as [Ir Er].
    destruct (is_mention r) eqn:Mr; [apply triple_ret; auto|].
    apply triple_bind with (Q := fun _ : DbId => K);
      [|intros x; apply triple_ret; intros new p; exact p].
    apply create_relation_stable.
    intros new e p [a|[a|a]]; apply SK; auto; try (left; exact a).
    right. exists r. auto.
Qed.

Lemma belong_relation_extract b metadata attributes :
  _get_metadata_and_attributes_for_record (ObjRecord (belong_relation b))
  = Ok (metadata, attributes) ->
  attributes = belong_attributes /\ md_prov_type metadata = PROV_ASSOCIATION.
Proof.
  intros E. destruct (extract_inv _ _ _ E) as (T & _ & A & _).
  split; [exact A|]. inversion T. reflexivity.
Qed.

Lemma create_bundle_association_stable doc c identifier b I :
  stable (membership_event c doc identifier b) I ->
  triple base n0 I (_create_bundle_association doc c identifier b) (fun _ => I) I.
Proof.
  intros S. unfold _create_bundle_association.
  apply extract_triple. intros bm ba E.
  destruct (belong_relation_extract _ _ _ E) as [-> _]. simpl.
  apply triple_for_each_inv. intros r Ir.
  apply filter_In in Ir. destruct Ir as [Ir Er].
  apply extract_triple. intros metadata attributes Em. simpl.
  apply triple_bind with (Q := fun _ : DbId => I);
    [|intros u; apply triple_ret; intros new p; exact p].
  apply triple_save; [|auto].
  intros new p. apply S; [exact p|]. unfold membership_event.
  exists r, attributes, metadata, bm. eauto 10.
Qed.

Lemma dict_get_values {K V} (eqb : K -> K -> bool) (d : list (K * V)) k v :
  dict_get eqb d k = Some v -> In v (dict_values d).
Proof.
  intros H. apply dict_get_some_in in H. destruct H as [k' [H _]].
  unfold dict_values. apply in_map_iff. exists (k', v). auto.
Qed.

Lemma bundle_id_map_get_triple_gen {A} bundle_id_map key (k : DbId -> M A)
      (I : list Event -> Prop) Q X :
  (forall new, I new -> X new) ->
  (forall c, dict_get object_eqb bundle_id_map key = Some c ->
             triple base n0 I (k c) Q X) ->
  triple base n0 I (bind (bundle_id_map_get bundle_id_map key) k) Q X.
Proof.
  intros IX H w new r w' L p E. unfold bind, bundle_id_map_get in E.
  destruct (dict_get object_eqb bundle_id_map key) as [c|] eqn:G.
  - unfold ret in E. exact (H c eq_refl _ _ _ _ L p E).
  - unfold raise in E. inversion E; subst. exists new. auto.
Qed.

Lemma bundle_id_map_get_triple {A} bundle_id_map key (k : DbId -> M A) I Q :
  (forall c, In c (dict_values bundle_id_map) -> triple base n0 I (k c) Q I) ->
  triple base n0 I (bind (bundle_id_map_get bundle_id_map key) k) Q I.
Proof.
  intros H. apply bundle_id_map_get_triple_gen; [auto|].
  intros c G. apply H. eapply dict_get_values. exact G.
Qed.

Lemma create_bundle_links_stable b bundle_id_map I :
  stable (link_event bundle_id_map b) I ->
  triple base n0 I (_create_bundle_links b bundle_id_map) (fun _ => I) I.
Proof.
  intros S. unfold _create_bundle_links.
  apply bundle_id_map_get_triple. intros fb Ifb.
  apply triple_for_each_inv. intros m Im.
  apply filter_In in Im. destruct Im as [Im Em].
  destruct (is_mention m) eqn:Mm; cbn [negb]; [|apply triple_ret; auto].
  destruct (nth_error (formal_attributes m) 2) as [[name to_bundle]|];
    [|apply triple_raise; auto].
  apply bundle_id_map_get_triple. intros tb Itb.
  apply triple_bind with (Q := fun _ : DbId => I);
    [|intros x; apply triple_ret; intros new p; exact p].
  apply create_relation_stable.
  intros new e p a. apply S; [exact p|].
  exists fb, tb. split; [exact Ifb|]. split; [exact Itb|].
  destruct a as [a|[a|a]]; auto.
  right. right. exists m. auto.
Qed.
End Footprints.

(* ===================================================================== *)
(** ** Ordering of the saved entries *)
(* ===================================================================== *)

Lemma nodes_before_edges_snoc new e :
  nodes_before_edges new ->
  (forall c, element_node_in c e -> untouched c new) ->
  nodes_before_edges (new ++ [e]).
Proof.
  intros N U l1 x l2 n l3 c E T El.
  apply snoc_split in E. destruct E as [(E1 & _ & _)|(l' & E1 & E2)].
  - destruct l2; discriminate.
  - change (l2 ++ n :: l3 = l' ++ [e]) in E1. symmetry in E1.
    apply snoc_split in E1. destruct E1 as [(-> & -> & ->)|(l3' & -> & ->)].
    + apply (U c El x); [|exact T]. rewrite E2. apply in_elt.
    + apply (N l1 x l2 n l3' c); auto.
Qed.

Lemma placeholder_not_element c c' e : placeholder_in c e -> ~ element_node_in c' e.
Proof.
  intros (uid & rid & ->) [_ [k E]]. simpl in E.
  apply (element_not_unknown k). symmetry. exact E.
Qed.

Lemma relation_not_mention r metadata attributes :
  is_relation r = true -> is_mention r = false ->
  _get_metadata_and_attributes_for_record (ObjRecord r) = Ok (metadata, attributes) ->
  md_prov_type metadata <> PROV_MENTION.
Proof.
  intros R M E. destruct (extract_inv _ _ _ E) as (T & _).
  unfold record_type, get_type, is_relation, is_mention in *.
  destruct (rec_class r) as [k|k| |]; try discriminate.
  inversion T. destruct k; try discriminate.
Qed.

Lemma mention_type r metadata attributes :
  is_mention r = true ->
  _get_metadata_and_attributes_for_record (ObjRecord r) = Ok (metadata, attributes) ->
  md_prov_type metadata = PROV_MENTION.
Proof.
  intros M E. destruct (extract_inv _ _ _ E) as (T & _).
  unfold record_type, get_type, is_mention in *.
  destruct (rec_class r) as [k|k| |]; try discriminate.
  destruct k; try discriminate. inversion T. reflexivity.
Qed.

Lemma untouched_snoc c new e :
  untouched c new -> ~ edge_touching c e -> untouched c (new ++ [e]).
Proof.
  intros U N x I. apply in_app_iff in I. destruct I as [I|[<-|[]]]; auto.
Qed.

Lemma edges_below_snoc bound bound' new e :
  edges_below bound new -> bound <= bound' ->
  (forall c, edge_touching c e -> c < bound') ->
  edges_below bound' (new ++ [e]).
Proof.
  intros B Le N x c I T. apply in_app_iff in I. destruct I as [I|[<-|[]]].
  - specialize (B x c I T). lia.
  - auto.
Qed.

Lemma no_mention_snoc new e : no_mention new -> ~ mention_edge e -> no_mention (new ++ [e]).
Proof.
  intros N M. apply Forall_app. split; [exact N|]. constructor; [exact M|constructor].
Qed.

(* ===================================================================== *)
(** ** What a successful run has saved *)
(* ===================================================================== *)

Lemma monotone_stable allowed I : monotone I -> stable allowed I.
Proof. intros M new e p _. apply M. exact p. Qed.

Lemma node_saved_monotone c r : monotone (node_saved c r).
Proof.
  intros new e (m & a & rid & E & I). exists m, a, rid. split; [exact E|].
  apply in_or_app. auto.
Qed.

Lemma relation_saved_monotone fb tb r : monotone (relation_saved fb tb r).
Proof.
  intros new e (fq & tq & m & a & rid & E & I). exists fq, tq, m, a, rid.
  split; [exact E|]. apply in_or_app. auto.
Qed.

Lemma member_saved_monotone c doc b r : monotone (member_saved c doc b r).
Proof.
  intros new e (m & a & tq & bm & rid & E & I). exists m, a, tq, bm, rid.
  split; [exact E|]. apply in_or_app. auto.
Qed.

Lemma bundle_saved_monotone c b : monotone (bundle_saved c b).
Proof.
  intros new e [N R]. split; intros; [apply node_saved_monotone|apply relation_saved_monotone];
    auto.
Qed.

Lemma members_saved_monotone c doc b : monotone (members_saved c doc b).
Proof. intros new e M r I E. apply member_saved_monotone. auto. Qed.

Lemma container_of_monotone doc b c : monotone (container_of doc b c).
Proof.
  intros new e (a & m & E & I). exists a, m. split; [exact E|]. apply in_or_app. auto.
Qed.

Lemma bundle_done_monotone doc b c : monotone (bundle_done doc b c).
Proof.
  intros new e (C & B & M). repeat split.
  - apply container_of_monotone; auto.
  - apply bundle_saved_monotone; auto.
  - apply bundle_saved_monotone; auto.
  - apply members_saved_monotone; auto.
Qed.

Lemma mention_saved_monotone map b m : monotone (mention_saved map b m).
Proof.
  intros new e (fb & tb & name & to_bundle & F & N & T & R).
  exists fb, tb, name, to_bundle. repeat split; auto.
  apply relation_saved_monotone. exact R.
Qed.

Lemma in_monotone (x : Event) : monotone (In x).
Proof. intros new e I. apply in_or_app. auto. Qed.

Lemma exists_monotone (p : Event -> Prop) : monotone (Exists p).
Proof. intros new e E. apply Exists_app. auto. Qed.

Section Completeness.
Variable base : list Event.
Variable n0 : nat.

Let any : list Event -> Prop := fun _ => True.

Lemma create_relation_saved fb tb r :
  triple base n0 any (_create_relation fb tb r)
         (fun _ new => relation_saved fb tb r new) any.
Proof.
  unfold _create_relation.
  destruct (firstn 2 (formal_attributes r)) as [|ft [|tt [|x l]]];
    try (apply triple_raise; unfold any; auto).
  apply triple_bind with (Q := fun _ : option Value => any).
  { apply endpoint_stable. intros new e p a. exact I. }
  intros fq. apply triple_bind with (Q := fun _ : option Value => any).
  { apply endpoint_stable. intros new e p a. exact I. }
  intros tq. apply extract_triple. intros metadata attributes E. simpl.
  apply triple_save; [|auto].
  intros new p. exists fq, tq, metadata, attributes, (n0 + List.length new).
  split; [exact E|]. apply in_elt.
Qed.

Lemma keeps_conj {A} (c : M A) (Q : A -> list Event -> Prop) I :
  keeps base n0 c -> monotone I ->
  triple base n0 any c Q any ->
  triple base n0 I c (fun a new => I new /\ Q a new) any.
Proof.
  intros K MI H.
  apply triple_conseq
    with (P := fun new => I new /\ any new)
         (Q := fun a new => I new /\ Q a new)
         (X := fun new => any new /\ any new); unfold any; auto.
  apply triple_conj; [apply K; exact MI|exact H].
Qed.

(** A loop whose body settles one item and keeps what earlier items
    settled. *)
Lemma triple_for_each_saved {A} (body : A -> M unit)
      (saved : A -> list Event -> Prop) xs :
  (forall x, monotone (saved x)) ->
  (forall x, In x xs -> keeps base n0 (body x)) ->
  (forall x, In x xs ->
             triple base n0 any (body x) (fun _ new => saved x new) any) ->
  triple base n0 any (for_each xs body)
         (fun _ new => forall x, In x xs -> saved x new) any.
Proof.
  intros Mono K H.
  pose (J := fun (done : list A) (new : list Event) =>
               forall x, In x done -> saved x new).
  apply triple_conseq with (P := J []) (Q := fun _ : unit => J ([] ++ xs)) (X := any);
    auto.
  - apply (triple_for_each base n0 body J any xs []).
    intros pre x post E _. simpl in E.
    assert (Ix : In x xs) by (rewrite E; apply in_elt).
    eapply triple_conseq.
    + apply (keeps_conj (body x) (fun _ new => saved x new) (J pre)).
      * apply K. exact Ix.
      * intros new e p y Iy. apply Mono. apply p. exact Iy.
      * apply H. exact Ix.
    + auto.
    + simpl. intros u new [p q] y Iy. apply in_app_iff in Iy.
      destruct Iy as [Iy|[<-|[]]]; auto.
    + auto.
  - intros new _ x [].
Qed.

Lemma stable_keeps {A} (c : M A) :
  (forall I, monotone I -> triple base n0 I c (fun _ => I) I) -> keeps base n0 c.
Proof.
  intros H I MI. eapply triple_conseq; [apply (H I MI)| | |]; unfold any; auto.
Qed.

Lemma create_relation_keeps fb tb r : keeps base n0 (_create_relation fb tb r).
Proof.
  apply stable_keeps. intros I MI. apply create_relation_stable.
  apply monotone_stable. exact MI.
Qed.

Lemma create_bundle_keeps c b : keeps base n0 (_create_bundle c b).
Proof.
  apply stable_keeps. intros I MI.
  apply create_bundle_stable; auto; apply monotone_stable; exact MI.
Qed.

Lemma create_bundle_association_keeps doc c identifier b :
  keeps base n0 (_create_bundle_association doc c identifier b).
Proof.
  apply stable_keeps. intros I MI. apply create_bundle_association_stable.
  apply monotone_stable. exact MI.
Qed.

Lemma create_bundle_links_keeps b map : keeps base n0 (_create_bundle_links b map).
Proof.
  apply stable_keeps. intros I MI. apply create_bundle_links_stable.
  apply monotone_stable. exact MI.
Qed.

Lemma keeps_bind {A B} (c : M A) (k : A -> M B) :
  keeps base n0 c -> (forall a, keeps base n0 (k a)) -> keeps base n0 (bind c k).
Proof.
  intros Kc Kk I MI. apply triple_bind with (Q := fun _ : A => I).
  - apply Kc. exact MI.
  - intros a. apply Kk. exact MI.
Qed.

Lemma keeps_ret {A} (a : A) : keeps base n0 (ret a).
Proof. intros I MI. apply triple_ret. auto. Qed.

Lemma keeps_raise {A} e : keeps base n0 (@raise A e).
Proof. intros I MI. apply triple_raise. auto. Qed.

Lemma keeps_extract r : keeps base n0 (extract r).
Proof. intros I MI. apply triple_lift; auto. Qed.

Lemma keeps_save entry : keeps base n0 (adapter_save entry).
Proof. intros I MI. apply triple_save; auto. Qed.

Lemma create_bundle_saved c b :
  triple base n0 any (_create_bundle c b) (fun _ new => bundle_saved c b new) any.
Proof.
  unfold _create_bundle.
  apply triple_bind
    with (Q := fun (_ : unit) new =>
                 forall r, In r (get_records is_element b) -> node_saved c r new).
  - apply triple_for_each_saved.
    + intros x. apply node_saved_monotone.
    + intros r Ir. apply keeps_bind; [apply keeps_extract|]. intros ma.
      apply keeps_bind; [apply keeps_save|]. intros u. apply keeps_ret.
    + intros r Ir. apply extract_triple. intros metadata attributes E. simpl.
      apply triple_bind with (Q := fun (_ : DbId) new => node_saved c r new);
        [|intros u; apply triple_ret; auto].
      apply triple_save; [|auto].
      intros new _. exists metadata, attributes, (n0 + List.length new).
      split; [exact E|]. apply in_elt.
  - intros u.
    pose (N := fun new : list Event =>
                 forall r, In r (get_records is_element b) -> node_saved c r new).
    pose (saved := fun r new => is_mention r = false -> relation_saved c c r new).
    apply triple_conseq
      with (P := fun new => N new /\ any new)
           (Q := fun (_ : unit) new =>
                   N new /\ forall r, In r (get_records is_relation b) -> saved r new)
           (X := fun new => any new /\ any new); unfold any; auto.
    + apply triple_conj.
      * assert (K : keeps base n0
                      (for_each (get_records is_relation b)
                         (fun relation =>
                            if is_mention relation then ret tt
                            else _create_relation c c relation ;;; ret tt))).
        { apply stable_keeps. intros I MI. apply triple_for_each_inv. intros r Ir.
          destruct (is_mention r); [apply triple_ret; auto|].
          apply triple_bind with (Q := fun _ : DbId => I);
            [|intros x; apply triple_ret; auto].
          apply create_relation_stable. apply monotone_stable. exact MI. }
        apply K. intros new e p r Ir. apply node_saved_monotone. auto.
      * apply triple_for_each_saved.
        -- intros x new e p Mx. apply relation_saved_monotone. auto.
        -- intros r Ir. destruct (is_mention r); [apply keeps_ret|].
           apply keeps_bind; [apply create_relation_keeps|]. intros x. apply keeps_ret.
        -- intros r Ir. unfold saved. destruct (is_mention r).
           ++ apply triple_ret. intros new _ C. discriminate.
           ++ apply triple_bind with (Q := fun (_ : DbId) new => relation_saved c c r new);
                [apply create_relation_saved|].
              intros x. apply triple_ret. auto.
    + intros u' new [Hn Hr]. split.
      * intros r Ir Er. apply Hn. apply filter_In. auto.
      * intros r Ir Er Mr. apply Hr; auto. apply filter_In. auto.
Qed.

Lemma create_bundle_association_saved doc c identifier b :
  triple base n0 any (_create_bundle_association doc c identifier b)
         (fun _ new => members_saved c doc b new) any.
Proof.
  unfold _create_bundle_association.
  apply extract_triple. intros bm ba E.
  destruct (belong_relation_extract _ _ _ E) as [-> _]. simpl.
  apply triple_conseq
    with (P := any)
         (Q := fun (_ : unit) new =>
                 forall r, In r (get_records is_element b) -> member_saved c doc b r new)
         (X := any); auto.
  - apply triple_for_each_saved.
    + intros x. apply member_saved_monotone.
    + intros r Ir. apply keeps_bind; [apply keeps_extract|]. intros ma.
      apply keeps_bind; [apply keeps_save|]. intros u. apply keeps_ret.
    + intros r Ir. apply extract_triple. intros metadata attributes Em. simpl.
      apply triple_bind with (Q := fun (_ : DbId) new => member_saved c doc b r new);
        [|intros u; apply triple_ret; auto].
      apply triple_save; [|auto].
      intros new _.
      exists metadata, attributes, (option_map VQName identifier), bm,
        (n0 + List.length new).
      split; [exact Em|]. apply in_elt.
  - intros u new H r Ir Er. apply H. apply filter_In. auto.
Qed.

Lemma create_bundle_links_saved b map :
  triple base n0 any (_create_bundle_links b map)
         (fun _ new => forall m, In m (bundle_records b) -> is_mention m = true ->
                                 mention_saved map b m new) any.
Proof.
  unfold _create_bundle_links.
  apply bundle_id_map_get_triple_gen; [auto|]. intros fb Gf.
  pose (saved := fun m new => is_mention m = true -> mention_saved map b m new).
  apply triple_conseq
    with (P := any)
         (Q := fun (_ : unit) new =>
                 forall m, In m (get_records is_relation b) -> saved m new)
         (X := any); auto.
  - apply triple_for_each_saved.
    + intros m new e p Mm. apply mention_saved_monotone. auto.
    + intros m Im. destruct (negb (is_mention m)); [apply keeps_ret|].
      destruct (nth_error (formal_attributes m) 2) as [[name to_bundle]|];
        [|apply keeps_raise].
      apply stable_keeps. intros I MI.
      apply bundle_id_map_get_triple. intros tb Itb.
      apply triple_bind with (Q := fun _ : DbId => I);
        [|intros x; apply triple_ret; auto].
      apply create_relation_stable. apply monotone_stable. exact MI.
    + intros m Im. unfold saved. destruct (is_mention m) eqn:Mm; cbn [negb].
      * destruct (nth_error (formal_attributes m) 2) as [[name to_bundle]|] eqn:N;
          [|apply triple_raise; auto].
        apply bundle_id_map_get_triple_gen; [auto|]. intros tb Gt.
        apply triple_bind with (Q := fun (_ : DbId) new => relation_saved fb tb m new);
          [apply create_relation_saved|].
        intros x. apply triple_ret. intros new R _.
        exists fb, tb, name, to_bundle. auto.
      * apply triple_ret. intros new _ C. discriminate.
  - intros u new H m Im Mm. apply H; auto. apply filter_In. split; [exact Im|].
    unfold is_mention in Mm. unfold is_relation.
    destruct (rec_class m); try discriminate. reflexivity.
Qed.
End Completeness.

(* ===================================================================== *)
(** ** The two passes of the materializer *)
(* ===================================================================== *)

Lemma value_eqb_refl v : value_eqb v v = true.
Proof.
  destruct v; simpl; unfold qn_eqb; rewrite ?String.eqb_refl; reflexivity.
Qed.

Lemma value_eqb_sym a b : value_eqb a b = value_eqb b a.
Proof.
  destruct a, b; simpl; auto; unfold qn_eqb;
    rewrite ?(String.eqb_sym s), ?(String.eqb_sym text), ?(String.eqb_sym iso),
      ?(String.eqb_sym (qn_uri q)), ?(String.eqb_sym (qn_uri datatype)); reflexivity.
Qed.

Lemma value_eqb_trans a b c :
  value_eqb a b = true -> value_eqb b c = true -> value_eqb a c = true.
Proof.
  destruct a, b, c; simpl; try discriminate; unfold qn_eqb;
    rewrite ?andb_true_iff, ?String.eqb_eq; intuition congruence.
Qed.

Lemma object_eqb_refl k : object_eqb k k = true.
Proof. destruct k; simpl; [apply value_eqb_refl|reflexivity]. Qed.

Lemma object_eqb_sym a b : object_eqb a b = object_eqb b a.
Proof. destruct a, b; simpl; auto. apply value_eqb_sym. Qed.

Lemma object_eqb_trans a b c :
  object_eqb a b = true -> object_eqb b c = true -> object_eqb a c = true.
Proof.
  destruct a, b, c; simpl; try discriminate; auto. apply value_eqb_trans.
Qed.

Lemma monotone_app I new l : monotone I -> I new -> I (new ++ l).
Proof.
  intros M. induction l as [|x l IH] using rev_ind; intros p.
  - rewrite app_nil_r. exact p.
  - rewrite app_assoc. apply M. apply IH. exact p.
Qed.

Lemma dict_values_in {K V} (d : list (K * V)) v :
  In v (dict_values d) -> exists k, In (k, v) d.
Proof.
  unfold dict_values. intros H. apply in_map_iff in H.
  destruct H as [[k v'] [E I]]. simpl in E. subst. eauto.
Qed.

(** A mention edge of [p1 ++ p2] lies in [p2] when [p1] has none. *)
Lemma mention_split p1 p2 l1 e l2 :
  p1 ++ p2 = l1 ++ e :: l2 -> no_mention p1 -> mention_edge e ->
  exists l1', l1 = p1 ++ l1' /\ p2 = l1' ++ e :: l2.
Proof.
  revert l1. induction p1 as [|x p1 IH]; intros l1 E N M; simpl in *.
  - exists l1. auto.
  - inversion N as [|? ? Nx Np]; subst.
    destruct l1 as [|y l1]; simpl in E; inversion E; subst.
    + contradiction.
    + destruct (IH l1 H1 Np M) as (l1' & -> & ->). exists l1'. auto.
Qed.

Section Passes.
Variable base : list Event.
Variable n0 : nat.
Variable d : ProvDocument.

Lemma pass1_order_snoc new e :
  pass1_order n0 new ->
  (forall c, element_node_in c e -> untouched c new) ->
  (forall c, edge_touching c e -> c < n0 + List.length new) ->
  ~ mention_edge e ->
  pass1_order n0 (new ++ [e]).
Proof.
  intros (N & B & M) Hn He Hm. split; [|split].
  - apply nodes_before_edges_snoc; assumption.
  - rewrite List.length_app. simpl.
    apply edges_below_snoc with (bound := n0 + List.length new); [exact B|lia|].
    intros c T. specialize (He c T). lia.
  - apply no_mention_snoc; assumption.
Qed.

Lemma pass1_frame_monotone doc done map : monotone (pass1_frame n0 d doc done map).
Proof.
  intros new e (D & I & Sv & B & K).
  assert (Len : List.length (new ++ [e]) = S (List.length new))
    by (rewrite List.length_app; simpl; lia).
  split; [rewrite Len; lia|]. split; [apply in_monotone; exact I|].
  split; [apply bundle_saved_monotone; exact Sv|]. split.
  - intros b Ib. destruct (B b Ib) as [c C]. exists c.
    apply bundle_done_monotone. exact C.
  - intros k c Ik. destruct (K k c Ik) as (Lt & Ex & b & Ib & Eb & Db).
    split; [rewrite Len; lia|]. split; [apply exists_monotone; exact Ex|].
    exists b. split; [exact Ib|]. split; [exact Eb|].
    apply bundle_done_monotone. exact Db.
Qed.

Lemma no_mention_held new : no_mention new -> mentions_held d new.
Proof.
  intros M. eapply Forall_impl; [|exact M].
  intros e Ne Me. destruct (Ne Me).
Qed.

(** Pass 1 alone already gives the order: there is no mention edge yet. *)
Lemma pass1_ordered new :
  pass1_order n0 new ->
  nodes_before_edges new /\ mentions_after_pass1 d new /\ mentions_scoped new
  /\ mentions_held d new.
Proof.
  intros (N & _ & M). split; [exact N|].
  split; [|split; [|apply no_mention_held; exact M]].
  - intros l1 e l2 E Me. exfalso. subst new.
    unfold no_mention in M. rewrite Forall_forall in M.
    apply (M e); [apply in_elt|exact Me].
  - intros l1 fb fq tb tq a m rid l2 E Me. exfalso. subst new.
    unfold no_mention in M. rewrite Forall_forall in M.
    apply (M (EvSaveRelation fb fq tb tq a m rid)); [apply in_elt|exact Me].
Qed.

Lemma pass1_frame_complete doc map new :
  pass1_frame n0 d doc (bundles d) map new -> pass1_complete d new.
Proof.
  intros (_ & I & S & B & _). exists doc. auto.
Qed.

Lemma pass1_complete_monotone : monotone (pass1_complete d).
Proof.
  intros new e (doc & I & S & B). exists doc.
  split; [apply in_monotone; exact I|].
  split; [apply bundle_saved_monotone; exact S|].
  intros b Ib. destruct (B b Ib) as [c C]. exists c.
  apply bundle_done_monotone. exact C.
Qed.

Lemma pass2_in_event vals e : pass2_in vals e -> pass2_event e.
Proof.
  intros [P|(fb & fq & tb & tq & a & m & rid & -> & T & _)].
  - right. exact P.
  - left. exact T.
Qed.

Lemma pass2_ordered doc map new :
  pass2_state n0 d doc map new ->
  nodes_before_edges new /\ mentions_after_pass1 d new /\ mentions_scoped new
  /\ mentions_held d new.
Proof.
  intros (p1 & p2 & -> & O & F & P & N & Hd). split; [exact N|].
  split; [|split; [|exact Hd]].
  - intros l1 e l2 E Me.
    destruct (mention_split _ _ _ _ _ E (proj2 (proj2 O)) Me) as (l1' & -> & ->).
    split.
    + apply monotone_app; [apply pass1_complete_monotone|].
      eapply pass1_frame_complete. exact F.
    + apply Forall_app in P. destruct P as [_ P].
      inversion P; subst.
      eapply Forall_impl; [|eassumption]. apply pass2_in_event.
  - intros l1 fb fq tb tq a m rid l2 E Me.
    destruct (mention_split _ _ _ _ _ E (proj2 (proj2 O)) Me) as (l1' & -> & ->).
    apply Forall_app in P. destruct P as [_ P].
    inversion P as [|? ? Pe _]; subst.
    destruct Pe as [Pe|(fb' & fq' & tb' & tq' & a' & m' & rid' & Ee & _ & If & It)].
    + contradiction.
    + inversion Ee; subst.
      destruct F as (_ & _ & _ & _ & K).
      apply dict_values_in in If. destruct If as [kf If].
      apply dict_values_in in It. destruct It as [kt It].
      destruct (K _ _ If) as (_ & Xf & _).
      destruct (K _ _ It) as (_ & Xt & _).
      split; apply Exists_app; left; assumption.
Qed.

(** What each kind of entry is, for the order. *)
Lemma node_event_facts c b e :
  node_event c b e ->
  (forall c', element_node_in c' e -> c' = c)
  /\ (forall c', ~ edge_touching c' e)
  /\ ~ mention_edge e.
Proof.
  intros (r & a & m & rid & _ & _ & _ & ->). simpl.
  split; [intros c' [E _]; auto|]. split; auto.
Qed.

Lemma placeholder_in_facts c e :
  placeholder_in c e ->
  (forall c', ~ element_node_in c' e)
  /\ (forall c', ~ edge_touching c' e)
  /\ ~ mention_edge e /\ placeholder_node e.
Proof.
  intros P. split; [intros c'; eapply placeholder_not_element; exact P|].
  destruct P as (uid & rid & ->). simpl. auto.
Qed.

Lemma relation_phase_event_facts c b e :
  relation_phase_event c b e ->
  (forall c', ~ element_node_in c' e)
  /\ (forall c', edge_touching c' e -> c' = c)
  /\ ~ mention_edge e.
Proof.
  intros [P|(r & _ & R & Mr & fq & tq & a & m & rid & -> & E)].
  - destruct (placeholder_in_facts _ _ P) as (N & T & Me & _).
    split; [exact N|]. split; [|exact Me]. intros c' C. destruct (T c' C).
  - simpl. split; [auto|]. split; [intros c' [<-|<-]; reflexivity|].
    eapply relation_not_mention; eauto.
Qed.

Lemma association_not_mention : PROV_ASSOCIATION <> PROV_MENTION.
Proof. discriminate. Qed.

Lemma membership_event_facts c doc identifier b e :
  membership_event c doc identifier b e ->
  (forall c', ~ element_node_in c' e)
  /\ (forall c', edge_touching c' e -> c' = c \/ c' = doc)
  /\ ~ mention_edge e.
Proof.
  intros (r & a & m & bm & rid & _ & _ & _ & Eb & ->). simpl.
  split; [auto|]. split; [intros c' [<-|<-]; auto|].
  destruct (belong_relation_extract _ _ _ Eb) as [_ T]. rewrite T.
  apply association_not_mention.
Qed.

Lemma link_event_facts map b e :
  link_event map b e ->
  (forall c', ~ element_node_in c' e) /\ pass2_in (dict_values map) e.
Proof.
  intros (fb & tb & If & It & [P|[P|(m & _ & Mm & fq & tq & a & md & rid & -> & E)]]).
  - destruct (placeholder_in_facts _ _ P) as (N & _ & _ & Pn). split; [exact N|].
    left. exact Pn.
  - destruct (placeholder_in_facts _ _ P) as (N & _ & _ & Pn). split; [exact N|].
    left. exact Pn.
  - split; [simpl; auto|]. right.
    exists fb, fq, tb, tq, a, md, rid. split; [reflexivity|].
    split; [eapply mention_type; eauto|]. auto.
Qed.

Lemma link_event_held map b e :
  In b (bundles d) -> link_event map b e -> mention_held d e.
Proof.
  intros Ib (fb & tb & _ & _ & [P|[P|(m & Im & Mm & R)]]) Me.
  - destruct (placeholder_in_facts _ _ P) as (_ & _ & Nm & _). destruct (Nm Me).
  - destruct (placeholder_in_facts _ _ P) as (_ & _ & Nm & _). destruct (Nm Me).
  - exists b, m, fb, tb. auto.
Qed.

(** The invariants of the phases of [_create_bundle] and of
    [_create_bundle_association], with a monotone fact [F] carried along. *)
Lemma node_phase_stable c b F :
  monotone F ->
  stable (node_event c b)
         (fun new => pass1_order n0 new /\ untouched c new
                     /\ c < n0 + List.length new /\ F new).
Proof.
  intros MF new e (O & U & Lt & f) Ev.
  destruct (node_event_facts _ _ _ Ev) as (N & T & Me).
  split; [|split; [|split]].
  - apply pass1_order_snoc; auto.
    + intros c' El. rewrite (N c' El). exact U.
    + intros c' C. destruct (T c' C).
  - apply untouched_snoc; auto.
  - rewrite List.length_app. simpl. lia.
  - apply MF. exact f.
Qed.

Lemma relation_phase_stable c b F :
  monotone F ->
  stable (relation_phase_event c b)
         (fun new => pass1_order n0 new /\ c < n0 + List.length new /\ F new).
Proof.
  intros MF new e (O & Lt & f) Ev.
  destruct (relation_phase_event_facts _ _ _ Ev) as (N & T & Me).
  split; [|split].
  - apply pass1_order_snoc; auto.
    + intros c' El. destruct (N c' El).
    + intros c' C. rewrite (T c' C). exact Lt.
  - rewrite List.length_app. simpl. lia.
  - apply MF. exact f.
Qed.

Lemma membership_phase_stable c doc identifier b F :
  monotone F ->
  stable (membership_event c doc identifier b)
         (fun new => pass1_order n0 new /\ c < n0 + List.length new
                     /\ doc < n0 + List.length new /\ F new).
Proof.
  intros MF new e (O & Lt & Ld & f) Ev.
  destruct (membership_event_facts _ _ _ _ _ Ev) as (N & T & Me).
  split; [|split; [|split]].
  - apply pass1_order_snoc; auto.
    + intros c' El. destruct (N c' El).
    + intros c' C. destruct (T c' C) as [->| ->]; assumption.
  - rewrite List.length_app. simpl. lia.
  - rewrite List.length_app. simpl. lia.
  - apply MF. exact f.
Qed.

Lemma pass2_stable doc map b F :
  In b (bundles d) ->
  monotone F ->
  stable (link_event map b) (fun new => pass2_state n0 d doc map new /\ F new).
Proof.
  intros Ib MF new e [(p1 & p2 & -> & O & Fr & P & N & Hd) f] Ev.
  destruct (link_event_facts _ _ _ Ev) as (Ne & Pe).
  split; [|apply MF; exact f].
  exists p1, (p2 ++ [e]). split; [rewrite app_assoc; reflexivity|].
  split; [exact O|]. split; [exact Fr|]. split; [|split].
  - apply Forall_app. split; [exact P|]. constructor; [exact Pe|constructor].
  - apply nodes_before_edges_snoc; [exact N|].
    intros c El. destruct (Ne c El).
  - apply Forall_app. split; [exact Hd|].
    constructor; [eapply link_event_held; eauto|constructor].
Qed.

Let ordered (new : list Event) : Prop :=
  nodes_before_edges new /\ mentions_after_pass1 d new /\ mentions_scoped new
  /\ mentions_held d new.

Let any : list Event -> Prop := fun _ => True.

(** [_create_bundle] on a container that no edge touches yet. *)
Lemma create_bundle_pass1 c b F :
  monotone F ->
  triple base n0
         (fun new => pass1_order n0 new /\ untouched c new
                     /\ c < n0 + List.length new /\ F new)
         (_create_bundle c b)
         (fun _ new => pass1_order n0 new /\ c < n0 + List.length new
                       /\ F new /\ bundle_saved c b new)
         (pass1_order n0).
Proof.
  intros MF.
  pose (J := fun new => pass1_order n0 new /\ untouched c new
                        /\ c < n0 + List.length new /\ F new).
  pose (K := fun new => pass1_order n0 new /\ c < n0 + List.length new /\ F new).
  apply triple_conseq
    with (P := fun new => J new /\ any new)
         (Q := fun (_ : unit) new => K new /\ bundle_saved c b new)
         (X := fun new => K new /\ any new).
  - apply triple_conj.
    + apply create_bundle_stable.
      * apply node_phase_stable. exact MF.
      * apply relation_phase_stable. exact MF.
      * unfold J, K. tauto.
    + apply create_bundle_saved.
  - unfold J, any. tauto.
  - unfold K. tauto.
  - unfold K. tauto.
Qed.

Lemma create_bundle_association_pass1 doc c identifier b F :
  monotone F ->
  triple base n0
         (fun new => pass1_order n0 new /\ c < n0 + List.length new
                     /\ doc < n0 + List.length new /\ F new)
         (_create_bundle_association doc c identifier b)
         (fun _ new => pass1_order n0 new /\ F new /\ members_saved c doc b new)
         (pass1_order n0).
Proof.
  intros MF.
  pose (I := fun new => pass1_order n0 new /\ c < n0 + List.length new
                        /\ doc < n0 + List.length new /\ F new).
  apply triple_conseq
    with (P := fun new => I new /\ any new)
         (Q := fun (_ : unit) new => I new /\ members_saved c doc b new)
         (X := fun new => I new /\ any new).
  - apply triple_conj.
    + apply create_bundle_association_stable.
      apply membership_phase_stable. exact MF.
    + apply create_bundle_association_saved.
  - unfold I, any. tauto.
  - unfold I. tauto.
  - unfold I. tauto.
Qed.

Lemma pass1_order_other new e :
  pass1_order n0 new ->
  (forall c, ~ element_node_in c e) -> (forall c, ~ edge_touching c e) ->
  ~ mention_edge e ->
  pass1_order n0 (new ++ [e]).
Proof.
  intros O N T Me. apply pass1_order_snoc; auto.
  - intros c El. destruct (N c El).
  - intros c C. destruct (T c C).
Qed.

(** Lines 146-157 for one bundle. *)
Lemma create_one_bundle_pass1 doc pre map b :
  triple base n0
         (fun new => pass1_order n0 new /\ pass1_frame n0 d doc pre map new)
         (create_one_bundle doc map b)
         (fun map' new => pass1_order n0 new
                          /\ pass1_frame n0 d doc (pre ++ [b]) map' new)
         (pass1_order n0).
Proof.
  unfold create_one_bundle.
  change (valid_qualified_name (bundle_namespaces b)
            (format_bundle_identifier (bundle_identifier b)))
    with (custom_bundle_identifier b).
  apply extract_triple_gen; [tauto|]. intros metadata attributes E. simpl.
  pose (F := fun c new => pass1_frame n0 d doc pre map new
                          /\ container_of doc b c new
                          /\ Exists (bundle_issued c) new).
  assert (MF : forall c, monotone (F c)).
  { intros c new e (Fr & Co & Ex). split; [|split].
    - apply pass1_frame_monotone. exact Fr.
    - apply container_of_monotone. exact Co.
    - apply exists_monotone. exact Ex. }
  apply triple_bind
    with (Q := fun c new => pass1_order n0 new /\ untouched c new
                            /\ c < n0 + List.length new /\ F c new).
  { apply triple_save; [|tauto].
    intros new [O Fr].
    split; [|split; [|split; [|split; [|split]]]].
    - apply pass1_order_other; simpl; auto.
    - apply untouched_snoc; [|simpl; auto].
      intros e Ie T. destruct O as (_ & B & _). specialize (B e _ Ie T). lia.
    - rewrite List.length_app. simpl. lia.
    - apply pass1_frame_monotone. exact Fr.
    - exists attributes, metadata. split; [exact E|]. apply in_elt.
    - apply Exists_app. right. constructor. reflexivity. }
  intros c.
  apply triple_bind
    with (Q := fun (_ : unit) new =>
                 pass1_order n0 new /\ c < n0 + List.length new
                 /\ F c new /\ bundle_saved c b new).
  { apply create_bundle_pass1. apply MF. }
  intros u.
  apply triple_bind
    with (Q := fun (_ : unit) new =>
                 pass1_order n0 new
                 /\ (F c new /\ bundle_saved c b new /\ c < n0 + List.length new)
                 /\ members_saved c doc b new).
  { eapply triple_conseq.
    - apply (create_bundle_association_pass1 doc c (custom_bundle_identifier b) b
               (fun new => F c new /\ bundle_saved c b new
                           /\ c < n0 + List.length new)).
      intros new e (f & Sv & Lt). split; [apply MF; exact f|].
      split; [apply bundle_saved_monotone; exact Sv|].
      rewrite List.length_app. simpl. lia.
    - intros new (O & Lt & (Fr & Co & Ex) & Sv).
      destruct Fr as (Ld & Fr). unfold F, pass1_frame. tauto.
    - auto.
    - auto. }
  intros u'. apply triple_ret.
  intros new (O & ((Fr & Co & Ex) & Sv & Lt) & Ms).
  split; [exact O|].
  destruct Fr as (Ld & Id & Sd & B & K).
  assert (Done : bundle_done doc b c new) by (unfold bundle_done; auto).
  split; [exact Ld|]. split; [exact Id|]. split; [exact Sd|]. split.
  - intros b' Ib. apply in_app_iff in Ib. destruct Ib as [Ib|[<-|[]]].
    + apply B. exact Ib.
    + exists c. exact Done.
  - intros k c' Ik.
    apply (dict_update_in _ _ object_eqb object_eqb_refl) in Ik.
    destruct Ik as [Ik|[-> Ek]].
    + destruct (K k c' Ik) as (Lt' & Ex' & b' & Ib' & Eb' & Db').
      split; [exact Lt'|]. split; [exact Ex'|].
      exists b'. split; [apply in_or_app; auto|]. auto.
    + split; [exact Lt|]. split; [exact Ex|].
      exists b. split; [apply in_elt|]. split; [|exact Done].
      unfold bundle_key. rewrite object_eqb_sym. exact Ek.
Qed.

Lemma pass1_order_nil : pass1_order n0 [].
Proof.
  split; [|split].
  - intros l1 e l2 n l3 c E. destruct l1; discriminate.
  - intros e c [].
  - constructor.
Qed.

(** Pass 2 for one bundle. *)
Lemma create_bundle_links_pass2 doc map b F :
  In b (bundles d) ->
  monotone F ->
  triple base n0
         (fun new => pass2_state n0 d doc map new /\ F new)
         (_create_bundle_links b map)
         (fun _ new => pass2_state n0 d doc map new /\ F new
                       /\ forall m, In m (bundle_records b) -> is_mention m = true ->
                                    mention_saved map b m new)
         ordered.
Proof.
  intros Ib MF.
  pose (I := fun new => pass2_state n0 d doc map new /\ F new).
  apply triple_conseq
    with (P := fun new => I new /\ any new)
         (Q := fun (_ : unit) new =>
                 I new /\ forall m, In m (bundle_records b) -> is_mention m = true ->
                                    mention_saved map b m new)
         (X := fun new => I new /\ any new).
  - apply triple_conj.
    + apply create_bundle_links_stable. apply pass2_stable; [exact Ib|exact MF].
    + apply create_bundle_links_saved.
  - unfold I, any. tauto.
  - unfold I. tauto.
  - unfold I. intros new [[P _] _]. eapply pass2_ordered. exact P.
Qed.

Lemma mentions_saved_intro doc map new :
  pass2_state n0 d doc map new ->
  (forall b, In b (bundles d) ->
             forall m, In m (bundle_records b) -> is_mention m = true ->
                       mention_saved map b m new) ->
  mentions_saved d doc new.
Proof.
  intros (p1 & p2 & -> & _ & Fr & _ & _) H b m Ib Im Mm.
  destruct (H b Ib m Im Mm) as (fb & tb & name & to_bundle & Gf & N & Gt & R).
  destruct Fr as (_ & _ & _ & _ & K).
  apply dict_get_some_in in Gf. destruct Gf as (kf & If & Ef).
  apply dict_get_some_in in Gt. destruct Gt as (kt & It & Et).
  destruct (K _ _ If) as (_ & _ & b1 & Ib1 & E1 & (C1 & _)).
  destruct (K _ _ It) as (_ & _ & b2 & Ib2 & E2 & (C2 & _)).
  exists b1, b2, fb, tb, name, to_bundle.
  split; [exact N|]. split; [exact Ib1|].
  split; [eapply object_eqb_trans; eauto|]. split; [exact Ib2|].
  split; [eapply object_eqb_trans; eauto|].
  split; [apply monotone_app; [apply container_of_monotone|exact C1]|].
  split; [apply monotone_app; [apply container_of_monotone|exact C2]|].
  exact R.
Qed.

(** Lines 139-162. *)
Lemma materialize_triple :
  triple base n0 (fun new => new = []) (materialize d)
         (fun doc new => ordered new /\ mentions_saved d doc new)
         ordered.
Proof.
  assert (O1 : forall new, pass1_order n0 new -> ordered new).
  { intros new O. apply pass1_ordered. exact O. }
  unfold materialize.
  apply triple_bind
    with (Q := fun doc new => pass1_order n0 new /\ untouched doc new
                              /\ doc < n0 + List.length new
                              /\ In (EvSaveDocument doc) new).
  { apply triple_save.
    - intros new ->. simpl. split; [|split; [|split]].
      + apply (pass1_order_other [] (EvSaveDocument (n0 + 0))); simpl; auto.
        apply pass1_order_nil.
      + intros e [<-|[]]. simpl. auto.
      + lia.
      + auto.
    - intros new ->. apply O1. apply pass1_order_nil. }
  intros doc.
  apply triple_bind
    with (Q := fun (_ : unit) new =>
                 pass1_order n0 new /\ pass1_frame n0 d doc [] [] new).
  { eapply triple_conseq.
    - apply (create_bundle_pass1 doc (doc_bundle d) (In (EvSaveDocument doc))).
      apply in_monotone.
    - auto.
    - intros u new (O & Lt & I & Sv). split; [exact O|].
      split; [exact Lt|]. split; [exact I|]. split; [exact Sv|].
      split; [intros b []|intros k c []].
    - exact O1. }
  intros u.
  apply triple_bind
    with (Q := fun map new =>
                 pass1_order n0 new /\ pass1_frame n0 d doc (bundles d) map new).
  { eapply triple_conseq.
    - apply (triple_for_each_acc base n0 (create_one_bundle doc)
               (fun done map new =>
                  pass1_order n0 new /\ pass1_frame n0 d doc done map new)
               (pass1_order n0) (bundles d) [] []).
      intros pre b post map E _. apply create_one_bundle_pass1.
    - auto.
    - auto.
    - exact O1. }
  intros map.
  pose (J := fun (done : list ProvBundle) new =>
               pass2_state n0 d doc map new
               /\ forall b, In b done ->
                            forall m, In m (bundle_records b) -> is_mention m = true ->
                                      mention_saved map b m new).
  apply triple_bind with (Q := fun (_ : unit) new => J (bundles d) new).
  { eapply triple_conseq.
    - apply (triple_for_each base n0
               (fun bundle => _create_bundle_links bundle map) J ordered
               (bundles d) []).
      intros pre b post E _. unfold J.
      eapply triple_conseq.
      + apply (create_bundle_links_pass2 doc map b
                 (fun new => forall b', In b' pre ->
                               forall m, In m (bundle_records b') -> is_mention m = true ->
                                         mention_saved map b' m new)).
        * simpl in E. rewrite E. apply in_elt.
        * intros new e H b' Ib m Im Mm. apply mention_saved_monotone. auto.
      + auto.
      + intros u' new (P & Fp & Fb). split; [exact P|].
        intros b' Ib. apply in_app_iff in Ib. destruct Ib as [Ib|[<-|[]]]; auto.
      + auto.
    - intros new [O Fr]. unfold J. split; [|intros b []].
      exists new, []. rewrite app_nil_r.
      split; [reflexivity|]. split; [exact O|]. split; [exact Fr|].
      split; [constructor|].
      split; [destruct O; assumption|].
      apply no_mention_held. destruct O as (_ & _ & M). exact M.
    - auto.
    - auto. }
  intros u'. apply triple_ret. unfold J. intros new [P H].
  split; [eapply pass2_ordered; exact P|].
  eapply mentions_saved_intro; eauto.
Qed.
End Passes.
(* ===================================================================== *)
(** ** Every relation written, with the placeholders of its endpoints *)
(* ===================================================================== *)

Lemma relation_written_monotone r : monotone (relation_written r).
Proof.
  intros new e (fb & tb & l1 & block & l2 & -> & B).
  exists fb, tb, l1, block, (l2 ++ [e]). split; [|exact B].
  rewrite <- !app_assoc. reflexivity.
Qed.

Lemma endpoint_entries_ok c q w v w' :
  endpoint c q w = (Ok v, w') ->
  exists l, store w' = store w ++ l /\ endpoint_entries c q v l.
Proof.
  intros H. apply endpoint_ok in H.
  destruct H as [(x & -> & -> & ->)|(-> & -> & S & _)].
  - exists []. rewrite app_nil_r. simpl. auto.
  - eexists. split; [exact S|]. simpl. eauto.
Qed.

Lemma create_relation_run fb tb r w rid w' :
  _create_relation fb tb r w = (Ok rid, w') ->
  exists block, store w' = store w ++ block /\ relation_block fb tb r block.
Proof.
  intros H.
  destruct (firstn 2 (formal_attributes r)) as [|ft [|tt [|x l]]] eqn:F;
    try (unfold _create_relation in H; rewrite F in H; discriminate H).
  destruct (create_relation_ok _ _ _ _ _ _ _ _ F H)
    as (w1 & w2 & fq & tq & metadata & attributes & E1 & E2 & E & _ & S & _).
  apply endpoint_entries_ok in E1. destruct E1 as (before & S1 & B1).
  apply endpoint_entries_ok in E2. destruct E2 as (after & S2 & B2).
  eexists. split.
  - rewrite S, S2, S1. rewrite <- !app_assoc. reflexivity.
  - exists ft, tt, before, after, fq, tq, attributes, metadata, rid. auto.
Qed.

Lemma firstn_two_second {A} (l : list A) a b :
  firstn 2 l = [a; b] -> nth_error l 1 = Some b.
Proof.
  destruct l as [|x [|y l]]; simpl; intros H; inversion H. reflexivity.
Qed.

Lemma split_same {A} (l1 : list A) x l2 :
  forall l1' y l2',
    l1 ++ x :: l2 = l1' ++ y :: l2' ->
    l1 = l1' \/ (exists m, l1' = l1 ++ x :: m) \/ (exists m, l1 = l1' ++ y :: m).
Proof.
  induction l1 as [|a l1 IH]; intros [|b l1'] y l2' H; simpl in *.
  - left. reflexivity.
  - right. left. inversion H. exists l1'. reflexivity.
  - right. right. inversion H. exists l1. reflexivity.
  - inversion H as [[Ha Ht]]. subst b.
    destruct (IH _ _ _ Ht) as [->|[[m ->]|[m ->]]].
    + left. reflexivity.
    + right. left. exists m. reflexivity.
    + right. right. exists m. reflexivity.
Qed.

Section Written.
Variable base : list Event.
Variable n0 : nat.

Let any : list Event -> Prop := fun _ => True.

Lemma create_relation_written fb tb r :
  triple base n0 any (_create_relation fb tb r)
         (fun _ new => relation_written r new) any.
Proof.
  intros w new res w' L _ E.
  destruct (create_relation_keeps base n0 fb tb r any (fun _ _ _ => I) w new res w' L I E)
    as (new' & L' & _).
  exists new'. split; [exact L'|].
  destruct res as [rid|e]; [|exact I].
  destruct (create_relation_run _ _ _ _ _ _ E) as (block & S & B).
  destruct L as [L _]. destruct L' as [L' _].
  rewrite L', L, <- app_assoc in S. apply app_inv_head in S. subst new'.
  exists fb, tb, new, block, []. rewrite app_nil_r. auto.
Qed.

Lemma relation_loop_written c b :
  triple base n0 any
         (for_each (get_records is_relation b) (fun relation =>
            if is_mention relation then ret tt
            else _create_relation c c relation ;;; ret tt))
         (fun _ new => forall r, In r (get_records is_relation b) ->
                                 is_mention r = false -> relation_written r new)
         any.
Proof.
  apply (triple_for_each_saved
           base n0 _ (fun r new => is_mention r = false -> relation_written r new)).
  - intros x new e p Mx. apply relation_written_monotone. auto.
  - intros r Ir. destruct (is_mention r); [apply keeps_ret|].
    apply keeps_bind; [apply create_relation_keeps|]. intros x. apply keeps_ret.
  - intros r Ir. destruct (is_mention r).
    + apply triple_ret. intros new _ C. discriminate.
    + apply triple_bind with (Q := fun (_ : DbId) new => relation_written r new);
        [apply create_relation_written|].
      intros x. apply triple_ret. auto.
Qed.

Lemma create_bundle_written c b :
  triple base n0 any (_create_bundle c b)
         (fun _ new => forall r, In r (bundle_records b) -> is_relation r = true ->
                                 is_mention r = false -> relation_written r new)
         any.
Proof.
  unfold _create_bundle.
  apply triple_bind with (Q := fun (_ : unit) => any).
  - apply triple_for_each_inv. intros r Ir.
    apply extract_triple. intros metadata attributes E. simpl.
    apply triple_bind with (Q := fun _ : DbId => any);
      [|intros u; apply triple_ret; auto].
    apply triple_save; unfold any; auto.
  - intros u. eapply triple_conseq; [apply relation_loop_written| | |]; auto.
    intros u' new H r Ir Rl Mr. apply H; [|exact Mr]. apply filter_In. auto.
Qed.

Lemma create_bundle_links_written b bundle_id_map :
  triple base n0 any (_create_bundle_links b bundle_id_map)
         (fun _ new => forall m, In m (bundle_records b) -> is_mention m = true ->
                                 relation_written m new)
         any.
Proof.
  unfold _create_bundle_links.
  apply bundle_id_map_get_triple_gen; [auto|]. intros fb Gf.
  pose (saved := fun m new => is_mention m = true -> relation_written m new).
  apply triple_conseq
    with (P := any)
         (Q := fun (_ : unit) new =>
                 forall m, In m (get_records is_relation b) -> saved m new)
         (X := any); auto.
  - apply triple_for_each_saved.
    + intros m new e p Mm. apply relation_written_monotone. auto.
    + intros m Im. destruct (negb (is_mention m)); [apply keeps_ret|].
      destruct (nth_error (formal_attributes m) 2) as [[name to_bundle]|];
        [|apply keeps_raise].
      apply stable_keeps. intros I MI.
      apply bundle_id_map_get_triple. intros tb Itb.
      apply triple_bind with (Q := fun _ : DbId => I);
        [|intros x; apply triple_ret; auto].
      apply create_relation_stable. apply monotone_stable. exact MI.
    + intros m Im. unfold saved. destruct (is_mention m) eqn:Mm; cbn [negb].
      * destruct (nth_error (formal_attributes m) 2) as [[name to_bundle]|] eqn:N;
          [|apply triple_raise; auto].
        apply bundle_id_map_get_triple_gen; [auto|]. intros tb Gt.
        apply triple_bind with (Q := fun (_ : DbId) new => relation_written m new);
          [apply create_relation_written|].
        intros x. apply triple_ret. auto.
      * apply triple_ret. intros new _ C. discriminate.
  - intros u new H m Im Mm. apply H; auto. apply filter_In. split; [exact Im|].
    unfold is_mention in Mm. unfold is_relation.
    destruct (rec_class m); try discriminate. reflexivity.
Qed.

Lemma create_one_bundle_keeps doc bundle_id_map b :
  keeps base n0 (create_one_bundle doc bundle_id_map b).
Proof.
  unfold create_one_bundle.
  apply keeps_bind; [apply keeps_extract|]. intros ma.
  apply keeps_bind; [apply keeps_save|]. intros c.
  apply keeps_bind; [apply create_bundle_keeps|]. intros u.
  apply keeps_bind; [apply create_bundle_association_keeps|]. intros u'.
  apply keeps_ret.
Qed.

Lemma create_one_bundle_written doc bundle_id_map b :
  triple base n0 any (create_one_bundle doc bundle_id_map b)
         (fun _ new => forall r, In r (bundle_records b) -> is_relation r = true ->
                                 is_mention r = false -> relation_written r new)
         any.
Proof.
  pose (W := fun new : list Event =>
               forall r, In r (bundle_records b) -> is_relation r = true ->
                         is_mention r = false -> relation_written r new).
  assert (MW : monotone W).
  { intros new e H r Ir Rl Mr. apply relation_written_monotone. auto. }
  unfold create_one_bundle.
  apply extract_triple_gen; [auto|]. intros metadata attributes _. simpl.
  apply triple_bind with (Q := fun (_ : DbId) => any);
    [apply triple_save; unfold any; auto|].
  intros c.
  apply triple_bind with (Q := fun (_ : unit) => W);
    [apply create_bundle_written|].
  intros u.
  apply triple_bind with (Q := fun (_ : unit) => W).
  - eapply triple_conseq;
      [apply (create_bundle_association_keeps base n0 _ _ _ _ W MW)| | |]; auto.
  - intros u'. apply triple_ret. auto.
Qed.

(** Lines 139-162. *)
Lemma materialize_written d :
  triple base n0 (fun new => new = []) (materialize d)
         (fun _ new => forall r, written d r -> is_relation r = true ->
                                 relation_written r new)
         any.
Proof.
  pose (T := fun new : list Event =>
               forall r, In r (bundle_records (doc_bundle d)) -> is_relation r = true ->
                         is_mention r = false -> relation_written r new).
  pose (B := fun (done : list ProvBundle) (new : list Event) =>
               forall b, In b done ->
                         forall r, In r (bundle_records b) -> is_relation r = true ->
                                   is_mention r = false -> relation_written r new).
  pose (K := fun (done : list ProvBundle) (new : list Event) =>
               forall b, In b done ->
                         forall m, In m (bundle_records b) -> is_mention m = true ->
                                   relation_written m new).
  assert (MT : monotone T).
  { intros new e H r Ir Rl Mr. apply relation_written_monotone. auto. }
  assert (MB : forall done, monotone (B done)).
  { intros done new e H b Ib r Ir Rl Mr. apply relation_written_monotone.
    apply (H b Ib r); auto. }
  assert (MK : forall done, monotone (K done)).
  { intros done new e H b Ib m Im Mm. apply relation_written_monotone.
    apply (H b Ib m); auto. }
  unfold materialize.
  apply triple_bind with (Q := fun (_ : DbId) => any);
    [apply triple_save; unfold any; auto|].
  intros doc.
  apply triple_bind with (Q := fun (_ : unit) => T);
    [apply create_bundle_written|].
  intros u.
  apply triple_bind
    with (Q := fun (_ : BundleIdMap) new => T new /\ B (bundles d) new).
  { eapply triple_conseq.
    - apply (triple_for_each_acc
               base n0 (create_one_bundle doc)
               (fun done (_ : BundleIdMap) new => T new /\ B done new)
               any (bundles d) [] []).
      intros pre b post s _ _.
      eapply triple_conseq.
      + apply (keeps_conj base n0 (create_one_bundle doc s b)
                          (fun _ new =>
                             forall r, In r (bundle_records b) -> is_relation r = true ->
                                       is_mention r = false -> relation_written r new)
                          (fun new => T new /\ B pre new)).
        * apply create_one_bundle_keeps.
        * intros new e [Ht Hb]. split; [apply MT; exact Ht|apply MB; exact Hb].
        * apply create_one_bundle_written.
      + auto.
      + simpl. intros s' new [[Ht Hb] Hn]. split; [exact Ht|].
        intros b' Ib. apply in_app_iff in Ib. destruct Ib as [Ib|[<-|[]]].
        * exact (Hb b' Ib).
        * exact Hn.
      + auto.
    - intros new Ht. split; [exact Ht|]. intros b [].
    - auto.
    - auto. }
  intros bundle_id_map.
  apply triple_bind
    with (Q := fun (_ : unit) new =>
                 T new /\ B (bundles d) new /\ K (bundles d) new).
  { eapply triple_conseq.
    - apply (triple_for_each
               base n0 (fun bundle => _create_bundle_links bundle bundle_id_map)
               (fun done new => T new /\ B (bundles d) new /\ K done new)
               any (bundles d) []).
      intros pre b post _ _.
      eapply triple_conseq.
      + apply (keeps_conj base n0 (_create_bundle_links b bundle_id_map)
                          (fun _ new =>
                             forall m, In m (bundle_records b) -> is_mention m = true ->
                                       relation_written m new)
                          (fun new => T new /\ B (bundles d) new /\ K pre new)).
        * apply create_bundle_links_keeps.
        * intros new e (Ht & Hb & Hk).
          split; [apply MT; exact Ht|]. split; [apply MB; exact Hb|apply MK; exact Hk].
        * apply create_bundle_links_written.
      + auto.
      + simpl. intros u' new [(Ht & Hb & Hk) Hn].
        split; [exact Ht|]. split; [exact Hb|].
        intros b' Ib. apply in_app_iff in Ib. destruct Ib as [Ib|[<-|[]]].
        * exact (Hk b' Ib).
        * exact Hn.
      + auto.
    - intros new [Ht Hb]. split; [exact Ht|]. split; [exact Hb|]. intros b [].
    - auto.
    - auto. }
  intros u'. apply triple_ret. intros new (Ht & Hb & Hk) r W Rl.
  destruct W as [[Ir [El|[_ Mr]]]|(b & Ib & Ir & _)].
  - unfold is_element in El. unfold is_relation in Rl.
    destruct (rec_class r); discriminate.
  - apply Ht; assumption.
  - destruct (is_mention r) eqn:Mr.
    + apply (Hk b Ib r Ir Mr).
    + apply (Hb b Ib r Ir Rl Mr).
Qed.
End Written.

(** What a materialization that returns has written. *)
Lemma materialize_written_run d w doc w' :
  materialize d w = (Ok doc, w') ->
  exists new,
    store w' = store w ++ new
    /\ forall r, written d r -> is_relation r = true -> relation_written r new.
Proof.
  intros E.
  destruct (materialize_written (store w) (next_id w) d w [] (Ok doc) w')
    as (new & [L _] & H).
  - split; [rewrite app_nil_r; reflexivity|simpl; lia].
  - reflexivity.
  - exact E.
  - exists new. auto.
Qed.


(* ===================================================================== *)
(** ** The materializer as a whole *)
(* ===================================================================== *)

(** What a run of [materialize] has saved, whatever its outcome. *)
Lemma materialize_run d w :
  exists new,
    store (snd (materialize d w)) = store w ++ new
    /\ nodes_before_edges new
    /\ mentions_after_pass1 d new
    /\ mentions_scoped new
    /\ mentions_held d new
    /\ (forall doc, fst (materialize d w) = Ok doc -> mentions_saved d doc new).
Proof.
  destruct (materialize d w) as [r w'] eqn:E.
  destruct (materialize_triple (store w) (next_id w) d w [] r w') as (new & [L _] & H).
  - split; [rewrite app_nil_r; reflexivity|simpl; lia].
  - reflexivity.
  - exact E.
  - exists new. simpl. split; [exact L|].
    destruct r as [doc|e].
    + destruct H as [(N & A & Sc & Hd) Sv].
      split; [exact N|]. split; [exact A|]. split; [exact Sc|]. split; [exact Hd|].
      intros doc' D. inversion D; subst. exact Sv.
    + destruct H as (N & A & Sc & Hd).
      split; [exact N|]. split; [exact A|]. split; [exact Sc|]. split; [exact Hd|].
      intros doc' D. discriminate.
Qed.

(** C8.  Among the entries that a materialization saves, no element node of
    a container comes after an edge touching that container, and every
    mention edge comes after the complete pass 1 (the document, every bundle,
    their nodes, their relations other than mentions, and the membership
    edges) and is followed by entries of pass 2 only. *)
Theorem materialization_order d w :
  exists new,
    store (snd (materialize d w)) = store w ++ new
    /\ nodes_before_edges new
    /\ mentions_after_pass1 d new.
Proof.
  destruct (materialize_run d w) as (new & S & N & A & _).
  exists new. auto.
Qed.

(** Mentions held in bundles.  Every mention edge that a materialization saves lies
    between two containers that [save_bundle] issued earlier in the same run;
    and when the materialization succeeds, every mention held in a bundle of
    the document has been saved as an edge from the container of that bundle
    to the container of the bundle it names. *)
Theorem mention_edges_between_bundles d w :
  exists new,
    store (snd (materialize d w)) = store w ++ new
    /\ mentions_scoped new
    /\ (forall doc, fst (materialize d w) = Ok doc -> mentions_saved d doc new).
Proof.
  destruct (materialize_run d w) as (new & S & _ & _ & Sc & _ & Sv).
  exists new. auto.
Qed.

Lemma mention_edges_between_bundles_witness :
  fst (materialize document_bundle_mention empty_world) = Ok 0
  /\ exists new,
      store (snd (materialize document_bundle_mention empty_world))
      = store empty_world ++ new
      /\ mentions_scoped new
      /\ mentions_saved document_bundle_mention 0 new.
Proof.
  split; [vm_compute; reflexivity|].
  destruct (mention_edges_between_bundles document_bundle_mention empty_world)
    as (new & S & Sc & Sv).
  exists new. split; [exact S|]. split; [exact Sc|].
  apply Sv. vm_compute. reflexivity.
Defined.

(** C2.  Every mention edge that a materialization saves is the edge of a
    mention that one of the document's bundles holds, so that a mention held
    by the document itself is not saved.  At a failing input: with the bundle
    [ex:b1] holding one entity and a mention at top level that names it, the
    materialization succeeds and saves no mention edge: the edge that the
    claim expects is missing. *)
Theorem top_level_mention_not_saved :
  (forall d w,
      exists new,
        store (snd (materialize d w)) = store w ++ new /\ mentions_held d new)
  /\ fst (materialize document_top_level_mention empty_world) = Ok 0
  /\ Forall (fun e => ~ mention_edge e)
            (store (snd (materialize document_top_level_mention empty_world)))
  /\ forall fb tb,
      ~ relation_saved fb tb (mentionOf sample_document_ns "e1" "e2" "b1")
          (store (snd (materialize document_top_level_mention empty_world))).
Proof.
  assert (F : Forall (fun e => ~ mention_edge e)
                     (store (snd (materialize document_top_level_mention empty_world)))).
  { vm_compute. repeat constructor; intros H; try exact H; discriminate H. }
  split.
  { intros d w. destruct (materialize_run d w) as (new & S & _ & _ & _ & Hd & _).
    exists new. auto. }
  split; [vm_compute; reflexivity|]. split; [exact F|].
  intros fb tb (fq & tq & m & a & rid & E & I).
  rewrite Forall_forall in F. apply (F _ I). simpl.
  eapply mention_type; [|exact E]. reflexivity.
Qed.

(** C1, at a failing input: the document with a mention at top level is
    materialized and read back without error, and the mention is gone.  At
    another one: of the two values that an entity has under one attribute,
    only the last is passed to the adapter, and only that one comes back. *)
Theorem round_trip_drops_top_level_mention :
  (exists doc,
      fst (materialize document_top_level_mention empty_world) = Ok 0
      /\ fst (get_document_as_prov json_nothing (Some 0)
                (snd (materialize document_top_level_mention empty_world))) = Ok doc
      /\ List.length (bundle_records (doc_bundle document_top_level_mention)) = 2
      /\ List.length (bundle_records (doc_bundle doc)) = 1
      /\ Forall (fun r => is_mention r = false) (all_records doc))
  /\ (exists doc metadata,
         materialize document_two_values empty_world
         = (Ok 0, mkWorld 2 None 0
                          [EvSaveDocument 0;
                           EvSaveRecord 0 [(KQName (ex "tag"), VStr "b")] metadata 1])
         /\ fst (get_document_as_prov json_nothing (Some 0)
                   (snd (materialize document_two_values empty_world))) = Ok doc
         /\ map rec_attributes (bundle_records (doc_bundle document_two_values))
            = [[(KQName (ex "tag"), VStr "a"); (KQName (ex "tag"), VStr "b")]]
         /\ map rec_attributes (bundle_records (doc_bundle doc))
            = [[(KQName (ex "tag"), VStr "b")]]).
Proof.
  split.
  - eexists. split; [vm_compute; reflexivity|].
    split; [vm_compute; reflexivity|].
    split; [reflexivity|]. split; [reflexivity|].
    repeat constructor.
  - eexists. eexists. split; [vm_compute; reflexivity|].
    split; [vm_compute; reflexivity|].
    split; reflexivity.
Qed.

(** C7, at a failing input: a mention that names a bundle the document does
    not have makes [create_document] raise [KeyError] after pass 1 has been
    saved; and the text variants raise the [ParseException] of the parser as
    it is. *)
Theorem untyped_error_escapes :
  fst (create_document parse_nothing (ContentDocument document_missing_bundle)
                       empty_world) = Raise KeyError
  /\ List.length
       (store (snd (create_document parse_nothing
                                    (ContentDocument document_missing_bundle)
                                    empty_world))) = 5
  /\ (forall text w,
         create_document_from_json parse_nothing (ContentText text) w
         = (Raise ParseException, w)).
Proof.
  split; [vm_compute; reflexivity|]. split; [vm_compute; reflexivity|].
  intros text w. reflexivity.
Qed.

(* ===================================================================== *)
(** ** Membership edges *)
(* ===================================================================== *)

Lemma belong_attributes_stored metadata :
  is_membership_raw (stored_record belong_attributes metadata) = true.
Proof. reflexivity. Qed.

(** What [_create_bundle_association] saves. *)
Lemma create_bundle_association_run doc c identifier b w :
  exists new,
    store (snd (_create_bundle_association doc c identifier b w)) = store w ++ new
    /\ Forall (membership_event c doc identifier b) new.
Proof.
  destruct (_create_bundle_association doc c identifier b w) as [r w'] eqn:E.
  destruct (create_bundle_association_stable (store w) (next_id w) doc c identifier b
              (Forall (membership_event c doc identifier b))) with (w := w) (new := @nil Event)
                                                                  (r := r) (w' := w')
    as (new & [L _] & H).
  - intros new e F A. apply Forall_app. split; [exact F|]. constructor; [exact A|constructor].
  - split; [rewrite app_nil_r; reflexivity|simpl; lia].
  - constructor.
  - exact E.
  - exists new. simpl. split; [exact L|]. destruct r; exact H.
Qed.

(** C4, amended.  Every entry that [_create_bundle_association] saves is an
    edge from the bundle's container to the document's, whose stored
    attributes carry the label belongsToBundle under [prov:label]; the
    reconstructor skips every raw record so labelled, so a document is
    reconstructed as if these records had never been stored. *)
Theorem membership_edges_invisible json_load :
  (forall doc c identifier b w,
      exists new,
        store (snd (_create_bundle_association doc c identifier b w)) = store w ++ new
        /\ Forall (fun e => exists fq tq metadata rid,
                       e = EvSaveRelation c fq doc tq belong_attributes metadata rid
                       /\ is_membership_raw (stored_record belong_attributes metadata) = true)
                  new)
  /\ (forall b raw, is_membership_raw raw = true -> _parse_record json_load b raw = Ok b)
  /\ (forall raw_doc,
         reconstruct json_load raw_doc
         = reconstruct json_load (drop_raw is_membership_raw raw_doc)).
Proof.
  split; [|split].
  - intros doc c identifier b w.
    destruct (create_bundle_association_run doc c identifier b w) as (new & S & F).
    exists new. split; [exact S|].
    eapply Forall_impl; [|exact F].
    intros e (r & a & m & bm & rid & _ & _ & _ & _ & ->).
    exists (Some (VQName (md_identifier m))), (option_map VQName identifier), bm, rid.
    split; reflexivity.
  - intros b raw. apply parse_record_membership.
  - intros raw_doc. apply reconstruct_drop. intros b raw. apply parse_record_membership.
Qed.

(** C4 as stated fails: an attribute other than the label may hold the text
    belongsToBundle, and it comes back with the record. *)
Lemma membership_text_in_other_attribute :
  exists doc r key,
    fst (get_document_as_prov json_nothing (Some 0)
           (snd (materialize document_note empty_world))) = Ok doc
    /\ In r (all_records doc)
    /\ In (key, VStr "belongsToBundle") (rec_attributes r).
Proof.
  eexists. eexists. eexists.
  split; [vm_compute; reflexivity|].
  split; [left; reflexivity|]. left. reflexivity.
Qed.

(* ===================================================================== *)
(** ** The theorems at sample inputs *)
(* ===================================================================== *)

Lemma extract_errors_witness :
  identifier_unresolvable
    (mkProvRecord (ClsElement ProvEntity) sample_document_ns
                  (Some (IdStr "not:a:resolvable:value")) [])
  /\ _get_metadata_and_attributes_for_record
       (ObjRecord (mkProvRecord (ClsElement ProvEntity) sample_document_ns
                                (Some (IdStr "not:a:resolvable:value")) []))
     = Raise InvalidProvRecordException.
Proof.
  assert (U : identifier_unresolvable
                (mkProvRecord (ClsElement ProvEntity) sample_document_ns
                              (Some (IdStr "not:a:resolvable:value")) [])).
  { exists "not:a:resolvable:value". split; reflexivity. }
  split; [exact U|].
  apply (proj1 (proj2 extract_errors)). left. exact U.
Defined.


Lemma placeholder_per_missing_endpoint_witness :
  firstn 2 (formal_attributes (attribution_without_endpoints sample_document_ns))
  = [(PROV_ATTR_ENTITY, None); (PROV_ATTR_AGENT, None)]
  /\ _get_metadata_and_attributes_for_record
       (ObjRecord (attribution_without_endpoints sample_document_ns))
     = Ok (mkMetadata PROV_ATTRIBUTION PROV_ATTRIBUTION
                      [("prov", "http://www.w3.org/ns/prov#");
                       ("ex", "http://example.org/")] [],
           [(KQName (ex "role"), VStr "ex:author")])
  /\ fault empty_world = None
  /\ exists rid w',
      _create_relation 0 0 (attribution_without_endpoints sample_document_ns) empty_world
      = (Ok rid, w')
      /\ store w'
         = [EvSaveRecord 0 [] (placeholder_metadata 0) 0;
            EvSaveRecord 0 [] (placeholder_metadata 1) 1;
            EvSaveRelation 0 (Some (VQName (placeholder_identifier 0)))
                           0 (Some (VQName (placeholder_identifier 1)))
                           [(KQName (ex "role"), VStr "ex:author")]
                           (mkMetadata PROV_ATTRIBUTION PROV_ATTRIBUTION
                                       [("prov", "http://www.w3.org/ns/prov#");
                                        ("ex", "http://example.org/")] [])
                           rid]
      /\ placeholder_identifier 0 <> placeholder_identifier 1.
Proof.
  assert (F : firstn 2 (formal_attributes (attribution_without_endpoints sample_document_ns))
              = [(PROV_ATTR_ENTITY, None); (PROV_ATTR_AGENT, None)])
    by reflexivity.
  assert (E : _get_metadata_and_attributes_for_record
                (ObjRecord (attribution_without_endpoints sample_document_ns))
              = Ok (mkMetadata PROV_ATTRIBUTION PROV_ATTRIBUTION
                               [("prov", "http://www.w3.org/ns/prov#");
                                ("ex", "http://example.org/")] [],
                    [(KQName (ex "role"), VStr "ex:author")]))
    by reflexivity.
  split; [exact F|]. split; [exact E|]. split; [reflexivity|].
  destruct placeholder_per_missing_endpoint as (_ & _ & _ & _ & B & _).
  exact (B 0 0 _ _ _ _ _ empty_world F E eq_refl).
Defined.

Lemma anonymous_relation_convention_witness :
  exists metadata attributes b' x,
    _get_metadata_and_attributes_for_record
      (ObjRecord (generation_without_activity sample_document_ns "e1"))
    = Ok (metadata, attributes)
    /\ md_identifier metadata = PROV_GENERATION
    /\ is_membership_raw (stored_record attributes metadata) = false
    /\ _parse_record json_nothing (mkProvBundle None sample_document_ns [])
                     (stored_record attributes metadata) = Ok b'
    /\ bundle_records b' = [x]
    /\ rec_class x = ClsRelation ProvGeneration
    /\ rec_identifier x = None.
Proof.
  destruct (anonymous_relation_convention json_nothing) as (A & _ & C).
  destruct (_get_metadata_and_attributes_for_record
              (ObjRecord (generation_without_activity sample_document_ns "e1")))
    as [[metadata attributes]|e] eqn:E; [|vm_compute in E; discriminate E].
  destruct (A (generation_without_activity sample_document_ns "e1") ProvGeneration
              _ _ eq_refl eq_refl E) as [T I].
  assert (L : is_membership_raw (stored_record attributes metadata) = false).
  { vm_compute in E. inversion E; subst. reflexivity. }
  destruct (_parse_record json_nothing (mkProvBundle None sample_document_ns [])
                          (stored_record attributes metadata)) as [b'|e] eqn:P;
    [|vm_compute in E; inversion E; subst; vm_compute in P; discriminate P].
  destruct (C (generation_without_activity sample_document_ns "e1") ProvGeneration
              _ _ _ _ eq_refl eq_refl E L P) as (x & R & K & N).
  exists metadata, attributes, b', x. auto 10.
Defined.

Lemma membership_edges_invisible_witness :
  is_membership_raw
    (stored_record belong_attributes
                   (mkMetadata PROV_ASSOCIATION PROV_ASSOCIATION
                               [("prov", "http://www.w3.org/ns/prov#")] [])) = true
  /\ _parse_record json_nothing (mkProvBundle None sample_document_ns [])
                   (stored_record belong_attributes
                                  (mkMetadata PROV_ASSOCIATION PROV_ASSOCIATION
                                              [("prov", "http://www.w3.org/ns/prov#")] []))
     = Ok (mkProvBundle None sample_document_ns []).
Proof.
  split; [reflexivity|].
  apply (proj1 (proj2 (membership_edges_invisible json_nothing))). reflexivity.
Defined.
(* ===================================================================== *)
(** ** More on the extractor: what its dictionaries hold *)
(* ===================================================================== *)

Section LastValue.
Variables K V : Type.
Variable eqb : K -> K -> bool.
Hypothesis eqb_refl : forall k, eqb k k = true.
Hypothesis eqb_sym : forall a b, eqb a b = eqb b a.
Hypothesis eqb_trans : forall a b c, eqb a b = true -> eqb b c = true -> eqb a c = true.

Lemma dict_get_update_eq (d : list (K * V)) k v k' :
  eqb k k' = true -> dict_get eqb (dict_update eqb d k v) k' = Some v.
Proof.
  intros E. induction d as [|[k0 v0] d IH]; simpl.
  - rewrite E. reflexivity.
  - destruct (eqb k0 k) eqn:E0; simpl.
    + rewrite (eqb_trans _ _ _ E0 E). reflexivity.
    + destruct (eqb k0 k') eqn:E1; [|exact IH].
      rewrite (eqb_sym k k') in E. rewrite (eqb_trans _ _ _ E1 E) in E0. discriminate.
Qed.

Lemma dict_get_fold (items : list (K * V)) acc k :
  dict_get eqb (fold_left (fun d kv => dict_update eqb d (fst kv) (snd kv)) items acc) k
  = match last_value eqb items k with
    | Some v => Some v
    | None => dict_get eqb acc k
    end.
Proof.
  revert acc. induction items as [|[k0 v0] items IH]; intros acc; simpl; [reflexivity|].
  rewrite IH. destruct (last_value eqb items k); [reflexivity|].
  destruct (eqb k0 k) eqn:E.
  - apply dict_get_update_eq. exact E.
  - apply (dict_get_update_other _ _ eqb eqb_sym eqb_trans). exact E.
Qed.

Lemma dict_get_of_items (items : list (K * V)) k :
  dict_get eqb (dict_of_items eqb items) k = last_value eqb items k.
Proof.
  unfold dict_of_items. rewrite dict_get_fold.
  destruct (last_value eqb items k); reflexivity.
Qed.

Lemma last_value_in (items : list (K * V)) k v :
  last_value eqb items k = Some v -> exists k', In (k', v) items /\ eqb k' k = true.
Proof.
  induction items as [|[k0 v0] items IH]; simpl; [discriminate|].
  destruct (last_value eqb items k) as [v'|].
  - intros H. destruct (IH H) as (k' & I & E). exists k'. auto.
  - destruct (eqb k0 k) eqn:E; [|discriminate].
    intros H. inversion H; subst. exists k0. auto.
Qed.

Lemma last_value_last (l1 l2 : list (K * V)) k0 v k :
  eqb k0 k = true ->
  (forall k' v', In (k', v') l2 -> eqb k' k = false) ->
  last_value eqb (l1 ++ (k0, v) :: l2) k = Some v.
Proof.
  intros E N.
  assert (L2 : last_value eqb l2 k = None).
  { destruct (last_value eqb l2 k) as [x|] eqn:L; [|reflexivity].
    apply last_value_in in L. destruct L as (k' & I & E').
    rewrite (N _ _ I) in E'. discriminate. }
  induction l1 as [|[k1 v1] l1 IH]; simpl.
  - rewrite L2, E. reflexivity.
  - rewrite IH. reflexivity.
Qed.

Lemma last_value_some (items : list (K * V)) k0 v :
  In (k0, v) items -> exists v', last_value eqb items k0 = Some v'.
Proof.
  induction items as [|[k1 v1] items IH]; simpl; [intros []|].
  intros [H|H].
  - inversion H; subst. destruct (last_value eqb items k0); [eauto|].
    rewrite eqb_refl. eauto.
  - destruct (IH H) as [v' ->]. eauto.
Qed.

Lemma dict_update_length (d : list (K * V)) k v :
  List.length (dict_update eqb d k v) <= S (List.length d).
Proof.
  induction d as [|[k0 v0] d IH]; simpl; [lia|].
  destruct (eqb k0 k); simpl; lia.
Qed.

Lemma dict_of_items_length (items : list (K * V)) :
  List.length (dict_of_items eqb items) <= List.length items.
Proof.
  unfold dict_of_items.
  assert (G : forall acc,
             List.length (fold_left (fun d kv => dict_update eqb d (fst kv) (snd kv))
                                    items acc)
             <= List.length acc + List.length items).
  { induction items as [|kv items IH]; intros acc; simpl; [lia|].
    specialize (IH (dict_update eqb acc (fst kv) (snd kv))).
    pose proof (dict_update_length acc (fst kv) (snd kv)). lia. }
  apply (G []).
Qed.
End LastValue.

Lemma string_eqb_sym (a b : string) : String.eqb a b = String.eqb b a.
Proof. apply String.eqb_sym. Qed.

Lemma fold_use_namespace_items names used :
  fold_left use_namespace names used
  = fold_left (fun d kv => dict_update String.eqb d (fst kv) (snd kv))
              (namespace_items names) used.
Proof.
  revert used. induction names as [|q names IH]; intros used; simpl; [reflexivity|].
  apply IH.
Qed.

Lemma attribute_types_items items types_dict :
  attribute_types items types_dict
  = fold_left (fun d kv => dict_update String.eqb d (fst kv) (snd kv))
              (typed_items items) types_dict.
Proof.
  revert types_dict. induction items as [|[key value] items IH]; intros types_dict;
    simpl; [reflexivity|].
  rewrite IH. rewrite fold_left_app. simpl.
  destruct (key_in_PROV_ATTRIBUTES key); [reflexivity|].
  destruct (encode_json_representation value); reflexivity.
Qed.

(** X1.  The attributes that extraction returns hold no two equal keys, and
    under each key the last of the values that the record gives for it: the
    earlier values of an attribute with several values are not passed on. *)
Theorem attributes_last_value r metadata attributes :
  _get_metadata_and_attributes_for_record (ObjRecord r) = Ok (metadata, attributes) ->
  dict_ok key_eqb attributes
  /\ (forall k, dict_get key_eqb attributes k = last_value key_eqb (rec_attributes r) k)
  /\ (forall k v, In (k, v) attributes ->
                  last_value key_eqb (rec_attributes r) k = Some v)
  /\ List.length attributes <= List.length (rec_attributes r).
Proof.
  intros E. destruct (extract_inv _ _ _ E) as (_ & _ & -> & _).
  assert (D : dict_ok key_eqb (dict_of_items key_eqb (rec_attributes r))).
  { apply dict_of_items_ok; first [apply key_eqb_refl | apply key_eqb_trans]. }
  assert (G : forall k, dict_get key_eqb (dict_of_items key_eqb (rec_attributes r)) k
                        = last_value key_eqb (rec_attributes r) k).
  { intros k. apply dict_get_of_items;
      first [apply key_eqb_sym | apply key_eqb_trans]. }
  split; [exact D|]. split; [exact G|]. split.
  - intros k v I. rewrite <- G.
    apply (dict_get_in _ _ key_eqb key_eqb_refl); assumption.
  - apply dict_of_items_length.
Qed.

(** X2.  The namespaces that extraction returns give, for each prefix, the
    URI of the last name with that prefix among the names the record uses
    (its type, its identifier, then its attribute keys and values in order):
    every entry comes from such a name, and of two names with one prefix and
    different URIs only the URI of the later one is kept. *)
Theorem namespaces_last_name r metadata attributes :
  _get_metadata_and_attributes_for_record (ObjRecord r) = Ok (metadata, attributes) ->
  (forall p, dict_get String.eqb (md_namespaces metadata) p
             = last_value String.eqb (namespace_items (record_names r metadata)) p)
  /\ (forall p u, dict_get String.eqb (md_namespaces metadata) p = Some u ->
                  exists q, In q (record_names r metadata)
                            /\ ns_prefix (qn_namespace q) = p
                            /\ ns_uri (qn_namespace q) = u)
  /\ (forall l1 q l2,
         record_names r metadata = l1 ++ q :: l2 ->
         (forall q', In q' l2 ->
                     ns_prefix (qn_namespace q') <> ns_prefix (qn_namespace q)) ->
         dict_get String.eqb (md_namespaces metadata) (ns_prefix (qn_namespace q))
         = Some (ns_uri (qn_namespace q))).
Proof.
  intros E. destruct (extract_inv _ _ _ E) as (_ & _ & _ & N & _).
  assert (G : forall p, dict_get String.eqb (md_namespaces metadata) p
                        = last_value String.eqb
                                     (namespace_items (record_names r metadata)) p).
  { intros p. rewrite N, fold_use_namespace_items.
    rewrite (dict_get_fold _ _ String.eqb string_eqb_sym string_eqb_trans).
    destruct (last_value _ _ _); reflexivity. }
  split; [exact G|]. split.
  - intros p u H. rewrite G in H. apply last_value_in in H.
    destruct H as (p' & I & Ep). unfold namespace_items in I.
    apply in_map_iff in I. destruct I as (q & Eq & I).
    inversion Eq; subst. apply String.eqb_eq in Ep.
    exists q. auto.
  - intros l1 q l2 L D. rewrite G, L. unfold namespace_items.
    rewrite map_app. simpl.
    apply last_value_last; [apply String.eqb_refl|].
    intros p' u' I. apply in_map_iff in I. destruct I as (q' & Eq & I).
    inversion Eq; subst. apply String.eqb_neq. apply D. exact I.
Qed.

(** X3.  The type map that extraction returns has an entry only for the text
    of an attribute key that is not in [PROV_ATTRIBUTES] and whose value has a
    type tag, and it has one for every such attribute; under a text it holds
    the tag of the last such attribute with that text. *)
Theorem type_map_entries r metadata attributes :
  _get_metadata_and_attributes_for_record (ObjRecord r) = Ok (metadata, attributes) ->
  (forall s, dict_get String.eqb (md_type_map metadata) s
             = last_value String.eqb (typed_items attributes) s)
  /\ (forall s t, dict_get String.eqb (md_type_map metadata) s = Some t ->
                  exists key value,
                    In (key, value) attributes /\ key_str key = s
                    /\ key_in_PROV_ATTRIBUTES key = false
                    /\ encode_json_representation value = Some t)
  /\ (forall key value t,
         In (key, value) attributes ->
         key_in_PROV_ATTRIBUTES key = false ->
         encode_json_representation value = Some t ->
         exists t', dict_get String.eqb (md_type_map metadata) (key_str key) = Some t').
Proof.
  intros E. destruct (extract_inv _ _ _ E) as (_ & _ & _ & _ & T).
  assert (G : forall s, dict_get String.eqb (md_type_map metadata) s
                        = last_value String.eqb (typed_items attributes) s).
  { intros s. rewrite T, attribute_types_items.
    rewrite (dict_get_fold _ _ String.eqb string_eqb_sym string_eqb_trans).
    destruct (last_value _ _ _); reflexivity. }
  split; [exact G|]. split.
  - intros s t H. rewrite G in H. apply last_value_in in H.
    destruct H as (s' & I & Es). apply String.eqb_eq in Es. subst s'.
    unfold typed_items in I. apply in_flat_map in I.
    destruct I as ([key value] & I & J). simpl in J.
    destruct (key_in_PROV_ATTRIBUTES key) eqn:P; [destruct J|].
    destruct (encode_json_representation value) as [t'|] eqn:C; [|destruct J].
    destruct J as [J|[]]. inversion J; subst.
    exists key, value. auto.
  - intros key value t I P C. rewrite G.
    apply (last_value_some _ _ String.eqb String.eqb_refl) with (v := t).
    unfold typed_items. apply in_flat_map. exists (key, value).
    split; [exact I|]. simpl. rewrite P, C. left. reflexivity.
Qed.

Lemma substring_all (s : string) : String.substring 0 (String.length s) s = s.
Proof. induction s as [|c s IH]; simpl; [reflexivity|]. rewrite IH. reflexivity. Qed.

Lemma drop_bundle_prefix (s : string) :
  drop_chars (String.length PROV_API_BUNDLE_IDENTIFIER_PREFIX - 2) ("prov:bundle:" ++ s) = s.
Proof. unfold drop_chars. simpl. rewrite Nat.sub_0_r. apply substring_all. Qed.

Lemma custom_bundle_identifier_prov b :
  custom_bundle_identifier b
  = Some (prov_qn ("bundle:" ++ format_identifier (bundle_identifier b))).
Proof.
  unfold custom_bundle_identifier, format_bundle_identifier.
  exact (valid_prov (bundle_namespaces b)
                    ("bundle:" ++ format_identifier (bundle_identifier b))).
Qed.

Lemma bundle_record_extractable b :
  extractable (bundle_record b (custom_bundle_identifier b)).
Proof.
  destruct (extract_cases (bundle_record b (custom_bundle_identifier b)))
    as [[[C|C] _]|[_ H]]; [| |exact H].
  - destruct C as (s & C & _). rewrite custom_bundle_identifier_prov in C.
    discriminate C.
  - exfalso. unfold bundle_record in C. simpl in C.
    destruct (bundle_identifier b); inversion C as [? ? K|? ? K]; subst;
      try exact K; inversion K.
Qed.

(** X4.  For every bundle, the identifier under which [create_document] saves
    it resolves in the prov namespace to [prov:bundle:] followed by the text
    of the bundle's identifier; extraction accepts the bundle record, typed
    [prov:Bundle] by [ProvBundleRecord.get_type]; and the slice that
    [get_document_as_prov] takes of the stored identifier gives the text of
    the bundle's identifier back. *)
Theorem bundle_identifier_round_trip (bundle : ProvBundle) :
  custom_bundle_identifier bundle
  = Some (prov_qn ("bundle:" ++ format_identifier (bundle_identifier bundle)))
  /\ exists metadata attributes,
      _get_metadata_and_attributes_for_record
        (ObjRecord (bundle_record bundle (custom_bundle_identifier bundle)))
      = Ok (metadata, attributes)
      /\ md_prov_type metadata = PROV_BUNDLE
      /\ qn_str (md_identifier metadata)
         = ("prov:bundle:" ++ format_identifier (bundle_identifier bundle))%string
      /\ drop_chars (String.length PROV_API_BUNDLE_IDENTIFIER_PREFIX - 2)
                    (qn_str (md_identifier metadata))
         = format_identifier (bundle_identifier bundle).
Proof.
  split; [apply custom_bundle_identifier_prov|].
  destruct (bundle_record_extractable bundle) as [[metadata attributes] E].
  exists metadata, attributes. split; [exact E|].
  destruct (extract_inv _ _ _ E) as (T & I & _).
  unfold record_identifier in I. simpl in I.
  rewrite custom_bundle_identifier_prov in I. simpl in I.
  inversion T as [T']. inversion I as [I'].
  split; [reflexivity|]. split; [reflexivity|].
  apply drop_bundle_prefix.
Qed.

(* ===================================================================== *)
(** ** Outcomes of the materializer *)
(* ===================================================================== *)

Lemma outcome_ret {A} (a : A) (Q : A -> Prop) S : Q a -> outcome (ret a) Q S.
Proof. intros q w r w' H. inversion H; subst. auto. Qed.

Lemma outcome_raise {A} e (Q : A -> Prop) (S : Exn -> Prop) :
  S e -> e <> DatabaseException -> outcome (@raise A e) Q S.
Proof.
  intros s n w r w' H. inversion H; subst.
  split; [auto|]. split; [exact s|]. intros C. contradiction.
Qed.

Lemma outcome_bind {A B} (c : M A) (k : A -> M B) Q R S :
  outcome c Q S -> (forall a, Q a -> outcome (k a) R S) -> outcome (bind c k) R S.
Proof.
  intros Hc Hk w r w' H. apply bind_run in H.
  destruct H as [(a & w1 & C & K)|(e & C & ->)].
  - destruct (Hc _ _ _ C) as [F1 q]. destruct (Hk a q _ _ _ K) as [F2 p].
    split; [auto|]. destruct r as [b|e]; [exact p|].
    destruct p as [s D]. split; [exact s|].
    intros E N. apply (D E). auto.
  - destruct (Hc _ _ _ C) as [F1 p]. split; [exact F1|exact p].
Qed.

Lemma outcome_conseq {A} (c : M A) (Q Q' : A -> Prop) (S S' : Exn -> Prop) :
  outcome c Q S -> (forall a, Q a -> Q' a) -> (forall e, S e -> S' e) ->
  outcome c Q' S'.
Proof.
  intros H HQ HS w r w' E. destruct (H _ _ _ E) as [F p].
  split; [exact F|]. destruct r as [a|e]; [auto|].
  destruct p as [s D]. auto.
Qed.

Lemma outcome_save entry (S : Exn -> Prop) :
  S DatabaseException -> outcome (adapter_save entry) (fun _ => True) S.
Proof.
  intros s w r w' H. unfold adapter_save in H.
  destruct (fault w) as [[|n]|] eqn:F; inversion H; subst; simpl.
  - split; [intros C; first [discriminate C|rewrite F in C; discriminate C]|].
    split; [exact s|].
    intros _ C. first [discriminate C|rewrite F in C; discriminate C].
  - split; [intros C; first [discriminate C|rewrite F in C; discriminate C]|exact I].
  - split; [reflexivity|exact I].
Qed.

Lemma outcome_unknown_node c (S : Exn -> Prop) :
  S DatabaseException -> outcome (_create_unknown_node c) (fun _ => True) S.
Proof.
  intros s w r w' H. rewrite create_unknown_node_run in H.
  destruct (fault w) as [[|n]|] eqn:F; inversion H; subst; simpl.
  - split; [intros C; first [discriminate C|rewrite F in C; discriminate C]|].
    split; [exact s|].
    intros _ C. first [discriminate C|rewrite F in C; discriminate C].
  - split; [intros C; first [discriminate C|rewrite F in C; discriminate C]|exact I].
  - split; [reflexivity|exact I].
Qed.

Lemma outcome_extract {A} r (k : Metadata * dict AttrKey Value -> M A) R
      (S : Exn -> Prop) :
  (forall ma, _get_metadata_and_attributes_for_record (ObjRecord r) = Ok ma ->
              outcome (k ma) R S) ->
  (~ extractable r -> S InvalidProvRecordException) ->
  outcome (bind (extract r) k) R S.
Proof.
  intros Hk Hs w x w' H. unfold bind, extract, lift in H.
  destruct (extract_cases r) as [[_ E]|[_ [ma E]]]; rewrite E in H.
  - inversion H; subst. split; [auto|]. split; [|discriminate].
    apply Hs. intros [ma C]. rewrite E in C. discriminate.
  - exact (Hk ma E _ _ _ H).
Qed.

Lemma outcome_for_each {A} (xs : list A) (body : A -> M unit) (P : A -> Prop) S :
  (forall x, In x xs -> outcome (body x) (fun _ => P x) S) ->
  outcome (for_each xs body) (fun _ => forall x, In x xs -> P x) S.
Proof.
  induction xs as [|y xs IH]; simpl; intros H.
  - apply outcome_ret. intros x [].
  - eapply outcome_bind; [apply H; left; reflexivity|].
    intros u p. eapply outcome_conseq.
    + apply IH. intros x Ix. apply H. right. exact Ix.
    + simpl. intros _ q x [<-|Ix]; auto.
    + auto.
Qed.

Lemma outcome_for_each_acc {A Sv} (body : Sv -> A -> M Sv)
      (J : list A -> Sv -> Prop) S :
  forall xs done acc,
    (forall pre x acc, In x xs -> J pre acc ->
                       outcome (body acc x) (J (pre ++ [x])) S) ->
    J done acc ->
    outcome (for_each_acc xs acc body) (J (done ++ xs)) S.
Proof.
  induction xs as [|y xs IH]; intros done acc H j; simpl.
  - apply outcome_ret. rewrite app_nil_r. exact j.
  - eapply outcome_bind; [apply (H done y acc); [left; reflexivity|exact j]|].
    intros acc' j'.
    replace (done ++ y :: xs) with ((done ++ [y]) ++ xs)
      by (rewrite <- app_assoc; reflexivity).
    apply IH; [|exact j'].
    intros pre x a Ix. apply H. right. exact Ix.
Qed.

Lemma outcome_endpoint c q (S : Exn -> Prop) :
  S DatabaseException -> outcome (endpoint c q) (fun _ => True) S.
Proof.
  intros s. destruct q as [v|]; simpl; [apply outcome_ret; exact I|].
  eapply outcome_bind; [apply outcome_unknown_node; exact s|].
  intros a _. apply outcome_ret. exact I.
Qed.

Lemma outcome_map_get bundle_id_map key (S : Exn -> Prop) :
  (dict_get object_eqb bundle_id_map key = None -> S KeyError) ->
  outcome (bundle_id_map_get bundle_id_map key)
          (fun c => dict_get object_eqb bundle_id_map key = Some c) S.
Proof.
  intros s. unfold bundle_id_map_get.
  destruct (dict_get object_eqb bundle_id_map key) as [c|].
  - apply outcome_ret. reflexivity.
  - apply outcome_raise; [auto|discriminate].
Qed.

(** The library gives every relation two formal attributes at least, and a
    mention a third, the bundle. *)
Lemma relation_two_formal r :
  is_relation r = true -> exists a b, firstn 2 (formal_attributes r) = [a; b].
Proof.
  unfold is_relation, formal_attributes, FORMAL_ATTRIBUTES.
  destruct (rec_class r) as [k|k| |]; try discriminate.
  intros _. destruct k; simpl; eauto.
Qed.

Lemma mention_third m :
  is_mention m = true ->
  nth_error (formal_attributes m) 2
  = Some (PROV_ATTR_BUNDLE, first_value m PROV_ATTR_BUNDLE).
Proof.
  unfold is_mention, formal_attributes, FORMAL_ATTRIBUTES.
  destruct (rec_class m) as [k|k| |]; try discriminate.
  destruct k; try discriminate. reflexivity.
Qed.

Lemma mention_is_relation m : is_mention m = true -> is_relation m = true.
Proof.
  unfold is_mention, is_relation. destruct (rec_class m) as [k|k| |]; auto.
Qed.

Lemma belong_relation_extractable b : extractable (belong_relation b).
Proof.
  destruct (extract_cases (belong_relation b)) as [[[C|C] _]|[_ H]]; [| |exact H].
  - destruct C as (s & C & _). discriminate C.
  - exfalso. inversion C as [? ? K|? ? K]; subst; [exact K|inversion K].
Qed.

Lemma outcome_create_relation fb tb r (S : Exn -> Prop) :
  is_relation r = true ->
  S DatabaseException ->
  (~ extractable r -> S InvalidProvRecordException) ->
  outcome (_create_relation fb tb r) (fun _ => extractable r) S.
Proof.
  intros R sd si. destruct (relation_two_formal r R) as (a & b & F).
  unfold _create_relation. rewrite F.
  eapply outcome_bind; [apply outcome_endpoint; exact sd|]. intros fq _.
  eapply outcome_bind; [apply outcome_endpoint; exact sd|]. intros tq _.
  apply outcome_extract; [|exact si]. intros ma E.
  eapply outcome_conseq; [apply outcome_save; exact sd| |auto].
  intros _ _. exists ma. exact E.
Qed.

Lemma outcome_create_bundle c b (S : Exn -> Prop) :
  S DatabaseException ->
  (forall r, In r (bundle_records b) ->
             is_element r = true \/ (is_relation r = true /\ is_mention r = false) ->
             ~ extractable r -> S InvalidProvRecordException) ->
  outcome (_create_bundle c b)
          (fun _ => forall r, In r (bundle_records b) ->
                              is_element r = true
                              \/ (is_relation r = true /\ is_mention r = false) ->
                              extractable r) S.
Proof.
  intros sd si. unfold _create_bundle.
  eapply outcome_bind.
  - apply (outcome_for_each _ _ extractable). intros x Ix.
    apply filter_In in Ix. destruct Ix as [Ix El].
    apply outcome_extract; [|apply si; auto].
    intros ma E. eapply outcome_bind; [apply outcome_save; exact sd|].
    intros id _. apply outcome_ret. exists ma. exact E.
  - intros u N. eapply outcome_conseq.
    + apply (outcome_for_each _ _ (fun x => is_mention x = false -> extractable x)).
      intros x Ix. apply filter_In in Ix. destruct Ix as [Ix Rl].
      destruct (is_mention x) eqn:Mx; [apply outcome_ret; discriminate|].
      eapply outcome_bind.
      * apply outcome_create_relation; [exact Rl|exact sd|]. apply si; auto.
      * intros id Ex. apply outcome_ret. intros _. exact Ex.
    + simpl. intros _ Rq r Ir [El|[Rl Mr]].
      * apply N. apply filter_In. auto.
      * apply Rq; [apply filter_In; auto|exact Mr].
    + auto.
Qed.

Lemma outcome_create_bundle_association doc c identifier b (S : Exn -> Prop) :
  S DatabaseException ->
  (forall r, In r (bundle_records b) -> is_element r = true ->
             ~ extractable r -> S InvalidProvRecordException) ->
  outcome (_create_bundle_association doc c identifier b) (fun _ => True) S.
Proof.
  intros sd si. unfold _create_bundle_association.
  apply outcome_extract;
    [|intros C; destruct (C (belong_relation_extractable b))].
  intros belong _. eapply outcome_conseq.
  - apply (outcome_for_each _ _ (fun _ => True)). intros x Ix.
    apply filter_In in Ix. destruct Ix as [Ix El].
    apply outcome_extract; [|apply si; auto].
    intros ma _. eapply outcome_bind; [apply outcome_save; exact sd|].
    intros id _. apply outcome_ret. exact I.
  - auto.
  - auto.
Qed.

Lemma outcome_create_bundle_links b bundle_id_map (S : Exn -> Prop) :
  S DatabaseException ->
  (forall m, In m (bundle_records b) -> is_mention m = true ->
             ~ extractable m -> S InvalidProvRecordException) ->
  (dict_get object_eqb bundle_id_map (bundle_key b) = None -> S KeyError) ->
  (forall m, In m (bundle_records b) -> is_mention m = true ->
             dict_get object_eqb bundle_id_map (first_value m PROV_ATTR_BUNDLE) = None ->
             S KeyError) ->
  outcome (_create_bundle_links b bundle_id_map)
          (fun _ => forall m, In m (bundle_records b) -> is_mention m = true ->
                              extractable m
                              /\ exists c, dict_get object_eqb bundle_id_map
                                                    (first_value m PROV_ATTR_BUNDLE)
                                           = Some c) S.
Proof.
  intros sd si kf kt. unfold _create_bundle_links.
  eapply outcome_bind; [apply outcome_map_get; exact kf|]. intros fb _.
  eapply outcome_conseq.
  - apply (outcome_for_each
             _ _ (fun m => is_mention m = true ->
                           extractable m
                           /\ exists c, dict_get object_eqb bundle_id_map
                                                 (first_value m PROV_ATTR_BUNDLE)
                                        = Some c)).
    intros m Im. apply filter_In in Im. destruct Im as [Im Rl].
    destruct (is_mention m) eqn:Mm; cbn [negb]; [|apply outcome_ret; discriminate].
    rewrite (mention_third m Mm).
    eapply outcome_bind; [apply outcome_map_get; apply kt; assumption|].
    intros tb Gt. eapply outcome_bind.
    + apply outcome_create_relation; [exact Rl|exact sd|]. apply si; assumption.
    + intros id Ex. apply outcome_ret. intros _. split; [exact Ex|].
      exists tb. exact Gt.
  - simpl. intros _ H m Im Mm. apply H; [|exact Mm].
    apply filter_In. split; [exact Im|]. apply mention_is_relation. exact Mm.
  - auto.
Qed.

Lemma dict_get_equiv {K V} (eqb : K -> K -> bool)
      (eqb_sym : forall a b, eqb a b = eqb b a)
      (eqb_trans : forall a b c, eqb a b = true -> eqb b c = true -> eqb a c = true)
      (d : list (K * V)) k k' :
  eqb k k' = true -> dict_get eqb d k = dict_get eqb d k'.
Proof.
  intros E. induction d as [|[k0 v0] d IH]; simpl; [reflexivity|].
  destruct (eqb k0 k) eqn:E1, (eqb k0 k') eqn:E2; auto.
  - rewrite (eqb_trans _ _ _ E1 E) in E2. discriminate.
  - rewrite eqb_sym in E. rewrite (eqb_trans _ _ _ E2 E) in E1. discriminate.
Qed.

Lemma object_get_equiv (bundle_id_map : BundleIdMap) k k' :
  object_eqb k k' = true ->
  dict_get object_eqb bundle_id_map k = dict_get object_eqb bundle_id_map k'.
Proof. apply dict_get_equiv; [apply object_eqb_sym|apply object_eqb_trans]. Qed.

Lemma bundles_done_update pre bundle_id_map b c :
  bundles_done pre bundle_id_map ->
  (forall r, In r (bundle_records b) ->
             is_element r = true \/ (is_relation r = true /\ is_mention r = false) ->
             extractable r) ->
  bundles_done (pre ++ [b]) (dict_update object_eqb bundle_id_map (bundle_key b) c).
Proof.
  intros (J1 & J2 & J3) N. split; [|split].
  - intros b' Ib. apply in_app_iff in Ib.
    destruct Ib as [Ib|[<-|[]]]; [apply J1; exact Ib|exact N].
  - intros b' Ib.
    destruct (object_eqb (bundle_key b) (bundle_key b')) eqn:E.
    + exists c. apply dict_get_update_eq;
        [apply object_eqb_sym|apply object_eqb_trans|exact E].
    + rewrite (dict_get_update_other _ _ object_eqb object_eqb_sym object_eqb_trans);
        [|exact E].
      apply in_app_iff in Ib. destruct Ib as [Ib|[<-|[]]]; [auto|].
      rewrite object_eqb_refl in E. discriminate.
  - intros k c' I. apply dict_update_in in I; [|apply object_eqb_refl].
    destruct I as [I|[_ E]].
    + destruct (J3 _ _ I) as (b' & Ib & Eb). exists b'. split; [|exact Eb].
      apply in_app_iff. auto.
    + exists b. split; [apply in_app_iff; right; left; reflexivity|].
      rewrite object_eqb_sym. exact E.
Qed.

Lemma written_bundle d b r :
  In b (bundles d) -> In r (bundle_records b) ->
  is_element r = true \/ is_relation r = true -> written d r.
Proof. intros Ib Ir H. right. exists b. auto. Qed.

Lemma outcome_create_one_bundle d doc pre bundle_id_map b :
  In b (bundles d) ->
  bundles_done pre bundle_id_map ->
  outcome (create_one_bundle doc bundle_id_map b) (bundles_done (pre ++ [b]))
          (materialize_error d).
Proof.
  intros Ib J.
  assert (sd : materialize_error d DatabaseException) by (right; left; reflexivity).
  assert (si : forall r, In r (bundle_records b) ->
                         is_element r = true \/ is_relation r = true ->
                         ~ extractable r ->
                         materialize_error d InvalidProvRecordException).
  { intros r Ir H N. left. split; [reflexivity|].
    exists r. split; [eapply written_bundle; eauto|exact N]. }
  unfold create_one_bundle.
  apply outcome_extract;
    [|intros C; destruct (C (bundle_record_extractable b))].
  intros ma _.
  eapply outcome_bind; [apply outcome_save; exact sd|]. intros c _.
  eapply outcome_bind.
  - apply outcome_create_bundle; [exact sd|].
    intros r Ir H. apply si; [exact Ir|]. destruct H as [H|[H _]]; auto.
  - intros u N. eapply outcome_bind.
    + apply outcome_create_bundle_association; [exact sd|].
      intros r Ir El. apply si; auto.
    + intros u' _. apply outcome_ret. apply bundles_done_update; assumption.
Qed.

Lemma outcome_bundles_loop d doc :
  outcome (for_each_acc (bundles d) [] (create_one_bundle doc))
          (bundles_done (bundles d)) (materialize_error d).
Proof.
  apply (outcome_for_each_acc (create_one_bundle doc) bundles_done
                              (materialize_error d) (bundles d) [] []).
  - intros pre b acc Ib J. apply outcome_create_one_bundle; assumption.
  - split; [intros b []|]. split; [intros b []|intros k c []].
Qed.

(** Lines 139-162: every outcome of a materialization. *)
Lemma outcome_materialize d :
  outcome (materialize d)
          (fun _ => (forall r, written d r -> extractable r) /\ mentions_resolved d)
          (materialize_error d).
Proof.
  assert (sd : materialize_error d DatabaseException) by (right; left; reflexivity).
  unfold materialize.
  eapply outcome_bind; [apply outcome_save; exact sd|]. intros doc _.
  eapply outcome_bind.
  { apply outcome_create_bundle; [exact sd|].
    intros r Ir H N. left. split; [reflexivity|].
    exists r. split; [left; auto|exact N]. }
  intros u Top.
  eapply outcome_bind.
  { apply (outcome_for_each_acc (create_one_bundle doc) bundles_done
                                (materialize_error d) (bundles d) [] []).
    - intros pre b acc Ib J. apply outcome_create_one_bundle; assumption.
    - split; [intros b []|]. split; [intros b []|intros k c []]. }
  simpl. intros bundle_id_map (J1 & J2 & J3).
  eapply outcome_bind.
  { apply (outcome_for_each
             _ _ (fun b => forall m, In m (bundle_records b) -> is_mention m = true ->
                                     extractable m
                                     /\ exists c, dict_get object_eqb bundle_id_map
                                                           (first_value m PROV_ATTR_BUNDLE)
                                                  = Some c)).
    intros b Ib. apply outcome_create_bundle_links; [exact sd| | |].
    - intros m Im Mm N. left. split; [reflexivity|].
      exists m. split; [|exact N].
      eapply written_bundle; eauto. right. apply mention_is_relation. exact Mm.
    - intros C. destruct (J2 b Ib) as [c G]. rewrite G in C. discriminate.
    - intros m Im Mm G. right. right. split; [reflexivity|].
      exists b, m. split; [exact Ib|]. split; [exact Im|]. split; [exact Mm|].
      intros (b' & Ib' & E). destruct (J2 b' Ib') as [c G'].
      rewrite (object_get_equiv bundle_id_map _ _ E) in G'.
      rewrite G in G'. discriminate. }
  simpl. intros u' P2. apply outcome_ret. split.
  - intros r [[Ir H]|(b & Ib & Ir & H)]; [apply Top; assumption|].
    destruct H as [El|Rl]; [apply (J1 b Ib r Ir); auto|].
    destruct (is_mention r) eqn:Mr.
    + apply (P2 b Ib r Ir Mr).
    + apply (J1 b Ib r Ir). auto.
  - intros b m Ib Im Mm. destruct (P2 b Ib m Im Mm) as [_ [c G]].
    apply dict_get_some_in in G. destruct G as (k' & I & E).
    destruct (J3 _ _ I) as (b' & Ib' & E').
    exists b'. split; [exact Ib'|]. eapply object_eqb_trans; eauto.
Qed.

Lemma materialize_returns d w doc w' :
  materialize d w = (Ok doc, w') -> doc = next_id w.
Proof.
  unfold materialize. intros H.
  apply bind_ok in H. destruct H as (a & w1 & S1 & H).
  apply bind_ok in H. destruct H as (u & w2 & _ & H).
  apply bind_ok in H. destruct H as (map & w3 & _ & H).
  apply bind_ok in H. destruct H as (u' & w4 & _ & H).
  unfold ret in H. inversion H; subst.
  apply adapter_save_ok in S1. destruct S1 as [-> _]. reflexivity.
Qed.

(** X5.  What an outcome of a materialization tells.  When it returns, the id
    is the one that [save_document] issued, every record it had to extract is
    extractable and every mention held in a bundle names a bundle of the
    document.  When it raises, the exception is [InvalidProvRecordException]
    and some record it had to extract is not extractable, or
    [DatabaseException] and the adapter could fail, or [KeyError] and a
    mention held in a bundle names no bundle of the document. *)
Theorem materialize_outcomes d w :
  match fst (materialize d w) with
  | Ok doc =>
      doc = next_id w
      /\ (forall r, written d r -> extractable r)
      /\ mentions_resolved d
  | Raise e =>
      (e = InvalidProvRecordException /\ exists r, written d r /\ ~ extractable r)
      \/ (e = DatabaseException /\ fault w <> None)
      \/ (e = KeyError
          /\ exists b m, In b (bundles d) /\ In m (bundle_records b)
                         /\ is_mention m = true /\ ~ names_bundle d m)
  end.
Proof.
  destruct (materialize d w) as [r w'] eqn:E. simpl.
  destruct (outcome_materialize d w r w' E) as [_ H].
  destruct r as [doc|e].
  - split; [eapply materialize_returns; exact E|exact H].
  - destruct H as [[H|[H|H]] D]; auto.
Qed.

Lemma endpoint_run c q w :
  fault w = None ->
  exists v w',
    endpoint c q w = (Ok v, w') /\ fault w' = None
    /\ store w'
       = store w ++ match q with
                    | None => [EvSaveRecord c [] (placeholder_metadata (next_uuid w))
                                            (next_id w)]
                    | Some _ => []
                    end.
Proof.
  intros F. destruct q as [x|]; simpl.
  - unfold ret. exists (Some x), w. rewrite app_nil_r. auto.
  - unfold bind. rewrite create_unknown_node_run, F. simpl. unfold ret.
    eexists. eexists. split; [reflexivity|]. simpl. auto.
Qed.

(** X7.  The endpoints of a relation are settled before the relation is
    extracted: when extraction refuses the relation, [_create_relation]
    raises [InvalidProvRecordException] after it has saved a placeholder for
    each absent endpoint, and these placeholders stay in the store with no
    edge attached. *)
Theorem relation_failure_leaves_placeholders fb tb r from_tuple to_tuple w :
  firstn 2 (formal_attributes r) = [from_tuple; to_tuple] ->
  ~ extractable r ->
  fault w = None ->
  exists w' new,
    _create_relation fb tb r w = (Raise InvalidProvRecordException, w')
    /\ store w' = store w ++ new
    /\ Forall placeholder_node new
    /\ List.length new
       = (match snd from_tuple with None => 1 | Some _ => 0 end)
         + (match snd to_tuple with None => 1 | Some _ => 0 end).
Proof.
  intros F N Fw.
  assert (E : _get_metadata_and_attributes_for_record (ObjRecord r)
              = Raise InvalidProvRecordException).
  { destruct (extract_cases r) as [[_ E]|[_ H]]; [exact E|destruct (N H)]. }
  unfold _create_relation. rewrite F. unfold bind.
  destruct (endpoint_run fb (snd from_tuple) w Fw) as (fq & w1 & -> & F1 & S1).
  destruct (endpoint_run tb (snd to_tuple) w1 F1) as (tq & w2 & -> & F2 & S2).
  unfold extract, lift. rewrite E.
  exists w2. eexists. split; [reflexivity|].
  split; [rewrite S2, S1, <- app_assoc; reflexivity|].
  split.
  - apply Forall_app. split.
    + destruct (snd from_tuple); constructor; [reflexivity|constructor].
    + destruct (snd to_tuple); constructor; [reflexivity|constructor].
  - rewrite List.length_app. destruct (snd from_tuple), (snd to_tuple); reflexivity.
Qed.

(* ===================================================================== *)
(** ** Containers of the saved entries *)
(* ===================================================================== *)

Lemma well_scoped_snoc new e :
  well_scoped new ->
  (forall c, In c (containers e) -> Exists (issues c) new) ->
  well_scoped (new ++ [e]).
Proof.
  intros W H l1 x l2 c E I.
  apply snoc_split in E. destruct E as [(-> & -> & ->)|(l2' & -> & ->)].
  - apply H. exact I.
  - apply (W l1 x l2' c); [reflexivity|exact I].
Qed.

Lemma well_scoped_nil : well_scoped [].
Proof. intros l1 e l2 c E. destruct l1; discriminate. Qed.

Lemma issued_snoc c new e : Exists (issues c) new -> Exists (issues c) (new ++ [e]).
Proof. intros H. apply Exists_app. left. exact H. Qed.

Lemma dict_update_values (bundle_id_map : BundleIdMap) k c v :
  In v (dict_values (dict_update object_eqb bundle_id_map k c)) ->
  In v (dict_values bundle_id_map) \/ v = c.
Proof.
  unfold dict_values. intros I. apply in_map_iff in I.
  destruct I as ([k' v'] & <- & I). simpl.
  apply dict_update_in in I; [|apply object_eqb_refl].
  destruct I as [I|[-> _]]; [|auto].
  left. apply in_map_iff. exists (k', v'). auto.
Qed.

Section Scope.
Variable base : list Event.
Variable n0 : nat.

(** The invariant: the entries are well scoped, and the containers in [cs]
    have been created. *)
Let scoped (cs : list DbId) (new : list Event) : Prop :=
  well_scoped new /\ forall c, In c cs -> Exists (issues c) new.

Lemma scoped_stable cs (allowed : Event -> Prop) :
  (forall e, allowed e -> forall c, In c (containers e) -> In c cs) ->
  stable allowed (scoped cs).
Proof.
  intros H new e [W Is] A. split.
  - apply well_scoped_snoc; [exact W|].
    intros c I. apply Is. apply (H e A c I).
  - intros c I. apply issued_snoc. apply Is. exact I.
Qed.

Lemma create_bundle_scoped cs c b :
  In c cs ->
  triple base n0 (scoped cs) (_create_bundle c b) (fun _ => scoped cs) (scoped cs).
Proof.
  intros Ic. apply create_bundle_stable; [| |auto].
  - apply scoped_stable. intros e (r & a & m & rid & _ & _ & _ & ->) c' [<-|[]].
    exact Ic.
  - apply scoped_stable.
    intros e [(uid & rid & ->)|(r & _ & _ & _ & fq & tq & a & m & rid & -> & _)] c' I;
      simpl in I.
    + destruct I as [<-|[]]. exact Ic.
    + destruct I as [<-|[<-|[]]]; exact Ic.
Qed.

Lemma create_bundle_association_scoped cs doc c identifier b :
  In c cs -> In doc cs ->
  triple base n0 (scoped cs) (_create_bundle_association doc c identifier b)
         (fun _ => scoped cs) (scoped cs).
Proof.
  intros Ic Id. apply create_bundle_association_stable.
  apply scoped_stable.
  intros e (r & a & m & bm & rid & _ & _ & _ & _ & ->) c' [<-|[<-|[]]]; assumption.
Qed.

Lemma create_bundle_links_scoped cs b bundle_id_map :
  (forall v, In v (dict_values bundle_id_map) -> In v cs) ->
  triple base n0 (scoped cs) (_create_bundle_links b bundle_id_map)
         (fun _ => scoped cs) (scoped cs).
Proof.
  intros V. apply create_bundle_links_stable.
  apply scoped_stable.
  intros e (fb & tb & If & It & [(uid & rid & ->)|[(uid & rid & ->)|
            (m & _ & _ & fq & tq & a & md & rid & -> & _)]]) c' I;
    simpl in I.
  - destruct I as [<-|[]]. auto.
  - destruct I as [<-|[]]. auto.
  - destruct I as [<-|[<-|[]]]; auto.
Qed.

Lemma scoped_weaken cs cs' new :
  (forall c, In c cs' -> In c cs) -> scoped cs new -> scoped cs' new.
Proof. intros H [W Is]. split; [exact W|]. intros c I. apply Is. auto. Qed.

Lemma create_one_bundle_scoped doc bundle_id_map b :
  triple base n0
         (scoped (doc :: dict_values bundle_id_map))
         (create_one_bundle doc bundle_id_map b)
         (fun bundle_id_map' => scoped (doc :: dict_values bundle_id_map'))
         well_scoped.
Proof.
  unfold create_one_bundle.
  apply extract_triple_gen; [intros new [W _]; exact W|].
  intros metadata attributes _. simpl.
  apply triple_bind
    with (Q := fun c new => scoped (c :: doc :: dict_values bundle_id_map) new).
  { apply triple_save; [|intros new [W _]; exact W].
    intros new [W Is]. split.
    - apply well_scoped_snoc; [exact W|].
      intros c [<-|[]]. apply Is. left. reflexivity.
    - intros c [<-|I].
      + apply Exists_app. right. constructor. reflexivity.
      + apply issued_snoc. apply Is. exact I. }
  intros c.
  apply triple_bind
    with (Q := fun (_ : unit) new => scoped (c :: doc :: dict_values bundle_id_map) new).
  { eapply triple_conseq.
    - apply (create_bundle_scoped (c :: doc :: dict_values bundle_id_map) c b).
      left. reflexivity.
    - auto.
    - auto.
    - intros new [W _]. exact W. }
  intros u.
  apply triple_bind
    with (Q := fun (_ : unit) new => scoped (c :: doc :: dict_values bundle_id_map) new).
  { eapply triple_conseq.
    - apply (create_bundle_association_scoped
               (c :: doc :: dict_values bundle_id_map) doc c).
      + left. reflexivity.
      + right. left. reflexivity.
    - auto.
    - auto.
    - intros new [W _]. exact W. }
  intros u'. apply triple_ret. intros new H.
  eapply scoped_weaken; [|exact H].
  intros x [<-|I]; [right; left; reflexivity|].
  apply dict_update_values in I. destruct I as [I| ->].
  - right. right. exact I.
  - left. reflexivity.
Qed.

Lemma materialize_scoped d :
  triple base n0 (fun new => new = []) (materialize d) (fun _ => well_scoped)
         well_scoped.
Proof.
  unfold materialize.
  apply triple_bind with (Q := fun doc new => scoped [doc] new).
  { apply triple_save.
    - intros new ->. simpl. split.
      + apply (well_scoped_snoc [] _); [apply well_scoped_nil|]. intros c [].
      + intros c [<-|[]]. constructor. reflexivity.
    - intros new ->. apply well_scoped_nil. }
  intros doc.
  apply triple_bind with (Q := fun (_ : unit) new => scoped [doc] new).
  { eapply triple_conseq.
    - apply (create_bundle_scoped [doc] doc (doc_bundle d)). left. reflexivity.
    - auto.
    - auto.
    - intros new [W _]. exact W. }
  intros u.
  apply triple_bind
    with (Q := fun bundle_id_map new => scoped (doc :: dict_values bundle_id_map) new).
  { eapply triple_conseq.
    - apply (triple_for_each_acc
               base n0 (create_one_bundle doc)
               (fun _ bundle_id_map new => scoped (doc :: dict_values bundle_id_map) new)
               well_scoped (bundles d) [] []).
      intros pre b post s _ _. apply create_one_bundle_scoped.
    - auto.
    - auto.
    - auto. }
  intros bundle_id_map.
  apply triple_bind
    with (Q := fun (_ : unit) new => scoped (doc :: dict_values bundle_id_map) new).
  { eapply triple_conseq.
    - apply triple_for_each_inv. intros b _.
      apply (create_bundle_links_scoped (doc :: dict_values bundle_id_map)).
      intros v I. right. exact I.
    - auto.
    - auto.
    - intros new [W _]. exact W. }
  intros u'. apply triple_ret. intros new [W _]. exact W.
Qed.
End Scope.

(** X9.  Every entry that a materialization saves, whatever its outcome,
    refers only to containers that earlier entries of the same
    materialization created with [save_document] or [save_bundle]: a record
    to its container, a bundle to its document, a relation to the containers
    of its two ends. *)
Theorem entries_well_scoped d w :
  exists new,
    store (snd (materialize d w)) = store w ++ new
    /\ well_scoped new.
Proof.
  destruct (materialize d w) as [r w'] eqn:E.
  destruct (materialize_scoped (store w) (next_id w) d w [] r w') as (new & [L _] & H).
  - split; [rewrite app_nil_r; reflexivity|simpl; lia].
  - reflexivity.
  - exact E.
  - exists new. simpl. split; [exact L|]. destruct r; exact H.
Qed.

(* ===================================================================== *)
(** ** Membership edges, one per element *)
(* ===================================================================== *)

(** A loop whose body saves one entry for each item, with an adapter that
    does not fail. *)
Lemma for_each_one_entry {A} (body : A -> M unit) (P : A -> Event -> Prop) xs :
  (forall x w, In x xs -> fault w = None ->
               exists e w', body x w = (Ok tt, w') /\ fault w' = None
                            /\ store w' = store w ++ [e] /\ P x e) ->
  forall w,
    fault w = None ->
    exists w' new,
      for_each xs body w = (Ok tt, w') /\ fault w' = None
      /\ store w' = store w ++ new /\ Forall2 P xs new.
Proof.
  induction xs as [|x xs IH]; intros H w F; simpl.
  - exists w, []. unfold ret. rewrite app_nil_r. auto.
  - destruct (H x w (or_introl eq_refl) F) as (e & w1 & B & F1 & S1 & p).
    destruct (IH (fun y w0 Iy => H y w0 (or_intror Iy)) w1 F1)
      as (w' & new & R & F' & S' & L).
    exists w', (e :: new). unfold bind. rewrite B.
    split; [exact R|]. split; [exact F'|].
    split; [rewrite S', S1, <- app_assoc; reflexivity|].
    constructor; assumption.
Qed.

Lemma adapter_save_run entry w :
  fault w = None ->
  exists w', adapter_save entry w = (Ok (next_id w), w') /\ fault w' = None
             /\ store w' = store w ++ [entry (next_id w)].
Proof.
  intros F. unfold adapter_save. rewrite F. eexists. split; [reflexivity|].
  simpl. auto.
Qed.

Lemma create_bundle_association_exact doc c identifier b w :
  fault w = None ->
  Forall extractable (get_records is_element b) ->
  exists w' belong_metadata new,
    _create_bundle_association doc c identifier b w = (Ok tt, w')
    /\ fault w' = None
    /\ store w' = store w ++ new
    /\ md_prov_type belong_metadata = PROV_ASSOCIATION
    /\ Forall2 (membership_edge doc c identifier belong_metadata)
               (get_records is_element b) new.
Proof.
  intros F Ex. unfold _create_bundle_association.
  destruct (belong_relation_extractable b) as [[bm ba] E].
  destruct (belong_relation_extract _ _ _ E) as [-> T].
  unfold bind at 1. unfold extract at 1, lift. rewrite E. simpl.
  rewrite Forall_forall in Ex.
  match goal with
  | |- context [for_each _ ?body w] =>
      destruct (for_each_one_entry body (membership_edge doc c identifier bm)
                                   (get_records is_element b)) with (w := w)
        as (w' & new & R & F' & S & L); [|exact F|]
  end.
  - intros x w0 Ix F0. destruct (Ex x Ix) as [[metadata attributes] Em].
    unfold bind at 1. unfold extract, lift. rewrite Em.
    unfold bind. unfold save_relation. cbn [fst snd].
    destruct (adapter_save_run
                (EvSaveRelation c (Some (VQName (md_identifier metadata))) doc
                                (option_map VQName identifier) belong_attributes bm)
                w0 F0) as (w1 & -> & F1 & S1).
    eexists. exists w1. split; [reflexivity|]. split; [exact F1|].
    split; [exact S1|]. exists metadata, attributes, (next_id w0). auto.
  - exists w', bm, new. auto.
Qed.


(* ===================================================================== *)
(** ** Elements, one record each, before the relations *)
(* ===================================================================== *)

Lemma relation_loop_stable base n0 c b I :
  stable (relation_phase_event c b) I ->
  triple base n0 I
         (for_each (get_records is_relation b) (fun relation =>
            if is_mention relation then ret tt
            else bind (_create_relation c c relation) (fun _ => ret tt)))
         (fun _ => I) I.
Proof.
  intros SK. apply triple_for_each_inv. intros r Ir.
  apply filter_In in Ir. destruct Ir as [Ir Er].
  destruct (is_mention r) eqn:Mr; [apply triple_ret; auto|].
  apply triple_bind with (Q := fun _ : DbId => I);
    [|intros x; apply triple_ret; intros new p; exact p].
  apply create_relation_stable.
  intros new e p [a|[a|a]]; apply SK; auto; try (left; exact a).
  right. exists r. auto.
Qed.

Lemma relation_loop_outcome c b (S : Exn -> Prop) :
  S DatabaseException ->
  (forall r, In r (bundle_records b) -> is_relation r = true -> is_mention r = false ->
             ~ extractable r -> S InvalidProvRecordException) ->
  outcome (for_each (get_records is_relation b) (fun relation =>
             if is_mention relation then ret tt
             else bind (_create_relation c c relation) (fun _ => ret tt)))
          (fun _ => True) S.
Proof.
  intros sd si. eapply outcome_conseq.
  - apply (outcome_for_each _ _ (fun _ => True)).
    intros x Ix. apply filter_In in Ix. destruct Ix as [Ix Rl].
    destruct (is_mention x) eqn:Mx; [apply outcome_ret; exact I|].
    eapply outcome_bind.
    + apply outcome_create_relation; [exact Rl|exact sd|]. apply si; auto.
    + intros id _. apply outcome_ret. exact I.
  - auto.
  - auto.
Qed.

Lemma create_bundle_exact c b w :
  fault w = None ->
  (forall r, In r (bundle_records b) ->
             is_element r = true \/ (is_relation r = true /\ is_mention r = false) ->
             extractable r) ->
  exists w' nodes rest,
    _create_bundle c b w = (Ok tt, w')
    /\ fault w' = None
    /\ store w' = store w ++ nodes ++ rest
    /\ Forall2 (element_entry c) (get_records is_element b) nodes
    /\ Forall (relation_phase_event c b) rest.
Proof.
  intros F Ex. unfold _create_bundle.
  destruct (for_each_one_entry
              (fun record =>
                 bind (extract record) (fun ma =>
                 bind (save_record c (snd ma) (fst ma)) (fun _ => ret tt)))
              (element_entry c) (get_records is_element b)) with (w := w)
    as (w1 & nodes & R1 & F1 & S1 & L1); [|exact F|].
  { intros x w0 Ix F0. apply filter_In in Ix. destruct Ix as [Ix El].
    destruct (Ex x Ix (or_introl El)) as [[metadata attributes] Em].
    unfold bind at 1. unfold extract, lift. rewrite Em.
    unfold bind. unfold save_record. cbn [fst snd].
    destruct (adapter_save_run (EvSaveRecord c attributes metadata) w0 F0)
      as (w2 & -> & F2 & S2).
    eexists. exists w2. split; [reflexivity|]. split; [exact F2|].
    split; [exact S2|]. exists metadata, attributes, (next_id w0). auto. }
  unfold bind at 1. rewrite R1.
  match goal with
  | |- context [for_each (get_records is_relation b) ?body w1] =>
      destruct (for_each (get_records is_relation b) body w1) as [r w'] eqn:R2
  end.
  destruct (relation_loop_outcome c b (fun e => e = DatabaseException) eq_refl)
    with (w := w1) (r := r) (w' := w') as [F2 O]; [|exact R2|].
  { intros x Ix Rl Mx N. destruct N. apply Ex; auto. }
  destruct (relation_loop_stable (store w1) (next_id w1) c b
                                 (Forall (relation_phase_event c b)))
    with (w := w1) (new := @nil Event) (r := r) (w' := w')
    as (rest & [L _] & H).
  { intros new e H A. apply Forall_app. split; [exact H|].
    constructor; [exact A|constructor]. }
  { split; [rewrite app_nil_r; reflexivity|simpl; lia]. }
  { constructor. }
  { exact R2. }
  destruct r as [[]|e].
  - exists w', nodes, rest. split; [reflexivity|]. split; [auto|].
    split; [rewrite L, S1, <- app_assoc; reflexivity|]. auto.
  - exfalso. destruct O as [Oe D]. apply (D Oe). exact F1.
Qed.

(** X10.  With an adapter that does not fail and a bundle whose elements and
    relations other than mentions are extractable, [_create_bundle] returns
    after saving first exactly one record per element of the bundle, in their
    order, in the container given, with the attributes and the metadata that
    extraction returns for it, and then only placeholders and relations other
    than mentions of that container. *)
Theorem elements_saved_in_order c b w :
  fault w = None ->
  (forall r, In r (bundle_records b) ->
             is_element r = true \/ (is_relation r = true /\ is_mention r = false) ->
             extractable r) ->
  exists w' nodes rest,
    _create_bundle c b w = (Ok tt, w')
    /\ store w' = store w ++ nodes ++ rest
    /\ Forall2 (element_entry c) (get_records is_element b) nodes
    /\ Forall (relation_phase_event c b) rest.
Proof.
  intros F Ex.
  destruct (create_bundle_exact c b w F Ex) as (w' & nodes & rest & R & _ & H).
  exists w', nodes, rest. auto.
Qed.

(* ===================================================================== *)
(** ** What a successful materialization leaves in the store *)
(* ===================================================================== *)

Lemma create_one_bundle_exact doc bundle_id_map b w :
  fault w = None ->
  (forall r, In r (bundle_records b) ->
             is_element r = true \/ (is_relation r = true /\ is_mention r = false) ->
             extractable r) ->
  exists w' block,
    create_one_bundle doc bundle_id_map b w
    = (Ok (dict_update object_eqb bundle_id_map (bundle_key b) (next_id w)), w')
    /\ fault w' = None
    /\ store w' = store w ++ block
    /\ bundle_block doc b block.
Proof.
  intros F Ex. unfold create_one_bundle.
  destruct (bundle_record_extractable b) as [[metadata attributes] E].
  unfold bind at 1. unfold extract at 1, lift.
  change (valid_qualified_name (bundle_namespaces b)
                               (format_bundle_identifier (bundle_identifier b)))
    with (custom_bundle_identifier b).
  rewrite E. cbn [fst snd].
  unfold bind at 1. unfold save_bundle.
  destruct (adapter_save_run (EvSaveBundle doc attributes metadata) w F)
    as (w1 & -> & F1 & S1).
  unfold bind at 1.
  destruct (create_bundle_exact (next_id w) b w1 F1 Ex)
    as (w2 & nodes & rest & -> & F2 & S2 & L2 & P2).
  unfold bind at 1.
  destruct (create_bundle_association_exact
              doc (next_id w) (custom_bundle_identifier b) b w2 F2)
    as (w3 & bm & edges & -> & F3 & S3 & _ & L3).
  { apply Forall_forall. intros x Ix. apply filter_In in Ix.
    destruct Ix as [Ix El]. apply Ex; auto. }
  exists w3. eexists. split; [reflexivity|]. split; [exact F3|].
  split.
  - rewrite S3, S2, S1. rewrite <- !app_assoc. reflexivity.
  - exists (next_id w), attributes, metadata, (nodes ++ rest), bm, edges.
    split; [simpl; rewrite <- app_assoc; reflexivity|].
    split; [exact E|]. split; [|exact L3].
    exists nodes, rest. auto.
Qed.

Lemma bundles_loop_exact doc bs :
  forall bundle_id_map w,
    fault w = None ->
    (forall b r, In b bs -> In r (bundle_records b) ->
                 is_element r = true \/ (is_relation r = true /\ is_mention r = false) ->
                 extractable r) ->
    exists bundle_id_map' w' blocks,
      for_each_acc bs bundle_id_map (create_one_bundle doc) w = (Ok bundle_id_map', w')
      /\ fault w' = None
      /\ store w' = store w ++ List.concat blocks
      /\ Forall2 (bundle_block doc) bs blocks.
Proof.
  induction bs as [|b bs IH]; intros bundle_id_map w F Ex; simpl.
  - exists bundle_id_map, w, []. unfold ret. simpl. rewrite app_nil_r. auto.
  - destruct (create_one_bundle_exact doc bundle_id_map b w F)
      as (w1 & block & R1 & F1 & S1 & B1).
    { intros r Ir H. apply (Ex b r); [left; reflexivity|exact Ir|exact H]. }
    destruct (IH (dict_update object_eqb bundle_id_map (bundle_key b) (next_id w)) w1 F1)
      as (m' & w' & blocks & R & F' & S' & L).
    { intros b' r Ib Ir H. apply (Ex b' r); [right; exact Ib|exact Ir|exact H]. }
    exists m', w', (block :: blocks). unfold bind. rewrite R1.
    split; [exact R|]. split; [exact F'|].
    split; [simpl; rewrite S', S1, <- app_assoc; reflexivity|].
    constructor; assumption.
Qed.

Lemma links_loop_entries d bundle_id_map w r w' :
  for_each (bundles d) (fun bundle => _create_bundle_links bundle bundle_id_map) w
  = (r, w') ->
  exists links, store w' = store w ++ links /\ Forall (link_entry d) links.
Proof.
  intros R.
  destruct (triple_for_each_inv
              (store w) (next_id w)
              (fun bundle => _create_bundle_links bundle bundle_id_map)
              (Forall (link_entry d)) (bundles d))
    with (w := w) (new := @nil Event) (r := r) (w' := w')
    as (links & [L _] & H).
  - intros b Ib. apply create_bundle_links_stable.
    intros new e H A. apply Forall_app. split; [exact H|].
    constructor; [|constructor].
    destruct A as (fb & tb & _ & _ & [P|[P|(m & Im & Mm & Re)]]).
    + left. apply (placeholder_in_facts _ _ P).
    + left. apply (placeholder_in_facts _ _ P).
    + right. exists b, m, fb, tb. auto.
  - split; [rewrite app_nil_r; reflexivity|simpl; lia].
  - constructor.
  - exact R.
  - exists links. split; [exact L|]. destruct r; exact H.
Qed.

(** With an adapter that does not fail, a document whose records to extract
    are all extractable and whose mentions held in bundles all name bundles of
    the document is materialized, and what is saved has these kinds, in this
    order. *)
Lemma materialize_kinds d w :
  fault w = None ->
  (forall r, written d r -> extractable r) ->
  mentions_resolved d ->
  exists w' top blocks links,
    materialize d w = (Ok (next_id w), w')
    /\ fault w' = None
    /\ store w'
       = store w ++ EvSaveDocument (next_id w) :: top ++ List.concat blocks ++ links
    /\ bundle_entries (next_id w) (doc_bundle d) top
    /\ Forall2 (bundle_block (next_id w)) (bundles d) blocks
    /\ Forall (link_entry d) links.
Proof.
  intros F Ex Mr.
  destruct (materialize d w) as [r w'] eqn:E.
  destruct (outcome_materialize d w r w' E) as [F' H].
  destruct r as [doc|e].
  2:{ exfalso. destruct H as [[(_ & r & W & N)|[->|(_ & b & m & Ib & Im & Mm & N)]] D].
      - apply N. apply Ex. exact W.
      - apply (D eq_refl). exact F.
      - apply N. apply (Mr b m); assumption. }
  rewrite (materialize_returns d w doc w' E) in *. clear H.
  unfold materialize in E.
  apply bind_ok in E. destruct E as (a & w1 & S1 & E).
  destruct (adapter_save_run EvSaveDocument w F) as (w1' & R1 & F1 & T1).
  unfold save_document in S1. rewrite R1 in S1. inversion S1; subst a w1'. clear S1.
  apply bind_ok in E. destruct E as (u & w2 & S2 & E).
  destruct (create_bundle_exact (next_id w) (doc_bundle d) w1 F1)
    as (w2' & nodes & rest & R2 & F2 & T2 & L2 & P2).
  { intros r Ir K. apply Ex. left. auto. }
  rewrite R2 in S2. inversion S2; subst u w2'. clear S2.
  apply bind_ok in E. destruct E as (bundle_id_map & w3 & S3 & E).
  destruct (bundles_loop_exact (next_id w) (bundles d) [] w2 F2)
    as (m' & w3' & blocks & R3 & F3 & T3 & L3).
  { intros b r Ib Ir K. apply Ex. right. exists b.
    split; [exact Ib|]. split; [exact Ir|]. destruct K as [K|[K _]]; auto. }
  pose proof (eq_trans (eq_sym R3) S3) as X3. inversion X3; subst m' w3'. clear X3 S3.
  apply bind_ok in E. destruct E as (u' & w4 & S4 & E).
  destruct (links_loop_entries d bundle_id_map w3 _ _ S4) as (links & T4 & L4).
  unfold ret in E. inversion E; subst w4.
  exists w', (nodes ++ rest), blocks, links.
  split; [reflexivity|]. split; [apply F'; exact F|].
  split.
  - rewrite T4, T3, T2, T1. rewrite <- !app_assoc. reflexivity.
  - split; [exists nodes, rest; auto|]. auto.
Qed.

(* ===================================================================== *)
(** ** The entries of a materialization that returns, one by one *)
(* ===================================================================== *)

Lemma for_each_blocks {A} (body : A -> M unit) (P : A -> list Event -> Prop) xs :
  (forall x w u w', In x xs -> body x w = (Ok u, w') ->
                    exists l, store w' = store w ++ l /\ P x l) ->
  forall w u w',
    for_each xs body w = (Ok u, w') ->
    exists blocks, store w' = store w ++ List.concat blocks /\ Forall2 P xs blocks.
Proof.
  induction xs as [|x xs IH]; intros H w u w' E; simpl in E.
  - unfold ret in E. inversion E; subst. exists []. simpl. rewrite app_nil_r. auto.
  - apply bind_ok in E. destruct E as (u1 & w1 & E1 & E).
    destruct (H x w u1 w1 (or_introl eq_refl) E1) as (l & S1 & p).
    destruct (IH (fun y v t v' Iy => H y v t v' (or_intror Iy)) w1 u w' E)
      as (blocks & S & F).
    exists (l :: blocks). simpl. rewrite S, S1, <- app_assoc. auto.
Qed.

Lemma for_each_entries {A} (body : A -> M unit) (P : A -> Event -> Prop) xs :
  (forall x w u w', In x xs -> body x w = (Ok u, w') ->
                    exists e, store w' = store w ++ [e] /\ P x e) ->
  forall w u w',
    for_each xs body w = (Ok u, w') ->
    exists new, store w' = store w ++ new /\ Forall2 P xs new.
Proof.
  induction xs as [|x xs IH]; intros H w u w' E; simpl in E.
  - unfold ret in E. inversion E; subst. exists []. rewrite app_nil_r. auto.
  - apply bind_ok in E. destruct E as (u1 & w1 & E1 & E).
    destruct (H x w u1 w1 (or_introl eq_refl) E1) as (e & S1 & p).
    destruct (IH (fun y v t v' Iy => H y v t v' (or_intror Iy)) w1 u w' E)
      as (new & S & F).
    exists (e :: new). rewrite S, S1, <- app_assoc. auto.
Qed.

Lemma element_turn c r w u w' :
  (ma <- extract r ;; save_record c (snd ma) (fst ma) ;;; ret tt) w = (Ok u, w') ->
  exists e, store w' = store w ++ [e] /\ element_entry c r e.
Proof.
  intros H. apply bind_ok in H. destruct H as ([metadata attributes] & w1 & E & H).
  apply extract_ok in E. destruct E as [-> E].
  apply bind_ok in H. destruct H as (rid & w2 & Sv & H).
  unfold ret in H. inversion H; subst.
  unfold save_record in Sv. apply adapter_save_ok in Sv. destruct Sv as (-> & S & _).
  eexists. split; [exact S|]. exists metadata, attributes, (next_id w). auto.
Qed.

Lemma relation_turn c r w u w' :
  (if is_mention r then ret tt else _create_relation c c r ;;; ret tt) w = (Ok u, w') ->
  exists l, store w' = store w ++ l /\ relation_step c r l.
Proof.
  unfold relation_step. destruct (is_mention r).
  - unfold ret. intros H. inversion H; subst. exists []. rewrite app_nil_r. auto.
  - intros H. apply bind_ok in H. destruct H as (rid & w1 & E & H).
    unfold ret in H. inversion H; subst.
    apply create_relation_run in E. exact E.
Qed.

(** Lines 232-253. *)
Lemma create_bundle_layout c b w u w' :
  _create_bundle c b w = (Ok u, w') ->
  exists l, store w' = store w ++ l /\ container_layout c b l.
Proof.
  unfold _create_bundle. intros H.
  apply bind_ok in H. destruct H as (u1 & w1 & E1 & E2).
  apply for_each_entries with (P := element_entry c) in E1;
    [|intros x w0 v w0' _; apply element_turn].
  apply for_each_blocks with (P := relation_step c) in E2;
    [|intros x w0 v w0' _; apply relation_turn].
  destruct E1 as (nodes & S1 & F1). destruct E2 as (blocks & S2 & F2).
  exists (nodes ++ List.concat blocks).
  split; [rewrite S2, S1, <- app_assoc; reflexivity|].
  exists nodes, blocks. auto.
Qed.

(** Lines 281-300. *)
Lemma create_bundle_association_layout doc c identifier b w u w' :
  _create_bundle_association doc c identifier b w = (Ok u, w') ->
  exists belong_metadata edges,
    store w' = store w ++ edges
    /\ md_prov_type belong_metadata = PROV_ASSOCIATION
    /\ Forall2 (membership_edge doc c identifier belong_metadata)
               (get_records is_element b) edges.
Proof.
  unfold _create_bundle_association. intros H.
  apply bind_ok in H. destruct H as ([bm ba] & w1 & E & H).
  apply extract_ok in E. destruct E as [-> E].
  destruct (belong_relation_extract _ _ _ E) as [-> T].
  apply for_each_entries with (P := membership_edge doc c identifier bm) in H.
  - destruct H as (edges & S & F). exists bm, edges. auto.
  - intros x w0 v w0' _ B.
    apply bind_ok in B. destruct B as ([metadata attributes] & w2 & Ex & B).
    apply extract_ok in Ex. destruct Ex as [-> Ex].
    apply bind_ok in B. destruct B as (rid & w3 & Sv & B).
    unfold ret in B. inversion B; subst.
    unfold save_relation in Sv. apply adapter_save_ok in Sv.
    destruct Sv as (-> & S & _).
    eexists. split; [exact S|]. exists metadata, attributes, (next_id w0). auto.
Qed.

(** Lines 146-157. *)
Lemma create_one_bundle_layout doc bundle_id_map b w map' w' :
  create_one_bundle doc bundle_id_map b w = (Ok map', w') ->
  exists c block,
    map' = dict_update object_eqb bundle_id_map (bundle_key b) c
    /\ store w' = store w ++ block
    /\ bundle_layout doc b c block.
Proof.
  unfold create_one_bundle. intros H.
  apply bind_ok in H. destruct H as ([metadata attributes] & w1 & E & H).
  apply extract_ok in E. destruct E as [-> E].
  apply bind_ok in H. destruct H as (c & w2 & Sv & H).
  unfold save_bundle in Sv. apply adapter_save_ok in Sv. destruct Sv as (-> & S1 & _).
  apply bind_ok in H. destruct H as (u1 & w3 & B & H).
  apply create_bundle_layout in B. destruct B as (body & S2 & B).
  apply bind_ok in H. destruct H as (u2 & w4 & A & H).
  apply create_bundle_association_layout in A. destruct A as (bm & edges & S3 & T & A).
  unfold ret in H. inversion H; subst.
  exists (next_id w), (EvSaveBundle doc attributes metadata (next_id w) :: body ++ edges).
  split; [reflexivity|]. split.
  - rewrite S3, S2, S1. simpl. rewrite <- !app_assoc. reflexivity.
  - exists attributes, metadata, body, bm, edges. auto.
Qed.

Lemma bundles_loop_layout doc bs :
  forall bundle_id_map w map' w',
    for_each_acc bs bundle_id_map (create_one_bundle doc) w = (Ok map', w') ->
    exists ids blocks,
      List.length ids = List.length bs
      /\ map' = issued_map bundle_id_map bs ids
      /\ store w' = store w ++ List.concat blocks
      /\ Forall2 (fun bc block => bundle_layout doc (fst bc) (snd bc) block)
                 (combine bs ids) blocks.
Proof.
  induction bs as [|b bs IH]; intros bundle_id_map w map' w' H; simpl in H.
  - unfold ret in H. inversion H; subst. exists [], []. simpl.
    rewrite app_nil_r. auto.
  - apply bind_ok in H. destruct H as (m1 & w1 & E & H).
    apply create_one_bundle_layout in E. destruct E as (c & block & -> & S1 & B).
    destruct (IH _ _ _ _ H) as (ids & blocks & L & -> & S & F).
    exists (c :: ids), (block :: blocks). simpl.
    split; [rewrite L; reflexivity|]. split; [reflexivity|].
    split; [rewrite S, S1, <- app_assoc; reflexivity|].
    constructor; assumption.
Qed.

Lemma bundle_id_map_get_ok bundle_id_map key w c w' :
  bundle_id_map_get bundle_id_map key w = (Ok c, w') ->
  w' = w /\ dict_get object_eqb bundle_id_map key = Some c.
Proof.
  unfold bundle_id_map_get. destruct (dict_get object_eqb bundle_id_map key).
  - unfold ret. intros H. inversion H. auto.
  - unfold raise. intros H. inversion H.
Qed.

(** Lines 317-334. *)
Lemma create_bundle_links_layout b bundle_id_map w u w' :
  _create_bundle_links b bundle_id_map w = (Ok u, w') ->
  exists l, store w' = store w ++ l /\ links_layout bundle_id_map b l.
Proof.
  unfold _create_bundle_links. intros H.
  apply bind_ok in H. destruct H as (fb & w1 & G & H).
  apply bundle_id_map_get_ok in G. destruct G as [-> G].
  apply for_each_blocks with (P := link_step bundle_id_map fb) in H.
  - destruct H as (blocks & S & F). exists (List.concat blocks).
    split; [exact S|]. exists fb, blocks. auto.
  - intros m w0 v w0' _. unfold link_step.
    destruct (is_mention m); cbn [negb].
    + destruct (nth_error (formal_attributes m) 2) as [[name to_bundle]|];
        [|unfold raise; intros B; inversion B].
      intros B. apply bind_ok in B. destruct B as (tb & w2 & Gt & B).
      apply bundle_id_map_get_ok in Gt. destruct Gt as [-> Gt].
      apply bind_ok in B. destruct B as (rid & w3 & R & B).
      unfold ret in B. inversion B; subst.
      apply create_relation_run in R. destruct R as (block & S & R).
      exists block. split; [exact S|]. exists name, to_bundle, tb. auto.
    + unfold ret. intros B. inversion B; subst. exists []. rewrite app_nil_r. auto.
Qed.

(** Lines 139-162. *)
Lemma materialize_layout d w doc w' :
  materialize d w = (Ok doc, w') ->
  exists top ids blocks links,
    store w' = store w ++ EvSaveDocument doc :: top ++ List.concat blocks
                                            ++ List.concat links
    /\ container_layout doc (doc_bundle d) top
    /\ List.length ids = List.length (bundles d)
    /\ Forall2 (fun bc block => bundle_layout doc (fst bc) (snd bc) block)
               (combine (bundles d) ids) blocks
    /\ Forall2 (links_layout (issued_map [] (bundles d) ids)) (bundles d) links.
Proof.
  unfold materialize. intros H.
  apply bind_ok in H. destruct H as (a & w1 & S1 & H).
  unfold save_document in S1. apply adapter_save_ok in S1. destruct S1 as (-> & S1 & _).
  apply bind_ok in H. destruct H as (u1 & w2 & T & H).
  apply create_bundle_layout in T. destruct T as (top & S2 & T).
  apply bind_ok in H. destruct H as (bundle_id_map & w3 & B & H).
  apply bundles_loop_layout in B. destruct B as (ids & blocks & L & -> & S3 & B).
  apply bind_ok in H. destruct H as (u2 & w4 & K & H).
  apply for_each_blocks
    with (P := links_layout (issued_map [] (bundles d) ids)) in K.
  - destruct K as (lblocks & S4 & K).
    unfold ret in H. inversion H; subst.
    exists top, ids, blocks, lblocks.
    split; [|auto].
    rewrite S4, S3, S2, S1. rewrite <- !app_assoc. reflexivity.
  - intros b w0 v w0' _. apply create_bundle_links_layout.
Qed.

(** X6.  With an adapter that does not fail, a document whose records to
    extract are all extractable and whose mentions held in bundles all name
    bundles of the document is materialized: [materialize] returns the id
    issued by [save_document], and what it has saved is exactly this, in this
    order: the document; for the document itself one record per element and
    then, per relation that is no mention, the placeholders of its absent
    endpoints and its edge; for each bundle in turn the bundle, the same for
    its elements and relations in its own container, and one membership edge
    per element; and at last, for each bundle in turn and each mention it
    holds, the placeholders of the absent endpoints and the edge from the
    bundle's container to the container of the bundle that the mention
    names.  A mention held by the document itself contributes no entry. *)
Theorem materialize_succeeds d w :
  fault w = None ->
  (forall r, written d r -> extractable r) ->
  mentions_resolved d ->
  exists w' top ids blocks links,
    materialize d w = (Ok (next_id w), w')
    /\ fault w' = None
    /\ store w' = store w ++ EvSaveDocument (next_id w) :: top ++ List.concat blocks
                                                       ++ List.concat links
    /\ container_layout (next_id w) (doc_bundle d) top
    /\ List.length ids = List.length (bundles d)
    /\ Forall2 (fun bc block => bundle_layout (next_id w) (fst bc) (snd bc) block)
               (combine (bundles d) ids) blocks
    /\ Forall2 (links_layout (issued_map [] (bundles d) ids)) (bundles d) links.
Proof.
  intros F Ex Mr.
  destruct (materialize_kinds d w F Ex Mr) as (w' & _ & _ & _ & E & F' & _).
  destruct (materialize_layout d w _ w' E) as (top & ids & blocks & links & H).
  exists w', top, ids, blocks, links. auto.
Qed.

(* ===================================================================== *)
(** ** Placeholders of absent endpoints, for a whole document *)
(* ===================================================================== *)

(** C3.  With an adapter that does not fail, for every relation that
    [create_document] writes (any relation held in a bundle, and any relation
    of the document itself that is no mention) and whose "to" endpoint is
    [None], the materialization saves one placeholder for that endpoint, just
    before the relation's edge and tied to it, preceded only by what the
    "from" endpoint needs; it has the type [prov:Unknown], and no other entry
    of the store carries its identifier.  The reconstructor skips a stored
    placeholder, and no record of a reconstructed document has the type
    [prov:Unknown].  But at a failing input, where the document itself holds
    a mention whose general entity is not given, the materialization succeeds
    and saves no placeholder at all, and no edge for the mention; the same
    mention held in a bundle gets its placeholder and its edge. *)
Theorem unknown_endpoint_synthesis json_load :
  (forall d w,
      fault w = None ->
      (forall r, written d r -> extractable r) ->
      mentions_resolved d ->
      exists w',
        materialize d w = (Ok (next_id w), w')
        /\ forall r name,
            written d r -> is_relation r = true ->
            nth_error (formal_attributes r) 1 = Some (name, None) ->
            exists l1 l2 fb tb from_tuple from_node before uid pid attributes metadata rid,
              nth_error (formal_attributes r) 0 = Some from_tuple
              /\ endpoint_entries fb (snd from_tuple) from_node before
              /\ _get_metadata_and_attributes_for_record (ObjRecord r)
                 = Ok (metadata, attributes)
              /\ store w'
                 = store w ++ l1 ++ before
                   ++ EvSaveRecord tb [] (placeholder_metadata uid) pid
                   :: EvSaveRelation fb from_node
                                     tb (Some (VQName (placeholder_identifier uid)))
                                     attributes metadata rid
                   :: l2
              /\ md_prov_type (placeholder_metadata uid) = PROV_UNKNOWN
              /\ (fresh_world w ->
                  forall a e b,
                    store w' = a ++ e :: b ->
                    placeholder_node e -> placeholder_uid uid e ->
                    a = store w ++ l1 ++ before))
  /\ (forall uid b,
         _parse_record json_load b (stored_record [] (placeholder_metadata uid)) = Ok b)
  /\ (forall raw_doc,
         reconstruct json_load raw_doc
         = reconstruct json_load (drop_raw is_placeholder_raw raw_doc))
  /\ (forall raw_doc doc x,
         reconstruct json_load raw_doc = Ok doc ->
         In x (all_records doc) -> record_type x <> Some PROV_UNKNOWN)
  /\ (In (mention_open sample_document_ns "e1" "b1")
         (bundle_records (doc_bundle document_top_level_open_mention))
      /\ is_relation (mention_open sample_document_ns "e1" "b1") = true
      /\ (exists name,
             nth_error (formal_attributes (mention_open sample_document_ns "e1" "b1")) 1
             = Some (name, None))
      /\ fst (materialize document_top_level_open_mention empty_world) = Ok 0
      /\ Forall (fun e => ~ placeholder_node e /\ ~ mention_edge e)
                (store (snd (materialize document_top_level_open_mention empty_world))))
  /\ (fst (materialize document_bundle_open_mention empty_world) = Ok 0
      /\ exists l1 c uid pid from_node attributes metadata rid,
          store (snd (materialize document_bundle_open_mention empty_world))
          = l1 ++ [EvSaveRecord c [] (placeholder_metadata uid) pid;
                   EvSaveRelation c from_node
                                  c (Some (VQName (placeholder_identifier uid)))
                                  attributes metadata rid]
          /\ _get_metadata_and_attributes_for_record
               (ObjRecord (mention_open sample_bundle_ns "e1" "b1"))
             = Ok (metadata, attributes)).
Proof.
  split.
  { intros d w F Ex Mr.
    destruct (materialize_kinds d w F Ex Mr) as (w' & _ & _ & _ & E & _).
    exists w'. split; [exact E|].
    intros r name W Rl N.
    destruct (materialize_written_run d w _ w' E) as (new & S & H).
    destruct (H r W Rl) as (fb & tb & l1 & block & l2 & -> & B).
    destruct B as (from_tuple & to_tuple & before & after & from_node & to_node
                   & attributes & metadata & rid & F2 & Ext & B1 & B2 & ->).
    pose proof (firstn_two_second _ _ _ F2) as N2.
    rewrite N in N2. inversion N2; subst to_tuple. clear N2.
    simpl in B2. destruct B2 as (uid & pid & -> & ->).
    assert (S' : store w'
                 = (store w ++ l1 ++ before)
                   ++ EvSaveRecord tb [] (placeholder_metadata uid) pid
                   :: EvSaveRelation fb from_node
                                     tb (Some (VQName (placeholder_identifier uid)))
                                     attributes metadata rid
                   :: l2).
    { rewrite S. rewrite <- !app_assoc. reflexivity. }
    exists l1, l2, fb, tb, from_tuple, from_node, before, uid, pid,
      attributes, metadata, rid.
    split.
    { destruct (formal_attributes r) as [|x [|y l]]; simpl in F2; inversion F2.
      reflexivity. }
    split; [exact B1|]. split; [exact Ext|].
    split; [rewrite S'; rewrite <- !app_assoc; reflexivity|].
    split; [reflexivity|].
    intros Fw a e b Sa Pn Pu.
    destruct (preserves_materialize d w _ w' E Fw) as [_ Ord].
    rewrite S' in Sa. symmetry in Sa.
    destruct (split_same _ _ _ _ _ _ Sa) as [Ea|[[m Ea]|[m Ea]]].
    - exact Ea.
    - exfalso. rewrite Ea in S'. rewrite <- app_assoc in S'. simpl in S'.
      assert (L : uid < uid); [|lia].
      apply (Ord _ _ _ _ _ uid uid S'); [exact Pn|reflexivity|exact Pu|reflexivity].
    - exfalso. rewrite <- Sa, Ea in S'. rewrite <- app_assoc in S'. simpl in S'.
      assert (L : uid < uid); [|lia].
      apply (Ord _ _ _ _ _ uid uid S'); [reflexivity|exact Pn|reflexivity|exact Pu]. }
  split.
  { intros uid b. apply parse_record_placeholder. apply placeholder_stored. }
  split.
  { intros raw_doc. apply reconstruct_drop. intros b raw.
    apply parse_record_placeholder. }
  split.
  { intros raw_doc doc y D I C.
    apply (reconstruct_classed json_load raw_doc doc y D I).
    apply record_type_unknown. exact C. }
  split.
  { split; [right; left; reflexivity|]. split; [reflexivity|].
    split; [eexists; vm_compute; reflexivity|].
    split; [vm_compute; reflexivity|].
    vm_compute. repeat constructor; intros H; try exact H; discriminate H. }
  split; [vm_compute; reflexivity|].
  exists (firstn 5 (store (snd (materialize document_bundle_open_mention empty_world)))),
    2, 0, 5.
  eexists. eexists. eexists. eexists.
  split; [vm_compute; reflexivity|vm_compute; reflexivity].
Qed.

(* ===================================================================== *)
(** ** Bundles on the way back, and the entry points *)
(* ===================================================================== *)

Section Reading.
Variable json_load : string -> option (dict string string).

Lemma parse_bundles_app document pre :
  forall done rest,
    parse_bundles json_load document done (pre ++ rest)
    = result_bind (parse_bundles json_load document done pre)
                  (fun done' => parse_bundles json_load document done' rest).
Proof.
  induction pre as [|rb pre IH]; intros done rest; simpl; [reflexivity|].
  destruct (new_bundle document done _) as [b|e]; simpl; [|reflexivity].
  destruct (parse_records json_load b (raw_bundle_records rb)) as [b'|e]; simpl;
    [|reflexivity].
  apply IH.
Qed.

(** X11.  [get_document_as_prov] resolves the identifier of a stored bundle
    in the document as rebuilt from the top-level records alone: when the
    text left of a bundle's stored identifier does not resolve there, the
    reconstruction raises the library's [ProvException], whatever the bundle
    holds, once the top-level records and the bundles before it are read. *)
Theorem bundle_identifier_must_resolve raw_doc document pre rb rest done :
  parse_records json_load (mkProvBundle None empty_manager [])
                (raw_document_records raw_doc) = Ok document ->
  raw_bundles raw_doc = pre ++ rb :: rest ->
  parse_bundles json_load document [] pre = Ok done ->
  valid_qualified_name
    (bundle_namespaces document)
    (drop_chars (String.length PROV_API_BUNDLE_IDENTIFIER_PREFIX - 2)
                (raw_identifier (raw_bundle_record rb))) = None ->
  reconstruct json_load raw_doc = Raise ProvException
  /\ forall id w,
      get_document id w = (Ok raw_doc, w) ->
      get_document_as_prov json_load (Some id) w = (Raise ProvException, w).
Proof.
  intros P B D V.
  assert (R : reconstruct json_load raw_doc = Raise ProvException).
  { unfold reconstruct. rewrite P. cbn [result_bind].
    rewrite B, parse_bundles_app, D. cbn [result_bind parse_bundles].
    unfold new_bundle. rewrite V. reflexivity. }
  split; [exact R|].
  intros id w G. unfold get_document_as_prov, bind. rewrite G.
  unfold lift. rewrite R. reflexivity.
Qed.
End Reading.

(** X12.  The creation entry points agree and reject before they save.  A
    content that [form_string] refuses makes [create_document] raise
    [InvalidArgumentTypeException] with the adapter untouched, and so does
    anything but a document, even a text that parses, passed to
    [create_document_from_prov]; a document, or a text that parses to it, is
    materialized in the same way by every entry point that accepts it. *)
Theorem creation_entry_points_agree (parse : string -> option ProvDocument) :
  (forall content w,
      form_string parse content = Raise ParseException ->
      create_document parse content w = (Raise InvalidArgumentTypeException, w))
  /\ (forall content w,
         (forall d, content <> ContentDocument d) ->
         create_document_from_prov parse content w
         = (Raise InvalidArgumentTypeException, w))
  /\ (forall d w,
         create_document parse (ContentDocument d) w = materialize d w
         /\ create_document_from_prov parse (ContentDocument d) w = materialize d w
         /\ create_document_from_json parse (ContentDocument d) w = materialize d w)
  /\ (forall text d w,
         parse text = Some d ->
         create_document parse (ContentText text) w = materialize d w
         /\ create_document_from_json parse (ContentText text) w = materialize d w
         /\ create_document_from_xml parse (ContentText text) w = materialize d w
         /\ create_document_from_provn parse (ContentText text) w = materialize d w).
Proof.
  split; [|split; [|split]].
  - intros content w H. unfold create_document. rewrite H. reflexivity.
  - intros content w H. destruct content as [d| |]; [destruct (H d eq_refl)| |];
      reflexivity.
  - intros d w. repeat split.
  - intros text d w H.
    assert (C : create_document parse (ContentText text) w = materialize d w).
    { unfold create_document. simpl. rewrite H. reflexivity. }
    assert (T : create_document_from_text parse (ContentText text) w = materialize d w).
    { unfold create_document_from_text, bind, lift. simpl. rewrite H. reflexivity. }
    repeat split; assumption.
Qed.

(* ===================================================================== *)
(** ** The further theorems at sample inputs *)
(* ===================================================================== *)

Lemma attributes_last_value_witness :
  _get_metadata_and_attributes_for_record (ObjRecord entity_two_values)
  = Ok (entity_metadata [], [(KQName (ex "tag"), VStr "b")])
  /\ last_value key_eqb (rec_attributes entity_two_values) (KQName (ex "tag"))
     = Some (VStr "b")
  /\ List.length [(KQName (ex "tag"), VStr "b")]
     <= List.length (rec_attributes entity_two_values).
Proof.
  assert (E : _get_metadata_and_attributes_for_record (ObjRecord entity_two_values)
              = Ok (entity_metadata [], [(KQName (ex "tag"), VStr "b")]))
    by reflexivity.
  split; [exact E|].
  destruct (attributes_last_value _ _ _ E) as (_ & _ & L & N).
  split; [apply L; left; reflexivity|exact N].
Defined.

Lemma namespaces_last_name_witness :
  _get_metadata_and_attributes_for_record (ObjRecord entity_dated)
  = Ok (entity_metadata [("ex:when", "xsd:dateTime")], rec_attributes entity_dated)
  /\ forall p u,
      dict_get String.eqb
               [("prov", "http://www.w3.org/ns/prov#"); ("ex", "http://example.org/")] p
      = Some u ->
      exists q,
        In q (record_names entity_dated (entity_metadata [("ex:when", "xsd:dateTime")]))
        /\ ns_prefix (qn_namespace q) = p /\ ns_uri (qn_namespace q) = u.
Proof.
  assert (E : _get_metadata_and_attributes_for_record (ObjRecord entity_dated)
              = Ok (entity_metadata [("ex:when", "xsd:dateTime")],
                    rec_attributes entity_dated))
    by reflexivity.
  split; [exact E|].
  destruct (namespaces_last_name _ _ _ E) as (_ & S & _). exact S.
Defined.

Lemma type_map_entries_witness :
  _get_metadata_and_attributes_for_record (ObjRecord entity_dated)
  = Ok (entity_metadata [("ex:when", "xsd:dateTime")], rec_attributes entity_dated)
  /\ forall s t,
      dict_get String.eqb [("ex:when", "xsd:dateTime")] s = Some t ->
      exists key value,
        In (key, value) (rec_attributes entity_dated) /\ key_str key = s
        /\ key_in_PROV_ATTRIBUTES key = false
        /\ encode_json_representation value = Some t.
Proof.
  assert (E : _get_metadata_and_attributes_for_record (ObjRecord entity_dated)
              = Ok (entity_metadata [("ex:when", "xsd:dateTime")],
                    rec_attributes entity_dated))
    by reflexivity.
  split; [exact E|].
  destruct (type_map_entries _ _ _ E) as (_ & S & _). exact S.
Defined.

Lemma sample_extractable r ma :
  _get_metadata_and_attributes_for_record (ObjRecord r) = Ok ma -> extractable r.
Proof. intros E. exists ma. exact E. Qed.

Lemma materialize_succeeds_witness :
  fault empty_world = None
  /\ (forall r, written document_bundle_mention r -> extractable r)
  /\ mentions_resolved document_bundle_mention
  /\ exists w' top ids blocks links,
      materialize document_bundle_mention empty_world = (Ok 0, w')
      /\ store w' = EvSaveDocument 0 :: top ++ List.concat blocks ++ List.concat links
      /\ container_layout 0 (doc_bundle document_bundle_mention) top
      /\ List.length ids = 2
      /\ Forall2 (fun bc block => bundle_layout 0 (fst bc) (snd bc) block)
                 (combine (bundles document_bundle_mention) ids) blocks
      /\ Forall2 (links_layout (issued_map [] (bundles document_bundle_mention) ids))
                 (bundles document_bundle_mention) links.
Proof.
  assert (F : fault empty_world = None) by reflexivity.
  assert (Ex : forall r, written document_bundle_mention r -> extractable r).
  { intros r [[Ir _]|(b & Ib & Ir & _)].
    - destruct Ir as [<-|[]]. eapply sample_extractable. reflexivity.
    - destruct Ib as [<-|[<-|[]]].
      + destruct Ir as [<-|[<-|[]]]; eapply sample_extractable; reflexivity.
      + destruct Ir as [<-|[]]. eapply sample_extractable. reflexivity. }
  assert (Mr : mentions_resolved document_bundle_mention).
  { intros b m Ib Im Mm.
    exists (mkProvBundle (Some (ex "b2")) sample_bundle_ns
                         [ entity sample_bundle_ns "e2" [] ]).
    split; [right; left; reflexivity|].
    destruct Ib as [<-|[<-|[]]].
    - destruct Im as [<-|[<-|[]]]; [discriminate Mm|reflexivity].
    - destruct Im as [<-|[]]. discriminate Mm. }
  split; [exact F|]. split; [exact Ex|]. split; [exact Mr|].
  destruct (materialize_succeeds document_bundle_mention empty_world F Ex Mr)
    as (w' & top & ids & blocks & links & R & _ & S & H).
  exists w', top, ids, blocks, links. auto.
Defined.

Lemma relation_failure_leaves_placeholders_witness :
  firstn 2 (formal_attributes attribution_bad_key)
  = [(PROV_ATTR_ENTITY, None); (PROV_ATTR_AGENT, None)]
  /\ ~ extractable attribution_bad_key
  /\ fault empty_world = None
  /\ exists w' new,
      _create_relation 0 0 attribution_bad_key empty_world
      = (Raise InvalidProvRecordException, w')
      /\ store w' = new
      /\ Forall placeholder_node new
      /\ List.length new = 2.
Proof.
  assert (F : firstn 2 (formal_attributes attribution_bad_key)
              = [(PROV_ATTR_ENTITY, None); (PROV_ATTR_AGENT, None)]) by reflexivity.
  assert (N : ~ extractable attribution_bad_key).
  { intros [ma E]. discriminate E. }
  split; [exact F|]. split; [exact N|]. split; [reflexivity|].
  destruct (relation_failure_leaves_placeholders 0 0 _ _ _ empty_world F N eq_refl)
    as (w' & new & R & S & P & L).
  exists w', new. auto.
Defined.


Lemma elements_saved_in_order_witness :
  fault empty_world = None
  /\ exists w' e1 e2 rest,
      _create_bundle 1 bundle_two_entities empty_world = (Ok tt, w')
      /\ store w' = e1 :: e2 :: rest
      /\ element_entry 1 (entity sample_bundle_ns "e1" []) e1
      /\ element_entry 1 (entity sample_bundle_ns "e2" []) e2
      /\ Forall (relation_phase_event 1 bundle_two_entities) rest.
Proof.
  split; [reflexivity|].
  destruct (elements_saved_in_order 1 bundle_two_entities empty_world eq_refl)
    as (w' & nodes & rest & R & S & L & P).
  { intros r Ir _.
    destruct Ir as [<-|[<-|[<-|[]]]]; eapply sample_extractable; reflexivity. }
  inversion L as [|? e1 ? l1 M1 L1]; subst.
  inversion L1 as [|? e2 ? l2 M2 L2]; subst.
  inversion L2; subst.
  exists w', e1, e2, rest. auto.
Defined.

Lemma bundle_identifier_must_resolve_witness :
  fst (materialize document_only_bundle empty_world) = Ok 0
  /\ get_document 0 (snd (materialize document_only_bundle empty_world))
     = (Ok raw_only_bundle, snd (materialize document_only_bundle empty_world))
  /\ fst (get_document_as_prov json_nothing (Some 0)
            (snd (materialize document_only_bundle empty_world)))
     = Raise ProvException.
Proof.
  assert (G : get_document 0 (snd (materialize document_only_bundle empty_world))
              = (Ok raw_only_bundle, snd (materialize document_only_bundle empty_world)))
    by reflexivity.
  split; [reflexivity|]. split; [exact G|].
  destruct (bundle_identifier_must_resolve
              json_nothing raw_only_bundle (mkProvBundle None empty_manager [])
              [] _ [] [] eq_refl eq_refl eq_refl eq_refl) as [_ H].
  exact (f_equal fst (H 0 _ G)).
Defined.

